(** * Database Properties: schema aggregation, edit operations and replay

    A shallow embedding of the plugin's two source revisions,
    [src/main.ts] (which writes through the host's [processFrontMatter])
    and [src/unnamed/part_001] (which rewrites the file text itself),
    followed by the properties of aggregation, editing and replay.

    Conventions of the embedding.
    - A JavaScript string is a [string]; a character is one code unit below
      256, so the white space of [trim] and the line terminators excluded by
      the regular expression dot are the ECMAScript ones in that range.
    - A frontmatter value is an [any]; numbers are the integer-valued ones,
      and a number is printed as [Number.prototype.toString] prints the
      double nearest to it.
    - The [Map] of [getProperties] is an association list in insertion
      order.  A JavaScript object used as an ordered record ([frontmatter])
      is the list of its own properties in the order an engine enumerates
      them: the names that are array indices first, ascending, then the
      other names in insertion order.  The object the host hands to the
      callback of [processFrontMatter] is an ordinary one, with
      [Object.prototype] as its prototype, so that an assignment to
      [__proto__] goes through the accessor and creates no property.
    - Converting an object that has an own [toString] property to a string
      throws, as the frontmatter's values are data and never functions.
    - [crypto.randomUUID] is a supply [uuid] indexed by the number of
      identifiers drawn so far; where a property needs the identifiers to be
      pairwise distinct, it says so.
    - The closures of a row of the modal hold the row's own [Property]
      object; the row is named by its position in [propertyList]. *)

From Stdlib Require Import List Bool Arith ZArith Lia Permutation.
From Stdlib Require Import Strings.Ascii Strings.String Numbers.DecimalString.
Import ListNotations.
Open Scope string_scope.

(** ** Host language: strings *)

Module JS.

Definition LF : string := String "010"%char EmptyString.
Definition dquote : string := String "034"%char EmptyString.
Definition backslash : string := String "092"%char EmptyString.

(** White space removed by [String.prototype.trim]. *)
Definition isWhiteSpace (c : ascii) : bool :=
  let n := nat_of_ascii c in
  (((9 <=? n) && (n <=? 13)) || (n =? 32) || (n =? 160))%nat.

(** Line terminators, which the regular-expression dot does not match. *)
Definition isLineTerminator (c : ascii) : bool :=
  let n := nat_of_ascii c in ((n =? 10) || (n =? 13))%nat.

Definition isDigit (c : ascii) : bool :=
  let n := nat_of_ascii c in ((48 <=? n) && (n <=? 57))%nat.

Fixpoint trimStart (s : string) : string :=
  match s with
  | EmptyString => EmptyString
  | String c r => if isWhiteSpace c then trimStart r else s
  end.

Fixpoint trimEnd (s : string) : string :=
  match s with
  | EmptyString => EmptyString
  | String c r =>
      match trimEnd r with
      | EmptyString => if isWhiteSpace c then EmptyString else String c EmptyString
      | r' => String c r'
      end
  end.

(** [s.trim()] *)
Definition trim (s : string) : string := trimEnd (trimStart s).

(** [s.split(sep)] for a non-empty separator: [skip] counts the characters
    of a separator just matched that are still to be passed over, [cur] is
    the piece being collected. *)
Fixpoint split_from (sep : string) (skip : nat) (cur : string) (s : string)
  : list string :=
  match s with
  | EmptyString => [cur]
  | String c r =>
      match skip with
      | S k => split_from sep k cur r
      | O =>
          if prefix sep s
          then cur :: split_from sep (length sep - 1) EmptyString r
          else split_from sep 0 (cur ++ String c EmptyString) r
      end
  end.

Definition split (sep s : string) : list string := split_from sep 0 EmptyString s.

(** [a.join(sep)] on an array of strings *)
Definition join (sep : string) (l : list string) : string := String.concat sep l.

(** [a.slice(n)] *)
Definition slice {A} (n : nat) (l : list A) : list A := skipn n l.

(** [s.replace(/c/g, by)] for a one-character pattern *)
Fixpoint replaceAll (c : ascii) (by_ : string) (s : string) : string :=
  match s with
  | EmptyString => EmptyString
  | String d r =>
      if Ascii.eqb c d then by_ ++ replaceAll c by_ r
      else String d (replaceAll c by_ r)
  end.

(** *** The three regular expressions of the source *)

(** [\d{n}] at the head of [s]: the rest after exactly [n] digits *)
Fixpoint digits (n : nat) (s : string) : option string :=
  match n with
  | O => Some s
  | S k =>
      match s with
      | String c r => if isDigit c then digits k r else None
      | EmptyString => None
      end
  end.

(** a literal character at the head of [s] *)
Definition lit (c : ascii) (s : string) : option string :=
  match s with
  | String d r => if Ascii.eqb c d then Some r else None
  | EmptyString => None
  end.

(** [$] *)
Definition eos (o : option string) : bool :=
  match o with
  | Some EmptyString => true
  | _ => false
  end.

Definition andThen (o : option string) (f : string -> option string) :=
  match o with
  | Some r => f r
  | None => None
  end.

Notation "o >> f" := (andThen o f) (at level 50, left associativity).

(** [/^\d{4}-\d{2}-\d{2}$/.test(s)] *)
Definition test_date (s : string) : bool :=
  eos (digits 4 s >> lit "-" >> digits 2 >> lit "-" >> digits 2).

(** [/^\d{4}-\d{2}-\d{2} \d{2}:\d{2}$/.test(s)] *)
Definition test_datetime (s : string) : bool :=
  eos (digits 4 s >> lit "-" >> digits 2 >> lit "-" >> digits 2
         >> lit " " >> digits 2 >> lit ":" >> digits 2).

(** [.*\]\]$] *)
Fixpoint dotStar_close (s : string) : bool :=
  match s with
  | EmptyString => false
  | String c r =>
      String.eqb s "]]" || (negb (isLineTerminator c) && dotStar_close r)
  end.

(** [/^\[\[.*\]\]$/.test(s)] *)
Definition test_wikiLink (s : string) : bool :=
  match lit "[" s >> lit "[" with
  | Some r => dotStar_close r
  | None => false
  end.

(** *** Numbers *)

Definition decimal (x : Z) : string := NilZero.string_of_int (Z.to_int x).

Definition digitCount (x : Z) : Z := Z.of_nat (String.length (decimal x)).

(** The double nearest to the integer [x >= 0], ties to the even
    significand; [None] from [2 ^ 1024] on, which is [Infinity]. *)
Definition nearestDouble (x : Z) : option Z :=
  if (x <? 2 ^ 53)%Z then Some x
  else
    let shift := (Z.log2 x - 52)%Z in
    let q := Z.shiftr x shift in
    let rest := (x - Z.shiftl q shift)%Z in
    let half := Z.shiftl 1 (shift - 1) in
    let q' := if (half <? rest)%Z || ((rest =? half)%Z && Z.odd q)
              then (q + 1)%Z else q in
    let y := Z.shiftl q' shift in
    if (y <? 2 ^ 1024)%Z then Some y else None.

Definition roundsTo (v x : Z) : bool :=
  match nearestDouble v with
  | Some y => (y =? x)%Z
  | None => false
  end.

(** The decimal with [k] significant digits that reads back as the double
    [x] and is nearest to it, if there is one. *)
Definition candidate (x k : Z) : option Z :=
  if (digitCount x <? k)%Z then Some x
  else
    let p := (10 ^ (digitCount x - k))%Z in
    let lo := (x / p * p)%Z in
    let hi := (lo + p)%Z in
    match roundsTo lo x, roundsTo hi x with
    | true, true =>
        if (x - lo <? hi - x)%Z then Some lo
        else if (hi - x <? x - lo)%Z then Some hi
        else if Z.even (x / p) then Some lo else Some hi
    | true, false => Some lo
    | false, true => Some hi
    | false, false => None
    end.

(** The shortest such decimal: seventeen digits always suffice. *)
Fixpoint shortestFrom (fuel : nat) (k x : Z) : Z :=
  match fuel with
  | O => x
  | S fuel' =>
      match candidate x k with
      | Some v => v
      | None => shortestFrom fuel' (k + 1)%Z x
      end
  end.

Fixpoint stripZeros (fuel : nat) (v : Z) : Z :=
  match fuel with
  | O => v
  | S fuel' =>
      if ((v mod 10 =? 0) && (0 <? v))%Z then stripZeros fuel' (v / 10)%Z else v
  end.

(** [Number::toString] of the double [x >= 0]: all the digits up to
    twenty-one of them, the exponent form beyond. *)
Definition printDouble (x : Z) : string :=
  let v := shortestFrom 17 1 x in
  let n := digitCount v in
  if (n <=? 21)%Z then decimal v
  else
    match decimal (stripZeros (Z.to_nat n) v) with
    | EmptyString => "0"
    | String d rest =>
        String d (match rest with
                  | EmptyString => ""
                  | _ => "." ++ rest
                  end ++ "e+" ++ decimal (n - 1))
    end.

Definition numberToString (n : Z) : string :=
  let body x := match nearestDouble x with
                | Some d => printDouble d
                | None => "Infinity"
                end in
  if (n <? 0)%Z then "-" ++ body (- n)%Z else body n.

End JS.

Open Scope list_scope.

(** ** Frontmatter values *)

(** A value read from a frontmatter block ([any] in the source). *)
#[warnings="-register-all"]
Inductive any : Type :=
| VNull
| VUndefined
| VBool (b : bool)
| VNum (n : Z)
| VStr (s : string)
| VList (items : list any)
| VDate (t : Z)
| VObj (fields : list (string * any)).

(** [getPropertyType], the same in both revisions *)
Definition getPropertyType (value : any) : string :=
  match value with
  | VNull | VUndefined => "Null"
  | VList _ => "List"
  | VBool _ => "Checkbox"
  | VNum _ => "Number"
  | VDate _ => "Date & time"
  | VStr s =>
      if JS.test_date s then "Date"
      else if JS.test_datetime s then "Date & time"
      else "Text"
  | VObj _ => "Text"
  end.

(** ** Data model *)

(** The two revisions differ in the placeholder value of an aggregated or
    added property and in the type label of an added one. *)
Inductive revision : Type := MainTs | Part001.

Definition placeholder (r : revision) : any :=
  match r with MainTs => VNull | Part001 => VStr "" end.

Definition addedType (r : revision) : string :=
  match r with MainTs => "Null" | Part001 => "Text" end.

(** [interface Property]; [types] is the optional [Set<string>], kept in
    insertion order. *)
Record Property : Type := mkProperty {
  id : string;
  key : string;
  value : any;
  type : string;
  types : option (list string)
}.

(** A selected file, as the host presents it: the entries of its cached
    frontmatter in [Object.entries] order ([None] when the file has no
    frontmatter) and its text. *)
Record TFile : Type := mkTFile {
  frontmatter : option (list (string * any));
  content : string
}.

(** [Set.prototype.add] *)
Definition Set_add (x : string) (s : list string) : list string :=
  if existsb (String.eqb x) s then s else s ++ [x].

(** [Map<string, Property>] *)
Definition PMap : Type := list (string * Property).

Definition Map_has (k : string) (m : PMap) : bool :=
  existsb (fun e => String.eqb (fst e) k) m.

Definition Map_get (k : string) (m : PMap) : option Property :=
  option_map snd (find (fun e => String.eqb (fst e) k) m).

Fixpoint Map_set (k : string) (p : Property) (m : PMap) : PMap :=
  match m with
  | [] => [(k, p)]
  | (k', p') :: rest =>
      if String.eqb k' k then (k, p) :: rest else (k', p') :: Map_set k p rest
  end.

(** In-place update of the object stored under [k]. *)
Fixpoint Map_adjust (f : Property -> Property) (k : string) (m : PMap) : PMap :=
  match m with
  | [] => []
  | (k', p') :: rest =>
      if String.eqb k' k then (k', f p') :: rest else (k', p') :: Map_adjust f k rest
  end.

Definition addType (ty : string) (p : Property) : Property :=
  match types p with
  | Some s => mkProperty (id p) (key p) (value p) (type p) (Some (Set_add ty s))
  | None => p
  end.

(** A frontmatter object handed to the [processFrontMatter] callback. *)
Definition obj : Type := list (string * any).

Definition obj_delete (k : string) (o : obj) : obj :=
  filter (fun e => negb (String.eqb (fst e) k)) o.

Definition hasOwnProperty (k : string) (o : obj) : bool :=
  existsb (fun e => String.eqb (fst e) k) o.

(** The array index a property name denotes: the name is the canonical
    decimal of an integer from [0] to [2 ^ 32 - 2]. *)
Fixpoint allDigitChars (s : string) : bool :=
  match s with
  | EmptyString => true
  | String c r => JS.isDigit c && allDigitChars r
  end.

Definition arrayIndex (k : string) : option N :=
  match k with
  | EmptyString => None
  | String c r =>
      if allDigitChars k
         && (negb (Ascii.eqb c "0") || String.eqb r "")
         && (String.length k <=? 10)%nat
      then
        let n := NilZero.uint_of_string k in
        match n with
        | Some d =>
            if (N.of_uint d <=? 4294967294)%N then Some (N.of_uint d) else None
        | None => None
        end
      else None
  end.

(** Assignment to a property the object has keeps its place. *)
Fixpoint obj_update (k : string) (v : any) (o : obj) : obj :=
  match o with
  | [] => []
  | (k', v') :: rest =>
      if String.eqb k' k then (k', v) :: rest else (k', v') :: obj_update k v rest
  end.

(** A new array-index name goes before the first name that is a larger
    index or no index at all. *)
Fixpoint obj_insertIndex (n : N) (k : string) (v : any) (o : obj) : obj :=
  match o with
  | [] => [(k, v)]
  | (k', v') :: rest =>
      match arrayIndex k' with
      | Some m =>
          if (n <? m)%N then (k, v) :: o
          else (k', v') :: obj_insertIndex n k v rest
      | None => (k, v) :: o
      end
  end.

(** Creating or updating an own data property. *)
Definition obj_define (k : string) (v : any) (o : obj) : obj :=
  if hasOwnProperty k o then obj_update k v o
  else
    match arrayIndex k with
    | Some n => obj_insertIndex n k v o
    | None => o ++ [(k, v)]
    end.

(** The prototype of the object the callback fills: [Object.prototype] at
    first; the accessor [__proto__] of [Object.prototype] replaces it by
    [null] or by the object assigned. *)
Inductive prototype : Type :=
| ObjectPrototype
| NullPrototype
| ValuePrototype (v : any).

(** Whether the name [__proto__], looked up from the prototype on, is the
    accessor of [Object.prototype]: not below [null], and not when an
    object in between has a property of that name. *)
Definition reachesAccessor (p : prototype) : bool :=
  match p with
  | ObjectPrototype => true
  | NullPrototype => false
  | ValuePrototype (VObj fields) => negb (hasOwnProperty "__proto__" fields)
  | ValuePrototype _ => true
  end.

(** [o[k] = v] on an ordinary object with its prototype.  Every name other
    than [__proto__] becomes an own data property; [__proto__] is assigned
    through the accessor, which creates no property, replaces the
    prototype when [v] is [null] or an object and does nothing otherwise. *)
Definition obj_set (k : string) (v : any) (s : obj * prototype) : obj * prototype :=
  let (o, p) := s in
  if String.eqb k "__proto__" && negb (hasOwnProperty k o) && reachesAccessor p
  then
    match v with
    | VNull => (o, NullPrototype)
    | VList _ | VDate _ | VObj _ => (o, ValuePrototype v)
    | _ => (o, p)
    end
  else (obj_define k v o, p).

(** The editing session: the modal's [fileList], [propertyList] and
    [newAddName], the plugin's [frontmatterLists], and the number of
    identifiers drawn from [crypto.randomUUID] so far. *)
Record Session : Type := mkSession {
  fileList : list TFile;
  propertyList : list Property;
  frontmatterLists : list (list Property);
  newAddName : string;
  drawn : nat
}.

Definition internalpropertyList : list string := ["tags"; "aliases"; "cssclasses"].

(** [a.splice(i, 1)] and [a.splice(i, 0, x)] with [i] already normalised *)
Definition removeAt {A} (i : nat) (l : list A) : list A :=
  firstn i l ++ skipn (S i) l.

Definition insertAt {A} (i : nat) (x : A) (l : list A) : list A :=
  firstn i l ++ x :: skipn i l.

(** The start index of [splice] as the language normalises it. *)
Definition spliceStart (len : nat) (start : Z) : nat :=
  if (start <? 0)%Z then Z.to_nat (Z.max (Z.of_nat len + start) 0)
  else Nat.min (Z.to_nat start) len.

(** [a.findIndex(p)] *)
Fixpoint findIndex {A} (p : A -> bool) (l : list A) : Z :=
  match l with
  | [] => (-1)%Z
  | x :: rest =>
      if p x then 0%Z
      else let i := findIndex p rest in
           if (i <? 0)%Z then (-1)%Z else (i + 1)%Z
  end.

Fixpoint setKeyAt (i : nat) (name : string) (l : list Property) : list Property :=
  match l, i with
  | [], _ => []
  | p :: rest, O => mkProperty (id p) name (value p) (type p) (types p) :: rest
  | p :: rest, S j => p :: setKeyAt j name rest
  end.

(** The option monad of a computation that may throw a [TypeError]. *)
Fixpoint mapM {A B} (f : A -> option B) (l : list A) : option (list B) :=
  match l with
  | [] => Some []
  | x :: rest =>
      match f x with
      | Some y => option_map (cons y) (mapM f rest)
      | None => None
      end
  end.

(** The four edit operations of the modal, named by what the user does:
    type a name and add, press the trash or pencil button of row [idx],
    drop the row with identifier [draggedId] on row [dropIndex]. *)
Inductive edit : Type :=
| Add (name : string)
| Delete (idx : nat)
| Rename (idx : nat) (name : string)
| Reorder (draggedId : string) (dropIndex : Z).

Section Plugin.

(** [uuid n] is the result of the call of [crypto.randomUUID] made after
    [n] earlier calls. *)
Variable uuid : nat -> string.

(** [Date.prototype.toString] of the host. *)
Variable dateToString : Z -> string.

(** *** Aggregation: [getProperties] *)

(** The body of the [forEach] over the entries of one frontmatter. *)
Definition visitEntry (r : revision)
    (acc : PMap * list Property * nat) (entry : string * any)
  : PMap * list Property * nat :=
  let '(propertiesMap, frontmatterList, n) := acc in
  let '(k, v) := entry in
  let '(propertiesMap1, fmId, n1) :=
    if negb (Map_has k propertiesMap) then
      let i := uuid n in
      (Map_set k (mkProperty i k (placeholder r) "" (Some [])) propertiesMap,
       i, S n)
    else
      (propertiesMap,
       match Map_get k propertiesMap with Some p => id p | None => "" end,
       n) in
  let ty := getPropertyType v in
  (Map_adjust (addType ty) k propertiesMap1,
   frontmatterList ++ [mkProperty fmId k v ty None],
   n1).

(** The body of the loop over the files. *)
Definition visitFile (r : revision)
    (acc : PMap * list (list Property) * nat) (file : TFile)
  : PMap * list (list Property) * nat :=
  let '(propertiesMap, lists, n) := acc in
  let '(propertiesMap', frontmatterList, n') :=
    match frontmatter file with
    | Some fm => fold_left (visitEntry r) fm (propertiesMap, [], n)
    | None => (propertiesMap, [], n)
    end in
  (propertiesMap', lists ++ [frontmatterList], n').

Definition finish (prop : Property) : Property :=
  mkProperty (id prop) (key prop) (value prop)
    (JS.join " | " (match types prop with Some s => s | None => [] end))
    None.

(** [getProperties]: the unified list, the plugin's [frontmatterLists]
    after the pushes, and the identifier count. *)
Definition getProperties (r : revision) (files : list TFile)
    (lists : list (list Property)) (n : nat)
  : list Property * list (list Property) * nat :=
  let '(propertiesMap, lists', n') :=
    fold_left (visitFile r) files ([], lists, n) in
  (map (fun e => finish (snd e)) propertiesMap, lists', n').

(** [initializeView] *)
Definition initializeView (r : revision) (st : Session) : Session :=
  let '(props, lists, n) := getProperties r (fileList st) [] (drawn st) in
  mkSession (fileList st) props lists (newAddName st) n.

(** Choosing a folder or a tag: [fileList] is set, then [initializeView]. *)
Definition selectFiles (r : revision) (files : list TFile) (st : Session) : Session :=
  initializeView r
    (mkSession files (propertyList st) (frontmatterLists st) (newAddName st) (drawn st)).

(** *** Edit operations *)

Definition withPropertyList (l : list Property) (st : Session) : Session :=
  mkSession (fileList st) l (frontmatterLists st) (newAddName st) (drawn st).

(** The text input of the add section. *)
Definition typeNewAddName (s : string) (st : Session) : Session :=
  mkSession (fileList st) (propertyList st) (frontmatterLists st) s (drawn st).

(** [addNewProperty] *)
Definition addNewProperty (r : revision) (st : Session) : Session :=
  let name := JS.trim (newAddName st) in
  if negb (String.eqb name "")
     && negb (existsb (fun p => String.eqb (key p) name) (propertyList st))
  then
    mkSession (fileList st)
      (propertyList st
         ++ [mkProperty (uuid (drawn st)) name (placeholder r) (addedType r) None])
      (frontmatterLists st) "" (S (drawn st))
  else st.

(** The rename callback of the row at position [idx]; the row has the
    pencil button only when its key is not an internal one. *)
Definition renameProperty (idx : nat) (name : string) (st : Session) : Session :=
  match nth_error (propertyList st) idx with
  | Some prop =>
      if existsb (String.eqb (key prop)) internalpropertyList then st
      else if negb (String.eqb name "")
              && negb (existsb (fun p => String.eqb (key p) name) (propertyList st))
      then withPropertyList (setKeyAt idx name (propertyList st)) st
      else st
  | None => st
  end.

(** The delete callback of the row at position [idx]: the filter keeps
    every object but the row's own. *)
Definition deleteProperty (idx : nat) (st : Session) : Session :=
  withPropertyList (removeAt idx (propertyList st)) st.

(** [onDrop] with the dragged identifier and the index of the drop target
    among the rows ([-1] when it is not one of them). *)
Definition onDrop (draggedId : string) (dropIndex : Z) (st : Session) : Session :=
  if String.eqb draggedId "" then st
  else
    let l := propertyList st in
    let draggedIndex := findIndex (fun p => String.eqb (id p) draggedId) l in
    if negb (draggedIndex =? -1)%Z && negb (dropIndex =? -1)%Z
       && negb (draggedIndex =? dropIndex)%Z
    then
      let d := spliceStart (List.length l) draggedIndex in
      match nth_error l d with
      | Some draggedItem =>
          let l1 := removeAt d l in
          withPropertyList (insertAt (spliceStart (List.length l1) dropIndex) draggedItem l1) st
      | None => st
      end
    else st.

(** *** Replay *)

(** [frontmatterList.find(fm => fm.id === prop.id) || prop] *)
Definition found (frontmatterList : list Property) (prop : Property) : Property :=
  match find (fun fm => String.eqb (id fm) (id prop)) frontmatterList with
  | Some fm => fm
  | None => prop
  end.

(** The pair a property contributes to a document: the key of the
    property, the value of what was found. *)
Definition emit (frontmatterList : list Property) (prop : Property) : string * any :=
  (key prop, value (found frontmatterList prop)).

(** [frontmatterLists[i]] is [undefined] out of range, and calling [find]
    on it throws. *)
Definition emitAt (frontmatterList : option (list Property)) (prop : Property)
  : option (string * any) :=
  match frontmatterList with
  | Some l => Some (emit l prop)
  | None => None
  end.

(** **** Revision [main.ts]: [batchWriteFrontmatter] *)

(** The callback given to [processFrontMatter]. *)
Definition writeCallback (props : list Property)
    (frontmatterList : option (list Property)) (fm : obj) : option obj :=
  let cleared := fold_left (fun o k => obj_delete k o) (map fst fm) fm in
  option_map fst
    (fold_left
       (fun acc prop =>
          match acc, emitAt frontmatterList prop with
          | Some o, Some (k, v) => Some (obj_set k v o)
          | _, _ => None
          end)
       props (Some (cleared, ObjectPrototype))).

Definition currentObject (file : TFile) : obj :=
  match frontmatter file with Some fm => fm | None => [] end.

(** The loop from index [i]: the objects written, and whether the loop ran
    to its end. *)
Fixpoint batchWriteFrom (props : list Property)
    (lists : list (list Property)) (i : nat) (files : list TFile)
  : list obj * bool :=
  match files with
  | [] => ([], true)
  | file :: rest =>
      match writeCallback props (nth_error lists i) (currentObject file) with
      | Some o =>
          let '(written, ok) := batchWriteFrom props lists (S i) rest in
          (o :: written, ok)
      | None => ([], false)
      end
  end.

Definition batchWriteFrontmatter (st : Session) : list obj * bool :=
  batchWriteFrom (propertyList st) (frontmatterLists st) 0 (fileList st).

(** **** Revision [part_001]: [updateMarkdownFiles] *)

(** Conversion to a string, as a template literal and [RegExp.test]
    perform it; [None] is a thrown [TypeError]: an object whose own
    [toString] is a frontmatter value, hence no function, cannot be
    converted. *)
Fixpoint toString (v : any) : option string :=
  match v with
  | VNull => Some "null"
  | VUndefined => Some "undefined"
  | VBool true => Some "true"
  | VBool false => Some "false"
  | VNum n => Some (JS.numberToString n)
  | VStr s => Some s
  | VList items =>
      option_map (JS.join ",")
        ((fix each (l : list any) : option (list string) :=
            match l with
            | [] => Some []
            | x :: rest =>
                match match x with
                      | VNull | VUndefined => Some ""
                      | _ => toString x
                      end with
                | Some text => option_map (cons text) (each rest)
                | None => None
                end
            end) items)
  | VDate t => Some (dateToString t)
  | VObj fields =>
      if hasOwnProperty "toString" fields then None else Some "[object Object]"
  end.

(** One element of an array in [stringifyValue]; [replace] exists on
    strings only. *)
Definition stringifyItem (v : any) : option string :=
  match toString v with
  | Some text =>
      if JS.test_wikiLink text then
        match v with
        | VStr s =>
            Some (JS.LF ++ "  - " ++ JS.dquote
                    ++ JS.replaceAll "034"%char (JS.backslash ++ JS.dquote) s
                    ++ JS.dquote)%string
        | _ => None
        end
      else Some (JS.LF ++ "  - " ++ text)%string
  | None => None
  end.

(** [stringifyValue]; [None] is a thrown [TypeError]. *)
Definition stringifyValue (v : any) : option any :=
  match v with
  | VList items =>
      option_map (fun parts => VStr (JS.join "" parts)) (mapM stringifyItem items)
  | _ => Some v
  end.

(** The callback of [propertyList.map] *)
Definition renderLine (frontmatterList : option (list Property)) (prop : Property)
  : option string :=
  match emitAt frontmatterList prop with
  | Some (k, v) =>
      match stringifyValue v with
      | Some sv => option_map (fun text => (k ++ ": " ++ text)%string) (toString sv)
      | None => None
      end
  | None => None
  end.

(** The new text of one file. *)
Definition rewriteFile (props : list Property)
    (frontmatterList : option (list Property)) (text : string) : option string :=
  match mapM (renderLine frontmatterList) props with
  | Some renderList =>
      let newFrontmatter :=
        match renderList with
        | [] => ""
        | _ => ("---" ++ JS.LF ++ JS.join JS.LF renderList ++ JS.LF ++ "---" ++ JS.LF)%string
        end in
      let newContent :=
        JS.trim (JS.join "---" (JS.slice 2 (JS.split "---" text))) in
      Some (newFrontmatter ++ newContent)%string
  | None => None
  end.

Fixpoint updateFrom (props : list Property)
    (lists : list (list Property)) (i : nat) (files : list TFile)
  : list string * bool :=
  match files with
  | [] => ([], true)
  | file :: rest =>
      match rewriteFile props (nth_error lists i) (content file) with
      | Some text =>
          let '(written, ok) := updateFrom props lists (S i) rest in
          (text :: written, ok)
      | None => ([], false)
      end
  end.

Definition updateMarkdownFiles (st : Session) : list string * bool :=
  updateFrom (propertyList st) (frontmatterLists st) 0 (fileList st).

(** *** Edits as data *)

Definition applyEdit (r : revision) (e : edit) (st : Session) : Session :=
  match e with
  | Add name => addNewProperty r (typeNewAddName name st)
  | Delete idx => deleteProperty idx st
  | Rename idx name => renameProperty idx name st
  | Reorder draggedId dropIndex => onDrop draggedId dropIndex st
  end.

End Plugin.

(** * Specification vocabulary *)

(** ** Shapes of date strings *)

(** [s] consists of exactly [n] decimal digits. *)
Definition allDigits (n : nat) (s : string) : Prop :=
  String.length s = n /\
  forall c, In c (list_ascii_of_string s) -> JS.isDigit c = true.

(** The shape [YYYY-MM-DD]. *)
Definition DateString (s : string) : Prop :=
  exists y m d, allDigits 4 y /\ allDigits 2 m /\ allDigits 2 d /\
    s = (y ++ "-" ++ m ++ "-" ++ d)%string.

(** The shape [YYYY-MM-DD HH:MM]. *)
Definition DateTimeString (s : string) : Prop :=
  exists y m d h mi,
    allDigits 4 y /\ allDigits 2 m /\ allDigits 2 d /\
    allDigits 2 h /\ allDigits 2 mi /\
    s = (y ++ "-" ++ m ++ "-" ++ d ++ " " ++ h ++ ":" ++ mi)%string.


(** ** Aggregation, as the specification describes it *)

(** The entries of all the files, in the order [getProperties] visits them. *)
Definition allEntries (files : list TFile) : list (string * any) :=
  flat_map currentObject files.

(** The distinct elements of a list, each at its first occurrence. *)
Fixpoint firstSeen (l : list string) : list string :=
  match l with
  | [] => []
  | x :: rest => x :: filter (fun y => negb (String.eqb y x)) (firstSeen rest)
  end.

(** The values the entries give to key [k], in order. *)
Definition valuesOf (k : string) (es : list (string * any)) : list any :=
  map snd (filter (fun e => String.eqb (fst e) k) es).

Definition typesOf (k : string) (es : list (string * any)) : list string :=
  firstSeen (map getPropertyType (valuesOf k es)).

(** The first value of key [k] among the entries of a document. *)
Definition lookup (k : string) (es : list (string * any)) : option any :=
  option_map snd (find (fun e => String.eqb (fst e) k) es).

Definition idIn (m : PMap) (k : string) : string :=
  match Map_get k m with Some p => id p | None => "" end.

Definition snapshotOf (m : PMap) (es : list (string * any)) : list Property :=
  map (fun e => mkProperty (idIn m (fst e)) (fst e) (snd e)
                  (getPropertyType (snd e)) None) es.


Section AggregationInvariant.

Variable uuid : nat -> string.
Variable r : revision.
Variable n0 : nat.

(** What the map holds for a key once the entries [es] have been visited. *)
Definition entryOk (es : list (string * any)) (e : string * Property) : Prop :=
  snd e = mkProperty (id (snd e)) (fst e) (placeholder r) ""
            (Some (typesOf (fst e) es)).

(** The loop invariant of [getProperties]: [m] and [n] after the entries
    [es], starting from the empty map and [n0] identifiers drawn. *)
Set Implicit Arguments.
Record AggInv (es : list (string * any)) (m : PMap) (n : nat) : Prop := {
  inv_keys : map fst m = firstSeen (map fst es);
  inv_ids : map (fun e => id (snd e)) m = map uuid (seq n0 (List.length m));
  inv_count : n = n0 + List.length m;
  inv_entries : Forall (entryOk es) m
}.
Unset Implicit Arguments.

(** Identifiers once given are kept. *)
Definition extends (m m' : PMap) : Prop :=
  forall k, Map_has k m = true -> Map_has k m' = true /\ idIn m' k = idIn m k.

End AggregationInvariant.

(** The value of key [k] in a document, or the placeholder of the revision. *)
Definition resolved (r : revision) (k : string) (d : list (string * any)) : any :=
  match lookup k d with Some v => v | None => placeholder r end.

(** The keys of the unified list, as the specification describes them. *)
Definition unifiedKeys (files : list TFile) : list string :=
  firstSeen (map fst (allEntries files)).

(** ** Sample data *)

(** A supply of pairwise distinct identifiers. *)
Fixpoint uuid_demo (n : nat) : string :=
  match n with
  | O => "u"
  | S k => String "u" (uuid_demo k)
  end.

Definition session0 : Session := mkSession [] [] [] "" 0.

(** The entry [p] under a new key name. *)
Definition renamed (name : string) (p : Property) : Property :=
  mkProperty (id p) name (value p) (type p) (types p).

(** ** Sessions reached by editing *)

(** A sequence of edits, applied in order. *)
Definition applyEdits (uuid : nat -> string) (r : revision)
    (edits : list edit) (st : Session) : Session :=
  fold_left (fun st e => applyEdit uuid r e st) edits st.

(** Every identifier held by a snapshot was drawn earlier in the session. *)
Definition DrawnIds (uuid : nat -> string) (st : Session) : Prop :=
  forall snap fm,
    In snap (frontmatterLists st) -> In fm snap ->
    exists j, j < drawn st /\ id fm = uuid j.

(** ** The own properties of a written object *)

Definition isArrayIndex (k : string) : bool :=
  match arrayIndex k with
  | Some _ => true
  | None => false
  end.

(** The pairs whose name is an array index, sorted by the index. *)
Definition indexPairs (pairs : obj) : obj :=
  fold_left
    (fun acc kv =>
       match arrayIndex (fst kv) with
       | Some n => obj_insertIndex n (fst kv) (snd kv) acc
       | None => acc
       end)
    pairs [].

(** The other pairs, in the order of the list. *)
Definition namedPairs (pairs : obj) : obj :=
  filter (fun kv => negb (isArrayIndex (fst kv))) pairs.

Definition assignable (kv : string * any) : bool :=
  negb (String.eqb (fst kv) "__proto__").

(** What an empty object holds after the pairs were assigned to it in the
    order of the list: no pair named [__proto__], the array indices first,
    ascending, the other names after them in the order of the list. *)
Definition ownProperties (pairs : obj) : obj :=
  indexPairs (filter assignable pairs) ++ namedPairs (filter assignable pairs).

(** The names of [o] are array indices in ascending order. *)
Inductive IndexSorted : obj -> Prop :=
| IndexSorted_nil : IndexSorted []
| IndexSorted_cons kv n o :
    arrayIndex (fst kv) = Some n ->
    Forall (fun e => exists m, arrayIndex (fst e) = Some m /\ (n <= m)%N) o ->
    IndexSorted o ->
    IndexSorted (kv :: o).

(** ** Loops that stop at the first exception *)

(** The results of the steps before the first one that throws, and whether
    none did. *)
Fixpoint untilThrow {A : Type} (steps : list (option A)) : list A * bool :=
  match steps with
  | [] => ([], true)
  | Some a :: rest => let '(out, ok) := untilThrow rest in (a :: out, ok)
  | None :: _ => ([], false)
  end.

(** The files of a loop with their positions. *)
Definition indexed {A : Type} (files : list A) : list (nat * A) :=
  combine (seq 0 (List.length files)) files.

(** One line of the rendered frontmatter, from an emitted pair. *)
Definition renderPair (dateToString : Z -> string) (kv : string * any)
  : option string :=
  match stringifyValue dateToString (snd kv) with
  | Some sv =>
      option_map (fun text => (fst kv ++ ": " ++ text)%string)
        (toString dateToString sv)
  | None => None
  end.

(** The frontmatter text and the kept body of [rewriteFile]. *)
Definition frontmatterText (renderList : list string) : string :=
  match renderList with
  | [] => ""
  | _ => ("---" ++ JS.LF ++ JS.join JS.LF renderList ++ JS.LF ++ "---" ++ JS.LF)%string
  end.

Definition keptBody (text : string) : string :=
  JS.trim (JS.join "---" (JS.slice 2 (JS.split "---" text))).

(** ** Round trip and leakage, as the specification words them *)

Definition fileA : TFile := mkTFile (Some [("a", VNum 1)]) "A".
Definition fileB : TFile := mkTFile (Some [("b", VNum 2)]) "B".

(** Aggregating, editing nothing and replaying writes to each document
    exactly its own pairs, in some order. *)
Definition ExactRoundTrip (uuid : nat -> string) (files : list TFile) : Prop :=
  forall st0 i file o,
    nth_error files i = Some file ->
    nth_error (fst (batchWriteFrontmatter (selectFiles uuid MainTs files st0))) i
    = Some o ->
    Permutation o (currentObject file).

Definition fileX : TFile := mkTFile (Some [("X", VNull)]) "A".
Definition fileY : TFile := mkTFile (Some [("Y", VNum 2)]) "B".

(** The value replayed for key [X] into a document that lacks [X] is never
    the value another document has for [X]. *)
Definition NeverAnothersValue (uuid : nat -> string) (files : list TFile) : Prop :=
  forall st0 a b A B X v o,
    nth_error files a = Some A ->
    nth_error files b = Some B ->
    lookup X (currentObject A) = Some v ->
    lookup X (currentObject B) = None ->
    nth_error (fst (batchWriteFrontmatter (selectFiles uuid MainTs files st0))) b
    = Some o ->
    lookup X o <> Some v.

(** The keys of each document, document by document. *)
Definition keysPerFile (files : list TFile) : list (list string) :=
  map (fun f => map fst (currentObject f)) files.

(** ** Invalid edits, as the specification words them *)

(** An Add whose trimmed name is empty or already a key name; a Rename whose
    new name is empty or the key name of another entry. *)
Definition InvalidEdit (e : edit) (st : Session) : Prop :=
  match e with
  | Add name =>
      JS.trim name = "" \/ In (JS.trim name) (map key (propertyList st))
  | Rename idx name =>
      name = ""
      \/ exists j p, j <> idx /\ nth_error (propertyList st) j = Some p /\ key p = name
  | Delete _ | Reorder _ _ => False
  end.

Definition threeProperties : list Property :=
  [mkProperty "i0" "Title" VNull "Text" None;
   mkProperty "i1" "Year" VNull "Number" None;
   mkProperty "i2" "Director" VNull "Text" None].

Definition session3 : Session := mkSession [] threeProperties [[]] "" 3.

(** A note without frontmatter, and a note with one. *)
Definition plainNote : TFile := mkTFile None "Just a note.".

Definition titledNote : TFile :=
  mkTFile (Some [("Title", VStr "A")])
    ("---" ++ JS.LF ++ "Title: A" ++ JS.LF ++ "---" ++ JS.LF ++ "Body")%string.

(** ** Further parts of the modal *)

(** The button [updateSaveSection] puts in the save section. *)
Inductive button : Type := SaveButton | CloseButton.

Definition updateSaveSection (st : Session) : button :=
  if Nat.eqb (List.length (frontmatterLists st)) 0 then CloseButton else SaveButton.

(** [RenamePropertyModal]: the input shows [oldName]; [newName] is set by
    the input's change handler only, and is [undefined] until then. *)
Record RenamePropertyModal : Type := mkRenamePropertyModal {
  oldName : string;
  newName : option string
}.

(** Opening the dialog from the pencil button of row [idx]. *)
Definition openRenameModal (idx : nat) (st : Session) : option RenamePropertyModal :=
  match nth_error (propertyList st) idx with
  | Some prop =>
      if existsb (String.eqb (key prop)) internalpropertyList then None
      else Some (mkRenamePropertyModal (key prop) None)
  | None => None
  end.

(** The change handler of the input. *)
Definition onChangeRename (v : string) (m : RenamePropertyModal) : RenamePropertyModal :=
  mkRenamePropertyModal (oldName m) (Some v).

(** The confirm button (or Enter): [onRename(this.newName)]; an undefined
    name is falsy, so the callback does nothing. *)
Definition confirmRename (idx : nat) (m : RenamePropertyModal) (st : Session) : Session :=
  match newName m with
  | Some name => renameProperty idx name st
  | None => st
  end.

(** Every identifier of the working list was drawn earlier in the session,
    and no two entries share one. *)
Definition DistinctDrawnIds (uuid : nat -> string) (st : Session) : Prop :=
  NoDup (map id (propertyList st))
  /\ forall p, In p (propertyList st) -> exists j, j < drawn st /\ id p = uuid j.

(** ** Texts with a frontmatter block *)

(** No "---" starts inside [fm] when [fm] is read in front of [rest]. *)
Fixpoint separatorFree (fm rest : string) : Prop :=
  match fm with
  | EmptyString => True
  | String c fm' =>
      prefix "---" (fm ++ rest)%string = false /\ separatorFree fm' rest
  end.

(** An object that can be converted to a string: it has no own property
    named [toString]. *)
Definition printable (fields : list (string * any)) : bool :=
  negb (hasOwnProperty "toString" fields).

(** An array element [stringifyValue] can write: not itself an array, not a
    native date, whose string the host decides, and not an object that
    cannot be converted to a string. *)
Definition plainItem (v : any) : bool :=
  match v with
  | VList _ | VDate _ => false
  | VObj fields => printable fields
  | _ => true
  end.

(** A value all of whose array elements are plain, or a value that is no
    array and can be converted to a string. *)
Definition plainValue (v : any) : bool :=
  match v with
  | VList items => forallb plainItem items
  | VObj fields => printable fields
  | _ => true
  end.

(** The string of a value that can be converted. *)
Definition textOf (dts : Z -> string) (v : any) : string :=
  match toString dts v with
  | Some text => text
  | None => ""
  end.

(** The entry [stringifyValue] writes for a plain array element. *)
Definition itemEntry (dts : Z -> string) (v : any) : string :=
  match v with
  | VStr s =>
      if JS.test_wikiLink s
      then (JS.LF ++ "  - " ++ JS.dquote
              ++ JS.replaceAll "034"%char (JS.backslash ++ JS.dquote) s
              ++ JS.dquote)%string
      else (JS.LF ++ "  - " ++ s)%string
  | _ => (JS.LF ++ "  - " ++ textOf dts v)%string
  end.

(** What [stringifyValue] returns for a plain value. *)
Definition stringified (dts : Z -> string) (v : any) : any :=
  match v with
  | VList items => VStr (JS.join "" (map (itemEntry dts) items))
  | _ => v
  end.

(** A string that does not open with a bracket: it is no link. *)
Definition opensPlain (s : string) : Prop :=
  match s with
  | String c _ => Ascii.eqb "[" c = false
  | EmptyString => True
  end.

(** The line [updateMarkdownFiles] writes for a pair with a plain value. *)
Definition plainLine (dts : Z -> string) (kv : string * any) : string :=
  (fst kv ++ ": " ++ textOf dts (stringified dts (snd kv)))%string.

(** The emission rule of an Add that carries a default: after [Add name]
    with the default [d], every document is replayed [name] with [d]. *)
Definition AddEmitsDefault (uuid : nat -> string) (r : revision)
    (name : string) (d : any) (st : Session) : Prop :=
  let st' := applyEdit uuid r (Add name) st in
  forall snap,
    In snap (frontmatterLists st') ->
    In (name, d) (map (emit snap) (propertyList st')).

(** ** Choosing the files by tag *)

(** What the metadata cache holds for a file: the tags written in its text
    (the [tag] fields of [cache.tags]) and its frontmatter. *)
Record CachedMetadata : Type := mkCachedMetadata {
  tags : option (list string);
  cachedFrontmatter : option obj
}.

(** Truthiness of a value. *)
Definition truthy (v : any) : bool :=
  match v with
  | VNull | VUndefined => false
  | VBool b => b
  | VNum n => negb (n =? 0)%Z
  | VStr s => negb (String.eqb s "")
  | VList _ | VDate _ | VObj _ => true
  end.

(** [o.k], [undefined] when the object has no such property. *)
Definition property (k : string) (o : obj) : any :=
  match lookup k o with Some v => v | None => VUndefined end.

(** [a || b] *)
Definition orElse (a b : any) : any := if truthy a then a else b.

(** [a.includes(s)] for a string [s] *)
Definition includes (s : string) (a : list any) : bool :=
  existsb (fun v => match v with VStr t => String.eqb t s | _ => false end) a.

(** [s.replace(/^#/, '')] *)
Definition stripHash (s : string) : string :=
  match s with
  | String "#" r => r
  | _ => s
  end.

(** [s.slice(1)] *)
Definition slice1 (s : string) : string :=
  match s with
  | String _ r => r
  | EmptyString => EmptyString
  end.

(** [tags.forEach(t => tagSet.add(f(t)))] *)
Definition addAll (f : string -> string) (ts : list string) (tagSet : list string)
  : list string :=
  fold_left (fun s t => Set_add (f t) s) ts tagSet.

(** Revision [main.ts]: the host's [getAllTags] gives the tags of a cache. *)
Module Main.

Section Vault.

Variable getFileCache : TFile -> option CachedMetadata.
Variable getAllTags : CachedMetadata -> option (list string).
Variable markdownFiles : list TFile.

(** [getFilesByTag] *)
Definition getFilesByTag (tag : string) : list TFile :=
  filter
    (fun file =>
       match getFileCache file with
       | None => false
       | Some cache =>
           match getAllTags cache with
           | Some ts => existsb (fun t => String.eqb t tag) ts
           | None => false
           end
       end)
    markdownFiles.

(** [TagSuggestModal.getItems] *)
Definition getItems : list string :=
  fold_left
    (fun tagSet file =>
       match getFileCache file with
       | Some cache =>
           match getAllTags cache with
           | Some ts => addAll (fun t => t) ts tagSet
           | None => tagSet
           end
       | None => tagSet
       end)
    markdownFiles [].

End Vault.

End Main.

(** Revision [part_001]: the tags are read from the cache directly. *)
Module Legacy.

(** The test of [getFilesByTag] on the cache of one file. *)
Definition hasTag (tag : string) (cache : CachedMetadata) : bool :=
  match tags cache with
  | Some ts =>
      existsb (fun t => String.eqb t ("#" ++ tag) || String.eqb t tag) ts
  | None => false
  end
  || match cachedFrontmatter cache with
     | Some fm =>
         let frontmatterTags := orElse (property "tags" fm) (property "tag" fm) in
         if truthy frontmatterTags then
           match frontmatterTags with
           | VList items => includes tag items || includes ("#" ++ tag) items
           | VStr s => String.eqb s tag || String.eqb s ("#" ++ tag)
           | _ => false
           end
         else false
     | None => false
     end.

(** The tags one cache adds to the set; [None] is a thrown [TypeError]
    ([replace] called on an element that is not a string). *)
Definition addTagsOf (cache : CachedMetadata) (tagSet : list string)
  : option (list string) :=
  let tagSet1 :=
    match tags cache with
    | Some ts => addAll slice1 ts tagSet
    | None => tagSet
    end in
  match cachedFrontmatter cache with
  | Some fm =>
      let fmTags := property "tags" fm in
      if truthy fmTags then
        match fmTags with
        | VList items =>
            fold_left
              (fun acc item =>
                 match acc, item with
                 | Some s, VStr t => Some (Set_add (stripHash t) s)
                 | _, _ => None
                 end)
              items (Some tagSet1)
        | VStr s => Some (Set_add (stripHash s) tagSet1)
        | _ => Some tagSet1
        end
      else Some tagSet1
  | None => Some tagSet1
  end.

Section Vault.

Variable getFileCache : TFile -> option CachedMetadata.
Variable markdownFiles : list TFile.

(** [getFilesByTag] *)
Definition getFilesByTag (tag : string) : list TFile :=
  filter
    (fun file =>
       match getFileCache file with
       | None => false
       | Some cache => hasTag tag cache
       end)
    markdownFiles.

(** [TagSuggestModal.getItems] *)
Definition getItems : option (list string) :=
  fold_left
    (fun acc file =>
       match acc with
       | Some tagSet =>
           match getFileCache file with
           | Some cache => addTagsOf cache tagSet
           | None => Some tagSet
           end
       | None => None
       end)
    markdownFiles (Some []).

End Vault.

End Legacy.

(** File [file] carries tag [t], as the host's [getAllTags] sees it. *)
Definition carries (getFileCache : TFile -> option CachedMetadata)
    (getAllTags : CachedMetadata -> option (list string))
    (file : TFile) (t : string) : Prop :=
  exists cache ts,
    getFileCache file = Some cache /\ getAllTags cache = Some ts /\ In t ts.

(** A vault for the examples: every file has the tag #movie in its text,
    and its own frontmatter. *)
Definition cache_demo (file : TFile) : option CachedMetadata :=
  Some (mkCachedMetadata (Some ["#movie"]) (frontmatter file)).

Definition taggedNote : TFile :=
  mkTFile (Some [("tags", VList [VStr "seen"; VStr "#classic"])]) "".

Definition yearTaggedNote : TFile :=
  mkTFile (Some [("tags", VList [VStr "seen"; VNum 2024])]) "".

(** * Properties *)

(** ** Regular expressions *)

Lemma digits_spec n : forall s r,
  JS.digits n s = Some r <-> exists p, allDigits n p /\ s = (p ++ r)%string.
Proof.
  induction n as [|n IH]; intros s r; simpl.
  - split.
    + intros [= ->]. exists EmptyString. repeat split. intros c [].
    + intros (p & (Hl & _) & ->). destruct p; [reflexivity | discriminate].
  - destruct s as [|c s].
    + split; [discriminate|].
      intros (p & (Hl & _) & E). destruct p; discriminate.
    + destruct (JS.isDigit c) eqn:Hc.
      * rewrite IH. split.
        -- intros (p & (Hl & Hd) & ->). exists (String c p). repeat split.
           ++ simpl. now rewrite Hl.
           ++ simpl. intros c' [<-|Hin]; auto.
        -- intros (p & (Hl & Hd) & E). destruct p as [|c' p]; [discriminate|].
           simpl in E, Hl. injection E as -> ->. exists p. repeat split.
           ++ now injection Hl.
           ++ intros c Hin. apply Hd. simpl. now right.
      * split; [discriminate|].
        intros (p & (Hl & Hd) & E). destruct p as [|c' p]; [discriminate|].
        simpl in E. injection E as -> ->.
        rewrite Hd in Hc; [discriminate | simpl; now left].
Qed.

Lemma lit_spec c s r : JS.lit c s = Some r <-> s = String c r.
Proof.
  destruct s as [|d s]; simpl; [split; discriminate|].
  destruct (Ascii.eqb_spec c d) as [->|Hn].
  - split; [intros [= ->]; reflexivity | intros [= ->]; reflexivity].
  - split; [discriminate | intros [= -> ->]; contradiction].
Qed.

Lemma andThen_Some o f r :
  JS.andThen o f = Some r <-> exists q, o = Some q /\ f q = Some r.
Proof.
  destruct o as [q|]; simpl.
  - split; [intros H; exists q; auto | intros (q' & [= <-] & H); exact H].
  - split; [discriminate | intros (q & [=] & _)].
Qed.

Lemma eos_true o : JS.eos o = true <-> o = Some EmptyString.
Proof.
  destruct o as [[|c s]|]; simpl; split; try discriminate; auto.
Qed.

Lemma append_nil_r (a : string) : (a ++ "")%string = a.
Proof. induction a; simpl; [reflexivity | now rewrite IHa]. Qed.

Lemma test_date_spec s : JS.test_date s = true <-> DateString s.
Proof.
  unfold JS.test_date, DateString. rewrite eos_true.
  repeat setoid_rewrite andThen_Some.
  repeat setoid_rewrite digits_spec. repeat setoid_rewrite lit_spec.
  split.
  - intros (q4 & (q3 & (q2 & (q1 & (y & Hy & ->) & ->) & (m & Hm & ->)) & ->) & (d & Hd & ->)).
    exists y, m, d. rewrite append_nil_r. auto.
  - intros (y & m & d & Hy & Hm & Hd & ->).
    exists (d ++ "")%string. split.
    + exists (String "-" (d ++ "")). split; [|reflexivity].
      exists ((m ++ String "-" (d ++ ""))%string). split.
      * exists (String "-" (m ++ String "-" (d ++ ""))). split; [|reflexivity].
        exists y. split; [assumption|]. now rewrite append_nil_r.
      * exists m. split; [assumption | reflexivity].
    + exists d. split; [assumption | reflexivity].
Qed.

Lemma test_datetime_spec s : JS.test_datetime s = true <-> DateTimeString s.
Proof.
  unfold JS.test_datetime, DateTimeString. rewrite eos_true.
  repeat setoid_rewrite andThen_Some.
  repeat setoid_rewrite digits_spec. repeat setoid_rewrite lit_spec.
  split.
  - intros (q8 & (q7 & (q6 & (q5 & (q4 & (q3 & (q2 & (q1 & (y & Hy & ->) & ->)
              & (m & Hm & ->)) & ->) & (d & Hd & ->)) & ->) & (h & Hh & ->)) & ->)
              & (mi & Hmi & ->)).
    exists y, m, d, h, mi. rewrite append_nil_r. auto 10.
  - intros (y & m & d & h & mi & Hy & Hm & Hd & Hh & Hmi & ->).
    exists (mi ++ "")%string. split; [|exists mi; auto].
    exists (String ":" (mi ++ "")). split; [|reflexivity].
    exists (h ++ String ":" (mi ++ ""))%string. split; [|exists h; auto].
    exists (String " " (h ++ String ":" (mi ++ ""))). split; [|reflexivity].
    exists (d ++ String " " (h ++ String ":" (mi ++ "")))%string.
    split; [|exists d; auto].
    exists (String "-" (d ++ String " " (h ++ String ":" (mi ++ "")))).
    split; [|reflexivity].
    exists (m ++ String "-" (d ++ String " " (h ++ String ":" (mi ++ ""))))%string.
    split; [|exists m; auto].
    exists (String "-" (m ++ String "-" (d ++ String " " (h ++ String ":" (mi ++ ""))))).
    split; [|reflexivity].
    exists y. split; [assumption|]. now rewrite append_nil_r.
Qed.

Lemma allDigits_length {n s} : allDigits n s -> String.length s = n.
Proof. intros [H _]; exact H. Qed.

Lemma length_append_s (a b : string) :
  String.length (a ++ b)%string = String.length a + String.length b.
Proof. induction a; simpl; [reflexivity | now rewrite IHa]. Qed.

Lemma DateString_length s : DateString s -> String.length s = 10.
Proof.
  intros (y & m & d & Hy & Hm & Hd & ->).
  repeat rewrite length_append_s.
  rewrite (allDigits_length Hy), (allDigits_length Hm), (allDigits_length Hd).
  reflexivity.
Qed.

Lemma DateTimeString_length s : DateTimeString s -> String.length s = 16.
Proof.
  intros (y & m & d & h & mi & Hy & Hm & Hd & Hh & Hmi & ->).
  repeat rewrite length_append_s.
  rewrite (allDigits_length Hy), (allDigits_length Hm), (allDigits_length Hd),
    (allDigits_length Hh), (allDigits_length Hmi).
  reflexivity.
Qed.

(** ** Lists and maps *)

Lemma existsb_eqb_In x l : existsb (String.eqb x) l = true <-> In x l.
Proof.
  rewrite existsb_exists. split.
  - intros (y & Hin & E). apply String.eqb_eq in E. now subst.
  - intros H. exists x. split; [assumption | apply String.eqb_refl].
Qed.

Lemma existsb_eqb_notIn x l : existsb (String.eqb x) l = false <-> ~ In x l.
Proof.
  rewrite <- existsb_eqb_In. now rewrite not_true_iff_false.
Qed.

Lemma In_firstSeen x l : In x (firstSeen l) <-> In x l.
Proof.
  induction l as [|a l IH]; simpl; [tauto|].
  rewrite filter_In, IH.
  destruct (String.eqb_spec x a) as [->|Hn]; simpl.
  - tauto.
  - split; [intros [H|[H _]]; auto | intros [H|H]; auto].
Qed.

Lemma NoDup_firstSeen l : NoDup (firstSeen l).
Proof.
  induction l as [|a l IH]; simpl; constructor.
  - rewrite filter_In. intros [_ H]. now rewrite String.eqb_refl in H.
  - now apply NoDup_filter.
Qed.

Lemma firstSeen_snoc l x :
  firstSeen (l ++ [x]) =
  if existsb (String.eqb x) l then firstSeen l else firstSeen l ++ [x].
Proof.
  induction l as [|a l IH]; simpl; [reflexivity|].
  rewrite IH. destruct (existsb (String.eqb x) l) eqn:E.
  - now rewrite orb_true_r.
  - rewrite orb_false_r, filter_app. simpl.
    destruct (String.eqb x a); simpl; [now rewrite app_nil_r | reflexivity].
Qed.

(** *** The map of [getProperties] *)

Lemma Map_has_In k m : Map_has k m = true <-> In k (map fst m).
Proof.
  unfold Map_has. rewrite existsb_exists, in_map_iff. split.
  - intros (e & Hin & E). apply String.eqb_eq in E. eauto.
  - intros (e & E & Hin). exists e. split; [assumption|]. now apply String.eqb_eq.
Qed.

Lemma Map_has_notIn k m : Map_has k m = false <-> ~ In k (map fst m).
Proof.
  rewrite <- Map_has_In. now rewrite not_true_iff_false.
Qed.

Lemma Map_set_fresh k p m : Map_has k m = false -> Map_set k p m = m ++ [(k, p)].
Proof.
  induction m as [|[k' p'] m IH]; simpl; [reflexivity|].
  unfold Map_has; simpl. fold (Map_has k m).
  destruct (String.eqb k' k); simpl; [discriminate|].
  intros H. now rewrite IH.
Qed.

Lemma Map_adjust_snoc f k p m :
  Map_has k m = false -> Map_adjust f k (m ++ [(k, p)]) = m ++ [(k, f p)].
Proof.
  induction m as [|[k' p'] m IH]; simpl.
  - now rewrite String.eqb_refl.
  - unfold Map_has; simpl. fold (Map_has k m).
    destruct (String.eqb k' k); simpl; [discriminate|].
    intros H. now rewrite IH.
Qed.

Lemma Map_adjust_keys f k m : map fst (Map_adjust f k m) = map fst m.
Proof.
  induction m as [|[k' p'] m IH]; simpl; [reflexivity|].
  destruct (String.eqb k' k); simpl; [reflexivity | now rewrite IH].
Qed.

Lemma Map_adjust_map f k m :
  NoDup (map fst m) ->
  Map_adjust f k m =
  map (fun e => if String.eqb (fst e) k then (fst e, f (snd e)) else e) m.
Proof.
  induction m as [|[k' p'] m IH]; simpl; [reflexivity|].
  intros Hnd. inversion Hnd as [|? ? Hn Hd]; subst.
  destruct (String.eqb_spec k' k) as [->|Hne].
  - f_equal. rewrite <- (map_id m) at 1. apply map_ext_in.
    intros [k'' p''] Hin. simpl.
    destruct (String.eqb_spec k'' k) as [->|]; [|reflexivity].
    exfalso. apply Hn. apply in_map_iff. now exists (k, p'').
  - now rewrite IH.
Qed.

Lemma Map_get_adjust f k k' m :
  Map_get k' (Map_adjust f k m) =
  if String.eqb k' k then option_map f (Map_get k' m) else Map_get k' m.
Proof.
  unfold Map_get.
  induction m as [|[k1 p1] m IH]; simpl.
  - now destruct (String.eqb k' k).
  - destruct (String.eqb_spec k1 k) as [->|Hne]; simpl.
    + destruct (String.eqb_spec k k') as [->|Hne'].
      * now rewrite String.eqb_refl.
      * destruct (String.eqb_spec k' k); [congruence | reflexivity].
    + destruct (String.eqb_spec k1 k') as [->|Hne'].
      * destruct (String.eqb_spec k' k); [congruence | reflexivity].
      * exact IH.
Qed.

Lemma addType_id ty p : id (addType ty p) = id p.
Proof. unfold addType. now destruct (types p). Qed.

Lemma idIn_adjust ty k k' m : idIn (Map_adjust (addType ty) k m) k' = idIn m k'.
Proof.
  unfold idIn. rewrite Map_get_adjust.
  destruct (String.eqb k' k); [|reflexivity].
  destruct (Map_get k' m); simpl; [apply addType_id | reflexivity].
Qed.

Lemma Map_get_app k m m' :
  Map_has k m = true -> Map_get k (m ++ m') = Map_get k m.
Proof.
  unfold Map_get, Map_has.
  induction m as [|e m IH]; simpl; [discriminate|].
  destruct (String.eqb (fst e) k); simpl; [reflexivity | exact IH].
Qed.

Lemma Map_get_snoc_fresh k p m :
  Map_has k m = false -> Map_get k (m ++ [(k, p)]) = Some p.
Proof.
  unfold Map_get, Map_has.
  induction m as [|e m IH]; simpl.
  - now rewrite String.eqb_refl.
  - destruct (String.eqb (fst e) k); simpl; [discriminate | exact IH].
Qed.

Lemma Map_adjust_ids ty k m :
  map (fun e => id (snd e)) (Map_adjust (addType ty) k m) = map (fun e => id (snd e)) m.
Proof.
  induction m as [|[k' p'] m IH]; simpl; [reflexivity|].
  destruct (String.eqb k' k); simpl; [now rewrite addType_id | now rewrite IH].
Qed.

Lemma valuesOf_app k es es' : valuesOf k (es ++ es') = valuesOf k es ++ valuesOf k es'.
Proof. unfold valuesOf. now rewrite filter_app, map_app. Qed.

Lemma valuesOf_absent k es : ~ In k (map fst es) -> valuesOf k es = [].
Proof.
  unfold valuesOf. induction es as [|e es IH]; simpl; [reflexivity|].
  intros H. destruct (String.eqb_spec (fst e) k) as [E|_].
  - exfalso. apply H. now left.
  - apply IH. intros Hin. apply H. now right.
Qed.

Lemma Set_add_firstSeen x l :
  Set_add x (firstSeen l) = firstSeen (l ++ [x]).
Proof.
  unfold Set_add. rewrite firstSeen_snoc.
  destruct (existsb (String.eqb x) l) eqn:E.
  - apply existsb_eqb_In in E. apply In_firstSeen in E.
    apply existsb_eqb_In in E. now rewrite E.
  - apply existsb_eqb_notIn in E. rewrite <- In_firstSeen in E.
    apply existsb_eqb_notIn in E. now rewrite E.
Qed.

Lemma typesOf_snoc_same k v es :
  typesOf k (es ++ [(k, v)]) = Set_add (getPropertyType v) (typesOf k es).
Proof.
  unfold typesOf. rewrite valuesOf_app, Set_add_firstSeen, map_app.
  unfold valuesOf at 2. simpl. now rewrite String.eqb_refl.
Qed.

Lemma typesOf_snoc_other k k' v es :
  k' <> k -> typesOf k' (es ++ [(k, v)]) = typesOf k' es.
Proof.
  intros Hne. unfold typesOf. rewrite valuesOf_app.
  unfold valuesOf at 2. simpl.
  destruct (String.eqb_spec k k'); [congruence|]. simpl. now rewrite app_nil_r.
Qed.

Section Aggregation.

Variable uuid : nat -> string.
Variable r : revision.
Variable n0 : nat.

Local Abbreviation AggInv := (AggInv uuid r n0).

Lemma extends_refl m : extends m m.
Proof. intros k H. auto. Qed.

Lemma extends_trans m1 m2 m3 : extends m1 m2 -> extends m2 m3 -> extends m1 m3.
Proof.
  intros H12 H23 k H. destruct (H12 k H) as [H2 E2].
  destruct (H23 k H2) as [H3 E3]. split; [assumption | congruence].
Qed.

Lemma AggInv_nil : AggInv [] [] n0.
Proof. constructor; simpl; auto. Qed.

Lemma AggInv_NoDup es m n : AggInv es m n -> NoDup (map fst m).
Proof. intros H. rewrite (inv_keys H). apply NoDup_firstSeen. Qed.

Lemma visitEntry_spec es m fl n k v :
  AggInv es m n ->
  exists m' n',
    visitEntry uuid r (m, fl, n) (k, v)
    = (m', fl ++ [mkProperty (idIn m' k) k v (getPropertyType v) None], n')
    /\ AggInv (es ++ [(k, v)]) m' n'
    /\ extends m m'
    /\ Map_has k m' = true.
Proof.
  intros Inv. unfold visitEntry.
  destruct (Map_has k m) eqn:Hhas; simpl.
  - (* the key was seen before *)
    exists (Map_adjust (addType (getPropertyType v)) k m), n.
    assert (Hin : In k (map fst es)).
    { apply Map_has_In in Hhas. rewrite (inv_keys Inv) in Hhas.
      now rewrite In_firstSeen in Hhas. }
    split; [|split; [|split]].
    + rewrite idIn_adjust. reflexivity.
    + constructor.
      * rewrite Map_adjust_keys, map_app. cbn [map fst]. rewrite firstSeen_snoc.
        apply existsb_eqb_In in Hin. rewrite Hin. apply (inv_keys Inv).
      * rewrite Map_adjust_ids.
        replace (List.length (Map_adjust (addType (getPropertyType v)) k m))
          with (List.length m).
        -- apply (inv_ids Inv).
        -- rewrite <- (length_map fst m), <- (Map_adjust_keys (addType (getPropertyType v)) k m).
           now rewrite length_map.
      * replace (List.length (Map_adjust (addType (getPropertyType v)) k m))
          with (List.length m).
        -- apply (inv_count Inv).
        -- rewrite <- (length_map fst m), <- (Map_adjust_keys (addType (getPropertyType v)) k m).
           now rewrite length_map.
      * rewrite Map_adjust_map by (eapply AggInv_NoDup; eassumption).
        apply Forall_map. eapply Forall_impl; [|apply (inv_entries Inv)].
        intros [k' p'] Hok. unfold entryOk in *. simpl in *.
        destruct (String.eqb_spec k' k) as [->|Hne]; simpl.
        -- rewrite typesOf_snoc_same.
           destruct p' as [i ke va ty ts]. simpl in Hok.
           injection Hok as -> -> -> ->. reflexivity.
        -- now rewrite typesOf_snoc_other.
    + intros k' Hk'. split.
      * apply Map_has_In. rewrite Map_adjust_keys. now apply Map_has_In.
      * apply idIn_adjust.
    + apply Map_has_In. rewrite Map_adjust_keys. now apply Map_has_In.
  - (* first sighting *)
    set (new := mkProperty (uuid n) k (placeholder r) "" (Some [])).
    rewrite (Map_set_fresh _ _ _ Hhas), (Map_adjust_snoc _ _ _ _ Hhas).
    exists (m ++ [(k, addType (getPropertyType v) new)]), (S n).
    assert (Hnin : ~ In k (map fst es)).
    { apply Map_has_notIn in Hhas. rewrite (inv_keys Inv) in Hhas.
      now rewrite In_firstSeen in Hhas. }
    split; [|split; [|split]].
    + unfold idIn. rewrite (Map_get_snoc_fresh _ _ _ Hhas). reflexivity.
    + constructor.
      * rewrite !map_app. cbn [map fst]. rewrite firstSeen_snoc.
        apply existsb_eqb_notIn in Hnin. rewrite Hnin.
        now rewrite (inv_keys Inv).
      * rewrite map_app, length_app. simpl. rewrite Nat.add_1_r, seq_S, map_app.
        simpl. rewrite (inv_ids Inv), (inv_count Inv). reflexivity.
      * rewrite length_app. simpl. rewrite (inv_count Inv). lia.
      * apply Forall_app. split.
        -- rewrite Forall_forall. intros [k' p'] Hin.
           pose proof (proj1 (Forall_forall _ _) (inv_entries Inv) _ Hin) as Hok.
           unfold entryOk in *. simpl in *.
           rewrite typesOf_snoc_other; [assumption|].
           intros ->. apply Map_has_notIn in Hhas. apply Hhas.
           apply in_map_iff. now exists (k, p').
        -- constructor; [|constructor]. unfold entryOk. simpl.
           rewrite typesOf_snoc_same. unfold typesOf.
           rewrite (valuesOf_absent _ _ Hnin). reflexivity.
    + intros k' Hk'. split.
      * apply Map_has_In. rewrite map_app. apply in_or_app. left.
        now apply Map_has_In.
      * unfold idIn. now rewrite Map_get_app.
    + apply Map_has_In. rewrite map_app. apply in_or_app. right. now left.
Qed.

Lemma snapshotOf_extends m m' es :
  extends m m' ->
  (forall e, In e es -> Map_has (fst e) m = true) ->
  snapshotOf m' es = snapshotOf m es.
Proof.
  intros Hext Hhas. unfold snapshotOf. apply map_ext_in.
  intros e Hin. destruct (Hext _ (Hhas _ Hin)) as [_ ->]. reflexivity.
Qed.

Lemma visitEntries_spec : forall es' es m fl n,
  AggInv es m n ->
  exists m' n',
    fold_left (visitEntry uuid r) es' (m, fl, n) = (m', fl ++ snapshotOf m' es', n')
    /\ AggInv (es ++ es') m' n'
    /\ extends m m'
    /\ (forall e, In e es' -> Map_has (fst e) m' = true).
Proof.
  induction es' as [|[k v] es' IH]; intros es m fl n Inv.
  - exists m, n. simpl. rewrite !app_nil_r.
    split; [reflexivity|]. split; [assumption|].
    split; [apply extends_refl | intros e []].
  - destruct (visitEntry_spec es m fl n k v Inv) as (m1 & n1 & E1 & Inv1 & X1 & H1).
    destruct (IH _ _ (fl ++ [mkProperty (idIn m1 k) k v (getPropertyType v) None]) _ Inv1)
      as (m' & n' & E' & Inv' & X' & H').
    exists m', n'. cbn [fold_left]. rewrite E1, E'. split; [|split; [|split]].
    + rewrite <- app_assoc. simpl.
      destruct (X' _ H1) as [_ ->]. reflexivity.
    + now rewrite <- app_assoc in Inv'.
    + eapply extends_trans; eassumption.
    + intros e [<-|Hin]; [|auto]. simpl. apply (X' _ H1).
Qed.

Lemma visitFile_spec es m lists n file :
  AggInv es m n ->
  exists m' n',
    visitFile uuid r (m, lists, n) file
    = (m', lists ++ [snapshotOf m' (currentObject file)], n')
    /\ AggInv (es ++ currentObject file) m' n'
    /\ extends m m'
    /\ (forall e, In e (currentObject file) -> Map_has (fst e) m' = true).
Proof.
  intros Inv. unfold visitFile, currentObject.
  destruct (frontmatter file) as [fm|].
  - destruct (visitEntries_spec fm es m [] n Inv) as (m' & n' & E & Inv' & X & H).
    exists m', n'. rewrite E. simpl. auto.
  - exists m, n. simpl. rewrite app_nil_r.
    split; [reflexivity|]. split; [assumption|].
    split; [apply extends_refl | intros e []].
Qed.

Lemma visitFiles_spec : forall files es m lists n,
  AggInv es m n ->
  exists m' n',
    fold_left (visitFile uuid r) files (m, lists, n)
    = (m', lists ++ map (fun f => snapshotOf m' (currentObject f)) files, n')
    /\ AggInv (es ++ allEntries files) m' n'
    /\ extends m m'.
Proof.
  induction files as [|file files IH]; intros es m lists n Inv.
  - exists m, n. simpl. rewrite !app_nil_r. auto using extends_refl.
  - destruct (visitFile_spec es m lists n file Inv) as (m1 & n1 & E1 & Inv1 & X1 & H1).
    destruct (IH _ _ (lists ++ [snapshotOf m1 (currentObject file)]) _ Inv1)
      as (m' & n' & E' & Inv' & X').
    exists m', n'. cbn [fold_left]. rewrite E1, E'. split; [|split].
    + rewrite <- app_assoc. simpl.
      now rewrite (snapshotOf_extends _ _ _ X' H1).
    + unfold allEntries in *. simpl. now rewrite app_assoc.
    + eapply extends_trans; eassumption.
Qed.

(** [getProperties] in closed form over the final map. *)
Lemma getProperties_spec files lists :
  exists m,
    AggInv (allEntries files) m (n0 + List.length m)
    /\ getProperties uuid r files lists n0
       = (map (fun e => finish (snd e)) m,
          lists ++ map (fun f => snapshotOf m (currentObject f)) files,
          n0 + List.length m).
Proof.
  destruct (visitFiles_spec files [] [] lists n0 AggInv_nil) as (m & n & E & Inv & _).
  exists m. simpl in Inv. pose proof (inv_count Inv) as ->.
  split; [assumption|]. unfold getProperties.
  unfold PMap in *. now rewrite E.
Qed.

End Aggregation.

(** ** Replay against aggregated snapshots *)

Lemma NoDup_map_eq_In {A B} (f : A -> B) (l : list A) a b :
  NoDup (map f l) -> In a l -> In b l -> f a = f b -> a = b.
Proof.
  induction l as [|x l IH]; simpl; [intros _ []|].
  intros Hnd Ha Hb E. inversion Hnd as [|? ? Hn Hd]; subst.
  destruct Ha as [->|Ha], Hb as [->|Hb]; auto.
  - exfalso. apply Hn. rewrite E. now apply in_map.
  - exfalso. apply Hn. rewrite <- E. now apply in_map.
Qed.

Lemma NoDup_map_injective {A B} (f : A -> B) (l : list A) :
  (forall a b, f a = f b -> a = b) -> NoDup l -> NoDup (map f l).
Proof.
  intros Hf. induction 1 as [|x l Hn Hd IH]; simpl; constructor; [|assumption].
  rewrite in_map_iff. intros (y & E & Hy). apply Hf in E. now subst.
Qed.

Lemma find_map {A B} (f : B -> bool) (g : A -> B) (l : list A) :
  find f (map g l) = option_map g (find (fun x => f (g x)) l).
Proof.
  induction l as [|x l IH]; simpl; [reflexivity|].
  destruct (f (g x)); [reflexivity | exact IH].
Qed.

Lemma find_ext_In {A} (f g : A -> bool) (l : list A) :
  (forall x, In x l -> f x = g x) -> find f l = find g l.
Proof.
  induction l as [|x l IH]; simpl; [reflexivity|].
  intros H. rewrite (H x) by now left.
  destruct (g x); [reflexivity|]. apply IH. intros y Hy. apply H. now right.
Qed.

Lemma Map_get_In k p m : Map_get k m = Some p -> In (k, p) m.
Proof.
  unfold Map_get. destruct (find _ m) as [[k' p']|] eqn:F; simpl; [|discriminate].
  intros [= <-]. apply find_some in F. destruct F as [Hin E].
  simpl in E. apply String.eqb_eq in E. now subst.
Qed.

Lemma In_Map_get k p m : NoDup (map fst m) -> In (k, p) m -> Map_get k m = Some p.
Proof.
  unfold Map_get.
  induction m as [|[k' p'] m IH]; simpl; [intros _ []|].
  intros Hnd Hin. inversion Hnd as [|? ? Hn Hd]; subst.
  destruct Hin as [[= -> ->]|Hin].
  - now rewrite String.eqb_refl.
  - destruct (String.eqb_spec k' k) as [->|Hne].
    + exfalso. apply Hn. apply in_map_iff. now exists (k, p).
    + now apply IH.
Qed.

Lemma Map_has_get k m : Map_has k m = true -> exists p, Map_get k m = Some p.
Proof.
  unfold Map_has, Map_get.
  induction m as [|e m IH]; simpl; [discriminate|].
  destruct (String.eqb (fst e) k); simpl; eauto.
Qed.

Section ReplayAggregated.

Variable uuid : nat -> string.
Hypothesis uuid_inj : forall a b, uuid a = uuid b -> a = b.
Variable r : revision.
Variable n0 : nat.

Local Abbreviation AggInv := (AggInv uuid r n0).

Lemma AggInv_ids_NoDup es m n :
  AggInv es m n -> NoDup (map (fun e => id (snd e)) m).
Proof.
  intros Inv. rewrite (inv_ids Inv).
  apply NoDup_map_injective; [exact uuid_inj | apply seq_NoDup].
Qed.

Lemma idIn_inj es m n k1 k2 :
  AggInv es m n ->
  Map_has k1 m = true -> Map_has k2 m = true ->
  idIn m k1 = idIn m k2 -> k1 = k2.
Proof.
  intros Inv H1 H2. unfold idIn.
  destruct (Map_has_get _ _ H1) as [p1 G1], (Map_has_get _ _ H2) as [p2 G2].
  rewrite G1, G2. intros E.
  apply Map_get_In in G1, G2.
  assert (X : (k1, p1) = (k2, p2)).
  { eapply (NoDup_map_eq_In (fun e => id (snd e)));
      eauto using AggInv_ids_NoDup. }
  congruence.
Qed.

Lemma emit_aggregated es m n k p d :
  AggInv es m n ->
  In (k, p) m ->
  (forall e, In e d -> Map_has (fst e) m = true) ->
  emit (snapshotOf m d) (finish p) = (k, resolved r k d).
Proof.
  intros Inv Hin Hd.
  pose proof (proj1 (Forall_forall _ _) (inv_entries Inv) _ Hin) as Hok.
  unfold entryOk in Hok. simpl in Hok.
  assert (Hk : Map_has k m = true).
  { apply Map_has_In, in_map_iff. now exists (k, p). }
  assert (Hid : id p = idIn m k).
  { unfold idIn. now rewrite (In_Map_get _ _ _ (AggInv_NoDup _ _ _ _ _ _ Inv) Hin). }
  unfold emit, found, resolved, lookup, snapshotOf. simpl.
  rewrite find_map. simpl.
  rewrite (find_ext_In _ (fun e => String.eqb (fst e) k)).
  - rewrite Hok. simpl.
    destruct (find (fun e => String.eqb (fst e) k) d); reflexivity.
  - intros e He. rewrite Hid.
    destruct (String.eqb_spec (fst e) k) as [->|Hne].
    + apply String.eqb_refl.
    + apply String.eqb_neq. intros E. apply Hne.
      eapply idIn_inj; eauto.
Qed.

End ReplayAggregated.

(** ** The session after aggregation *)

Lemma selectFiles_spec uuid r files st0 :
  exists m,
    AggInv uuid r (drawn st0) (allEntries files) m (drawn st0 + List.length m)
    /\ selectFiles uuid r files st0
       = mkSession files
           (map (fun e => finish (snd e)) m)
           (map (fun f => snapshotOf m (currentObject f)) files)
           (newAddName st0)
           (drawn st0 + List.length m).
Proof.
  destruct (getProperties_spec uuid r (drawn st0) files []) as (m & Inv & E).
  exists m. split; [assumption|].
  unfold selectFiles, initializeView. simpl. now rewrite E.
Qed.

Lemma AggInv_keys uuid r n0 es m n :
  AggInv uuid r n0 es m n ->
  map key (map (fun e => finish (snd e)) m) = firstSeen (map fst es).
Proof.
  intros Inv. rewrite <- (inv_keys Inv), map_map.
  apply map_ext_in. intros e He.
  pose proof (proj1 (Forall_forall _ _) (inv_entries Inv) _ He) as Hok.
  unfold entryOk in Hok. rewrite Hok. reflexivity.
Qed.

Lemma In_allEntries e file files :
  In file files -> In e (currentObject file) -> In e (allEntries files).
Proof.
  intros Hf He. unfold allEntries. apply in_flat_map. eauto.
Qed.

Lemma AggInv_covers uuid r n0 files m n file :
  AggInv uuid r n0 (allEntries files) m n ->
  In file files ->
  forall e, In e (currentObject file) -> Map_has (fst e) m = true.
Proof.
  intros Inv Hf e He. apply Map_has_In. rewrite (inv_keys Inv).
  apply In_firstSeen, in_map. eapply In_allEntries; eassumption.
Qed.

Lemma replay_aggregated uuid r n0 files m n file :
  (forall a b, uuid a = uuid b -> a = b) ->
  AggInv uuid r n0 (allEntries files) m n ->
  In file files ->
  map (emit (snapshotOf m (currentObject file))) (map (fun e => finish (snd e)) m)
  = map (fun k => (k, resolved r k (currentObject file))) (unifiedKeys files).
Proof.
  intros Hinj Inv Hf. unfold unifiedKeys. rewrite <- (inv_keys Inv), !map_map.
  apply map_ext_in. intros [k p] Hin. simpl.
  eapply emit_aggregated; eauto using AggInv_covers.
Qed.

(** ** The callback of [processFrontMatter] *)

Lemma filter_twice {A} (f g : A -> bool) (l : list A) :
  filter f (filter g l) = filter (fun x => g x && f x) l.
Proof.
  induction l as [|x l IH]; simpl; [reflexivity|].
  destruct (g x); simpl; [|exact IH].
  destruct (f x); [now rewrite IH | exact IH].
Qed.

Lemma clear_all : forall (ks : list string) (o : obj),
  fold_left (fun o k => obj_delete k o) ks o
  = filter (fun e => negb (existsb (String.eqb (fst e)) ks)) o.
Proof.
  induction ks as [|k ks IH]; intros o; simpl.
  - symmetry. apply forallb_filter_id. now apply forallb_forall.
  - rewrite IH. unfold obj_delete. rewrite filter_twice.
    apply filter_ext. intros e.
    now destruct (String.eqb (fst e) k).
Qed.

Lemma clear_own_keys (o : obj) :
  fold_left (fun o k => obj_delete k o) (map fst o) o = [].
Proof.
  rewrite clear_all.
  assert (H : forall l : obj, (forall e, In e l -> In (fst e) (map fst o)) ->
              filter (fun e => negb (existsb (String.eqb (fst e)) (map fst o))) l = []).
  { induction l as [|e l IH]; simpl; [reflexivity|]. intros Hl.
    assert (E : existsb (String.eqb (fst e)) (map fst o) = true).
    { apply existsb_eqb_In, Hl. now left. }
    rewrite E. simpl. apply IH. intros e' He'. apply Hl. now right. }
  apply H. intros e He. now apply in_map.
Qed.

(** ** Own properties of an object *)

Lemma obj_insertIndex_named n k v (o named : obj) :
  Forall (fun e => arrayIndex (fst e) = None) named ->
  obj_insertIndex n k v (o ++ named) = obj_insertIndex n k v o ++ named.
Proof.
  intros Hn. induction o as [|[k' v'] o IH]; simpl.
  - destruct Hn as [|[k' v'] named E _]; [reflexivity|]. simpl in *. now rewrite E.
  - destruct (arrayIndex k') as [m|]; [|reflexivity].
    destruct (n <? m)%N; [reflexivity|]. now rewrite IH.
Qed.

Lemma obj_insertIndex_Permutation n k v (o : obj) :
  Permutation (obj_insertIndex n k v o) ((k, v) :: o).
Proof.
  induction o as [|[k' v'] o IH]; simpl; [reflexivity|].
  destruct (arrayIndex k') as [m|]; [|reflexivity].
  destruct (n <? m)%N; [reflexivity|].
  rewrite IH. apply perm_swap.
Qed.

Lemma indexPairs_snoc (pairs : obj) kv :
  indexPairs (pairs ++ [kv])
  = match arrayIndex (fst kv) with
    | Some n => obj_insertIndex n (fst kv) (snd kv) (indexPairs pairs)
    | None => indexPairs pairs
    end.
Proof. unfold indexPairs. now rewrite fold_left_app. Qed.

Lemma indexPairs_Permutation (pairs : obj) :
  Permutation (indexPairs pairs) (filter (fun kv => isArrayIndex (fst kv)) pairs).
Proof.
  induction pairs as [|kv pairs IH] using rev_ind; [reflexivity|].
  rewrite indexPairs_snoc, filter_app. simpl. unfold isArrayIndex at 2.
  destruct (arrayIndex (fst kv)) as [n|].
  - rewrite obj_insertIndex_Permutation, IH. destruct kv. simpl.
    apply Permutation_cons_append.
  - now rewrite app_nil_r.
Qed.

Lemma filter_split_Permutation {A} (f : A -> bool) (l : list A) :
  Permutation (filter f l ++ filter (fun x => negb (f x)) l) l.
Proof.
  induction l as [|x l IH]; simpl; [reflexivity|].
  destruct (f x); simpl.
  - now constructor.
  - rewrite <- Permutation_middle. now constructor.
Qed.

Lemma ownProperties_Permutation (pairs : obj) :
  Permutation (ownProperties pairs) (filter assignable pairs).
Proof.
  unfold ownProperties, namedPairs. rewrite indexPairs_Permutation.
  apply (filter_split_Permutation (fun kv => isArrayIndex (fst kv))).
Qed.

(** The pairs of the object are the assigned pairs not named [__proto__]. *)
Lemma In_ownProperties (pairs : obj) kv :
  In kv (ownProperties pairs) <-> In kv pairs /\ fst kv <> "__proto__".
Proof.
  transitivity (In kv (filter assignable pairs)).
  - split; apply Permutation_in;
      [|symmetry]; apply ownProperties_Permutation.
  - rewrite filter_In. unfold assignable.
    destruct (String.eqb_spec (fst kv) "__proto__"); simpl; intuition congruence.
Qed.

Lemma keys_ownProperties (pairs : obj) k :
  In k (map fst (ownProperties pairs)) -> In k (map fst pairs).
Proof.
  rewrite !in_map_iff. intros (kv & E & H). exists kv. split; [assumption|].
  now apply In_ownProperties in H.
Qed.

Lemma NoDup_keys_ownProperties (pairs : obj) :
  NoDup (map fst pairs) -> NoDup (map fst (ownProperties pairs)).
Proof.
  intros H.
  apply (Permutation_NoDup (l := map fst (filter assignable pairs))).
  - symmetry. apply Permutation_map, ownProperties_Permutation.
  - clear -H. induction pairs as [|kv pairs IH]; simpl; [constructor|].
    inversion H as [|? ? Hn Hd]; subst.
    destruct (assignable kv); simpl; [|now apply IH].
    constructor; [|now apply IH].
    intros Hin. apply Hn. apply in_map_iff in Hin. destruct Hin as (e & E & He).
    apply filter_In in He. apply in_map_iff. exists e. tauto.
Qed.

Lemma hasOwnProperty_false k (o : obj) :
  ~ In k (map fst o) -> hasOwnProperty k o = false.
Proof.
  intros H. unfold hasOwnProperty.
  destruct (existsb _ o) eqn:E; [|reflexivity].
  apply existsb_exists in E. destruct E as (e & He & Heq).
  apply String.eqb_eq in Heq. exfalso. apply H. rewrite <- Heq. now apply in_map.
Qed.

Lemma filter_snoc {A} (f : A -> bool) l x :
  filter f (l ++ [x]) = if f x then filter f l ++ [x] else filter f l.
Proof.
  rewrite filter_app. simpl. destruct (f x); [reflexivity | apply app_nil_r].
Qed.

(** Assigning pairs with pairwise distinct names to an empty object: the
    accessor is reached at most once, with the prototype still in place. *)
Lemma assign_all (pairs : obj) :
  NoDup (map fst pairs) ->
  exists p,
    fold_left (fun s kv => obj_set (fst kv) (snd kv) s) pairs ([], ObjectPrototype)
    = (ownProperties pairs, p)
    /\ (~ In "__proto__" (map fst pairs) -> p = ObjectPrototype).
Proof.
  induction pairs as [|[k v] pairs IH] using rev_ind.
  - intros _. exists ObjectPrototype. split; reflexivity.
  - intros Hnd. rewrite map_app in Hnd. simpl in Hnd.
    destruct IH as (p & E & Hp); [eapply NoDup_app_remove_r; eassumption|].
    rewrite fold_left_app, E. cbn [fold_left fst snd].
    assert (Hfresh : ~ In k (map fst pairs)).
    { apply NoDup_remove_2 in Hnd. now rewrite app_nil_r in Hnd. }
    assert (Hown : hasOwnProperty k (ownProperties pairs) = false).
    { apply hasOwnProperty_false. intros Hin. now apply keys_ownProperties in Hin. }
    assert (Eo : ownProperties (pairs ++ [(k, v)])
                 = if String.eqb k "__proto__" then ownProperties pairs
                   else indexPairs (filter assignable pairs ++ [(k, v)])
                        ++ namedPairs (filter assignable pairs ++ [(k, v)])).
    { unfold ownProperties. rewrite filter_snoc.
      replace (assignable (k, v)) with (negb (String.eqb k "__proto__")) by reflexivity.
      now destruct (String.eqb k "__proto__"). }
    rewrite Eo. clear Eo. unfold obj_set. rewrite Hown.
    destruct (String.eqb_spec k "__proto__") as [->|Hne]; cbn [andb negb].
    + rewrite (Hp Hfresh). cbn [reachesAccessor].
      destruct v; eexists; (split; [reflexivity|]);
        intros H; exfalso; apply H; rewrite map_app, in_app_iff; right; now left.
    + exists p. split.
      * f_equal. unfold obj_define. rewrite Hown.
        unfold ownProperties. rewrite indexPairs_snoc. unfold namedPairs.
        rewrite filter_snoc. simpl.
        replace (isArrayIndex k)
          with (match arrayIndex k with Some _ => true | None => false end)
          by reflexivity.
        destruct (arrayIndex k) as [n|]; simpl.
        -- apply obj_insertIndex_named. apply Forall_forall. intros e He.
           apply filter_In in He. destruct He as [_ He]. unfold isArrayIndex in He.
           now destruct (arrayIndex (fst e)).
        -- now rewrite app_assoc.
      * intros H. apply Hp. intros Hin. apply H.
        rewrite map_app, in_app_iff. now left.
Qed.

(** Without index names and [__proto__] the object lists the pairs as they were assigned. *)
Lemma ownProperties_named (pairs : obj) :
  (forall kv, In kv pairs -> arrayIndex (fst kv) = None /\ fst kv <> "__proto__") ->
  ownProperties pairs = pairs.
Proof.
  intros H.
  assert (E : filter assignable pairs = pairs).
  { apply forallb_filter_id, forallb_forall. intros kv Hin. unfold assignable.
    destruct (String.eqb_spec (fst kv) "__proto__"); [|reflexivity].
    now destruct (H kv Hin). }
  unfold ownProperties. rewrite E.
  assert (E1 : indexPairs pairs = []).
  { clear E. induction pairs as [|kv pairs IH] using rev_ind; [reflexivity|].
    rewrite indexPairs_snoc.
    destruct (H kv) as [-> _]; [apply in_or_app; right; now left|].
    apply IH. intros e He. apply H, in_or_app. now left. }
  rewrite E1. simpl. unfold namedPairs.
  apply forallb_filter_id, forallb_forall. intros kv Hin. unfold isArrayIndex.
  now destruct (H kv Hin) as [-> _].
Qed.

(** *** The index names come in ascending order *)

Lemma obj_insertIndex_sorted n k v (o : obj) :
  arrayIndex k = Some n -> IndexSorted o -> IndexSorted (obj_insertIndex n k v o).
Proof.
  intros Hk Hs. induction Hs as [|[k' v'] m o Hm Hall Hs IH]; simpl.
  - econstructor; [exact Hk | constructor | constructor].
  - simpl in Hm. rewrite Hm. destruct (N.ltb_spec n m) as [Hlt|Hge].
    + econstructor; [exact Hk | | econstructor; eassumption].
      constructor.
      * exists m. split; [assumption | lia].
      * eapply Forall_impl; [|exact Hall]. intros e (m' & E & Hle).
        exists m'. split; [assumption | lia].
    + econstructor; [exact Hm | | exact IH].
      eapply Permutation_Forall.
      * symmetry. apply obj_insertIndex_Permutation.
      * constructor; [|assumption]. exists n. split; [assumption | lia].
Qed.

Lemma indexPairs_sorted (pairs : obj) : IndexSorted (indexPairs pairs).
Proof.
  induction pairs as [|kv pairs IH] using rev_ind; [constructor|].
  rewrite indexPairs_snoc. destruct (arrayIndex (fst kv)) as [n|] eqn:E; [|exact IH].
  now apply obj_insertIndex_sorted.
Qed.

Lemma obj_insertIndex_least n k v (o : obj) :
  Forall (fun e => exists m, arrayIndex (fst e) = Some m /\ (n < m)%N) o ->
  obj_insertIndex n k v o = (k, v) :: o.
Proof.
  intros H. destruct H as [|[k' v'] o (m & E & Hlt) _]; [reflexivity|].
  simpl in *. rewrite E. destruct (N.ltb_spec n m); [reflexivity | lia].
Qed.

Lemma filter_insertIndex (p : string * any -> bool) n k v (o : obj) :
  IndexSorted o ->
  filter p (obj_insertIndex n k v o)
  = if p (k, v) then obj_insertIndex n k v (filter p o) else filter p o.
Proof.
  intros Hs. induction Hs as [|[k' v'] m o Hm Hall Hs IH].
  - simpl. now destruct (p (k, v)).
  - simpl in Hm. cbn [obj_insertIndex]. rewrite Hm.
    destruct (N.ltb_spec n m) as [Hlt|Hge].
    + cbn [filter]. destruct (p (k, v)); [|reflexivity].
      symmetry. apply obj_insertIndex_least.
      assert (Hall' : Forall (fun e => exists m0, arrayIndex (fst e) = Some m0 /\ (n < m0)%N)
                        ((k', v') :: o)).
      { constructor.
        - exists m. split; [assumption | lia].
        - eapply Forall_impl; [|exact Hall]. intros e (m' & E & Hle).
          exists m'. split; [assumption | lia]. }
      apply Forall_forall. intros e He.
      apply (proj1 (Forall_forall _ _) Hall' e).
      change (In e (filter p ((k', v') :: o))) in He.
      apply filter_In in He. tauto.
    + cbn [filter]. rewrite IH. destruct (p (k', v')) eqn:Ep.
      * destruct (p (k, v)); [|reflexivity].
        cbn [obj_insertIndex]. rewrite Hm.
        destruct (N.ltb_spec n m); [lia | reflexivity].
      * reflexivity.
Qed.

Lemma indexPairs_filter (p : string * any -> bool) (pairs : obj) :
  indexPairs (filter p pairs) = filter p (indexPairs pairs).
Proof.
  induction pairs as [|kv pairs IH] using rev_ind; [reflexivity|].
  rewrite filter_snoc, indexPairs_snoc.
  destruct (arrayIndex (fst kv)) as [n|] eqn:E.
  - rewrite filter_insertIndex by apply indexPairs_sorted.
    rewrite <- surjective_pairing.
    destruct (p kv); [|exact IH].
    now rewrite indexPairs_snoc, E, IH.
  - destruct (p kv); [|exact IH]. now rewrite indexPairs_snoc, E.
Qed.

Lemma filter_comm {A} (f g : A -> bool) (l : list A) :
  filter f (filter g l) = filter g (filter f l).
Proof.
  induction l as [|x l IH]; simpl; [reflexivity|].
  destruct (f x) eqn:Ef, (g x) eqn:Eg; simpl; rewrite ?Ef, ?Eg, IH; reflexivity.
Qed.

(** Leaving pairs out before the assignments or deleting them from the
    object afterwards gives the same object. *)
Lemma ownProperties_filter (p : string * any -> bool) (pairs : obj) :
  ownProperties (filter p pairs) = filter p (ownProperties pairs).
Proof.
  unfold ownProperties, namedPairs.
  rewrite filter_app, <- indexPairs_filter, (filter_comm assignable p).
  f_equal. apply filter_comm.
Qed.

Lemma ownProperties_delete k (pairs : obj) :
  ownProperties (obj_delete k pairs) = obj_delete k (ownProperties pairs).
Proof. apply ownProperties_filter. Qed.

(** The index names of the object come first and are ascending; the
    other names follow in the order of the assignments. *)
Lemma ownProperties_order (pairs : obj) :
  IndexSorted (indexPairs (filter assignable pairs))
  /\ namedPairs (filter assignable pairs)
     = filter (fun kv => negb (isArrayIndex (fst kv)) && assignable kv) pairs.
Proof.
  split; [apply indexPairs_sorted|].
  unfold namedPairs. rewrite (filter_comm _ assignable).
  induction pairs as [|kv pairs IH]; simpl; [reflexivity|].
  destruct (negb (isArrayIndex (fst kv))); simpl; [|exact IH].
  destruct (assignable kv); [now rewrite IH | exact IH].
Qed.

(** ** The callback of [processFrontMatter], continued *)

Lemma writeCallback_from snap : forall props (s : obj * prototype),
  fold_left
    (fun acc prop =>
       match acc, emitAt (Some snap) prop with
       | Some o, Some (k, v) => Some (obj_set k v o)
       | _, _ => None
       end)
    props (Some s)
  = Some (fold_left (fun s kv => obj_set (fst kv) (snd kv) s)
            (map (emit snap) props) s).
Proof.
  induction props as [|p props IH]; intros s; simpl; [reflexivity|].
  apply IH.
Qed.

Lemma keys_emit snap props : map fst (map (emit snap) props) = map key props.
Proof. rewrite map_map. reflexivity. Qed.

Lemma writeCallback_NoDup props snap fm :
  NoDup (map key props) ->
  writeCallback props (Some snap) fm = Some (ownProperties (map (emit snap) props)).
Proof.
  intros Hnd. unfold writeCallback. rewrite clear_own_keys, writeCallback_from.
  destruct (assign_all (map (emit snap) props)) as (p & E & _);
    [now rewrite keys_emit|].
  cbn [option_map]. f_equal. exact (f_equal fst E).
Qed.

Lemma batchWriteFrom_aligned props :
  NoDup (map key props) ->
  forall files snaps pre,
    List.length snaps = List.length files ->
    batchWriteFrom props (pre ++ snaps) (List.length pre) files
    = (map (fun snap => ownProperties (map (emit snap) props)) snaps, true).
Proof.
  intros Hnd. induction files as [|file files IH]; intros snaps pre Hlen.
  - destruct snaps; [reflexivity | discriminate].
  - destruct snaps as [|snap snaps]; [discriminate|]. simpl.
    rewrite nth_error_app2, Nat.sub_diag by lia. simpl.
    rewrite writeCallback_NoDup by assumption.
    specialize (IH snaps (pre ++ [snap])).
    rewrite <- app_assoc, length_app in IH. simpl in IH.
    rewrite Nat.add_1_r in IH. rewrite IH by (simpl in Hlen; lia).
    reflexivity.
Qed.

(** The names that are array indices are listed first, [__proto__] is not
    written, and a name like [01] is no index. *)
Example own_property_order :
  batchWriteFrontmatter
    (applyEdits uuid_demo MainTs [Add "10"; Add "__proto__"; Add "2"; Add "01"]
       (selectFiles uuid_demo MainTs [mkTFile (Some [("b", VNum 1)]) ""] session0))
  = ([[("2", VNull); ("10", VNull); ("b", VNum 1); ("01", VNull)]], true).
Proof. reflexivity. Qed.

(** ** Loops that stop at the first exception *)

Lemma untilThrow_all {A} (l : list A) : untilThrow (map Some l) = (l, true).
Proof. induction l as [|a l IH]; simpl; [reflexivity | now rewrite IH]. Qed.

Lemma batchWriteFrom_steps props lists : forall files i,
  batchWriteFrom props lists i files
  = untilThrow
      (map (fun jf => writeCallback props (nth_error lists (fst jf))
                        (currentObject (snd jf)))
         (combine (seq i (List.length files)) files)).
Proof.
  induction files as [|file files IH]; intros i; simpl; [reflexivity|].
  destruct (writeCallback props (nth_error lists i) (currentObject file));
    [|reflexivity].
  now rewrite IH.
Qed.

(** ** Type labels *)

Lemma aggregated_type uuid r n0 es m n p :
  AggInv uuid r n0 es m n ->
  In p (map (fun e => finish (snd e)) m) ->
  type p = JS.join " | " (typesOf (key p) es).
Proof.
  intros Inv Hin. apply in_map_iff in Hin. destruct Hin as (e & <- & He).
  pose proof (proj1 (Forall_forall _ _) (inv_entries Inv) _ He) as Hok.
  unfold entryOk in Hok. rewrite Hok. reflexivity.
Qed.

Lemma valuesOf_single k v d :
  NoDup (map fst d) -> lookup k d = Some v -> valuesOf k d = [v].
Proof.
  unfold lookup, valuesOf.
  induction d as [|[k' v'] d IH]; simpl; [discriminate|].
  intros Hnd. inversion Hnd as [|? ? Hn Hd]; subst.
  destruct (String.eqb_spec k' k) as [->|Hne]; simpl.
  - intros [= ->]. f_equal.
    fold (valuesOf k d). now apply valuesOf_absent.
  - now apply IH.
Qed.

Lemma getPropertyType_range v :
  In (getPropertyType v)
     ["Null"; "List"; "Checkbox"; "Number"; "Date"; "Date & time"; "Text"].
Proof.
  destruct v; simpl; auto 10.
  destruct (JS.test_date s); [auto 10|].
  destruct (JS.test_datetime s); auto 10.
Qed.

Lemma getPropertyType_date s : DateString s -> getPropertyType (VStr s) = "Date".
Proof. intros H. apply test_date_spec in H. simpl. now rewrite H. Qed.

Lemma getPropertyType_datetime s :
  DateTimeString s -> getPropertyType (VStr s) = "Date & time".
Proof.
  intros H. simpl.
  destruct (JS.test_date s) eqn:E.
  - apply test_date_spec, DateString_length in E.
    apply DateTimeString_length in H. congruence.
  - apply test_datetime_spec in H. now rewrite H.
Qed.

Lemma getPropertyType_text s :
  ~ DateString s -> ~ DateTimeString s -> getPropertyType (VStr s) = "Text".
Proof.
  intros H1 H2. simpl.
  destruct (JS.test_date s) eqn:E1; [now apply test_date_spec in E1|].
  destruct (JS.test_datetime s) eqn:E2; [now apply test_datetime_spec in E2|].
  reflexivity.
Qed.

(** C5, as worded: a string of the shape YYYY-MM-DD HH:MM is labelled
    "Date & Time".  The source spells the label "Date & time". *)
Lemma C5_label_spelling_counterexample :
  DateTimeString "2024-01-01 10:30"
  /\ getPropertyType (VStr "2024-01-01 10:30") <> "Date & Time".
Proof.
  split.
  - apply test_datetime_spec. reflexivity.
  - simpl. discriminate.
Qed.

(** C5, amended: every value gets exactly one of the labels Null, List,
    Checkbox, Number, Date, Date & time, Text -- null or undefined gives
    Null, an array List, a boolean Checkbox, a number Number, a string of
    the shape YYYY-MM-DD Date, a string of the shape YYYY-MM-DD HH:MM and a
    native date Date & time, anything else Text -- and the label of a
    unified property is the distinct labels of the values its key has in
    the documents, in order of first appearance, joined with " | "; a key
    that is a number in the first document and a text in the second is
    labelled "Number | Text". *)
Theorem C5_type_labels :
  (forall v,
     In (getPropertyType v)
        ["Null"; "List"; "Checkbox"; "Number"; "Date"; "Date & time"; "Text"])
  /\ getPropertyType VNull = "Null"
  /\ getPropertyType VUndefined = "Null"
  /\ (forall items, getPropertyType (VList items) = "List")
  /\ (forall b, getPropertyType (VBool b) = "Checkbox")
  /\ (forall n, getPropertyType (VNum n) = "Number")
  /\ (forall s, DateString s -> getPropertyType (VStr s) = "Date")
  /\ (forall s, DateTimeString s -> getPropertyType (VStr s) = "Date & time")
  /\ (forall t, getPropertyType (VDate t) = "Date & time")
  /\ (forall s, ~ DateString s -> ~ DateTimeString s ->
                getPropertyType (VStr s) = "Text")
  /\ (forall fields, getPropertyType (VObj fields) = "Text")
  /\ (forall uuid r files st0 p,
        In p (propertyList (selectFiles uuid r files st0)) ->
        type p
        = JS.join " | "
            (firstSeen (map getPropertyType (valuesOf (key p) (allEntries files)))))
  /\ (forall uuid r st0 k d1 d2 v1 v2 c1 c2,
        NoDup (map fst d1) -> NoDup (map fst d2) ->
        lookup k d1 = Some v1 -> getPropertyType v1 = "Number" ->
        lookup k d2 = Some v2 -> getPropertyType v2 = "Text" ->
        exists p,
          In p (propertyList
                  (selectFiles uuid r [mkTFile (Some d1) c1; mkTFile (Some d2) c2] st0))
          /\ key p = k /\ type p = "Number | Text").
Proof.
  assert (Hlabel : forall uuid r files st0 p,
        In p (propertyList (selectFiles uuid r files st0)) ->
        type p
        = JS.join " | "
            (firstSeen (map getPropertyType (valuesOf (key p) (allEntries files))))).
  { intros uuid r files st0 p Hin.
    destruct (selectFiles_spec uuid r files st0) as (m & Inv & E).
    rewrite E in Hin. simpl in Hin.
    apply (aggregated_type _ _ _ _ _ _ _ Inv Hin). }
  repeat match goal with |- _ /\ _ => split end; try reflexivity.
  - apply getPropertyType_range.
  - apply getPropertyType_date.
  - apply getPropertyType_datetime.
  - apply getPropertyType_text.
  - exact Hlabel.
  - intros uuid r st0 k d1 d2 v1 v2 c1 c2 Hn1 Hn2 L1 T1 L2 T2.
    set (files := [mkTFile (Some d1) c1; mkTFile (Some d2) c2]).
    destruct (selectFiles_spec uuid r files st0) as (m & Inv & E).
    assert (Hk : In k (map key (propertyList (selectFiles uuid r files st0)))).
    { rewrite E. simpl. rewrite (AggInv_keys _ _ _ _ _ _ Inv).
      apply In_firstSeen. unfold files, allEntries. simpl.
      rewrite map_app. apply in_or_app. left.
      unfold lookup in L1. destruct (find _ d1) as [e|] eqn:F; [|discriminate].
      apply find_some in F. destruct F as [Hin Ek].
      apply String.eqb_eq in Ek. subst k. now apply in_map. }
    apply in_map_iff in Hk. destruct Hk as (p & Hkey & Hin).
    exists p. split; [assumption|]. split; [assumption|].
    rewrite (Hlabel _ _ _ _ _ Hin), Hkey.
    replace (allEntries files) with (d1 ++ d2)
      by (unfold files, allEntries; simpl; now rewrite app_nil_r).
    rewrite valuesOf_app.
    rewrite (valuesOf_single _ _ _ Hn1 L1), (valuesOf_single _ _ _ Hn2 L2).
    simpl. rewrite T1, T2. reflexivity.
Qed.

Lemma C5_type_labels_witness :
  getPropertyType (VStr "2024-01-01") = "Date"
  /\ exists p,
       In p (propertyList
               (selectFiles uuid_demo MainTs
                  [mkTFile (Some [("K", VNum 7)]) "a";
                   mkTFile (Some [("K", VStr "seven")]) "b"] session0))
       /\ key p = "K" /\ type p = "Number | Text".
Proof.
  split.
  - apply (proj1 (proj2 (proj2 (proj2 (proj2 (proj2 (proj2 C5_type_labels))))))).
    apply test_date_spec. reflexivity.
  - apply (proj2 (proj2 (proj2 (proj2 (proj2 (proj2 (proj2 (proj2 (proj2
             (proj2 (proj2 (proj2 C5_type_labels))))))))))))
      with (v1 := VNum 7) (v2 := VStr "seven").
    + repeat constructor; simpl; intuition.
    + repeat constructor; simpl; intuition.
    + reflexivity.
    + reflexivity.
    + reflexivity.
    + reflexivity.
Defined.

(** ** Identity of keys, and renaming *)

Lemma snapshotOf_id m d fm : In fm (snapshotOf m d) -> id fm = idIn m (key fm).
Proof.
  unfold snapshotOf. rewrite in_map_iff. intros (e & <- & _). reflexivity.
Qed.

Lemma aggregated_id uuid r n0 es m n p :
  AggInv uuid r n0 es m n ->
  In p (map (fun e => finish (snd e)) m) ->
  id p = idIn m (key p).
Proof.
  intros Inv Hin. apply in_map_iff in Hin. destruct Hin as ([k q] & <- & He).
  pose proof (proj1 (Forall_forall _ _) (inv_entries Inv) _ He) as Hok.
  unfold entryOk in Hok. simpl in Hok.
  assert (Hk : key q = k) by (rewrite Hok; reflexivity).
  unfold idIn, finish. simpl. rewrite Hk.
  now rewrite (In_Map_get _ _ _ (AggInv_NoDup _ _ _ _ _ _ Inv) He).
Qed.

Lemma setKeyAt_same : forall l idx name e,
  nth_error l idx = Some e ->
  nth_error (setKeyAt idx name l) idx = Some (renamed name e).
Proof.
  induction l as [|p l IH]; intros [|idx] name e; simpl; try discriminate.
  - now intros [= ->].
  - apply IH.
Qed.

Lemma setKeyAt_other : forall l idx name j,
  j <> idx -> nth_error (setKeyAt idx name l) j = nth_error l j.
Proof.
  induction l as [|p l IH]; intros [|idx] name [|j] H; simpl; try reflexivity.
  - contradiction.
  - apply IH. congruence.
Qed.

Lemma setKeyAt_length : forall l idx name,
  List.length (setKeyAt idx name l) = List.length l.
Proof.
  induction l as [|p l IH]; intros [|idx] name; simpl; auto.
Qed.

Lemma setKeyAt_ids : forall l idx name,
  map id (setKeyAt idx name l) = map id l.
Proof.
  induction l as [|p l IH]; intros [|idx] name; simpl; auto.
  now rewrite IH.
Qed.

Lemma setKeyAt_values snap : forall l idx name,
  map snd (map (emit snap) (setKeyAt idx name l)) = map snd (map (emit snap) l).
Proof.
  induction l as [|p l IH]; intros [|idx] name; cbn [setKeyAt map]; auto.
  - f_equal. unfold emit, found. simpl.
    now destruct (find _ snap).
  - f_equal. apply IH.
Qed.

Lemma renameProperty_valid idx name st e :
  nth_error (propertyList st) idx = Some e ->
  ~ In (key e) internalpropertyList ->
  name <> "" ->
  ~ In name (map key (propertyList st)) ->
  renameProperty idx name st
  = withPropertyList (setKeyAt idx name (propertyList st)) st.
Proof.
  intros He Hint Hname Hfresh. unfold renameProperty. rewrite He.
  apply existsb_eqb_notIn in Hint. rewrite Hint.
  apply String.eqb_neq in Hname. rewrite Hname. simpl.
  assert (X : existsb (fun p => String.eqb (key p) name) (propertyList st) = false).
  { apply not_true_iff_false. rewrite existsb_exists.
    intros (p & Hp & E). apply String.eqb_eq in E. apply Hfresh.
    rewrite <- E. now apply in_map. }
  now rewrite X.
Qed.

(** C2: aggregation gives one identifier to a key name wherever it occurs,
    the unified list has one entry per distinct key name in first-seen
    order, and a rename changes the key name of its entry only, so that
    every document is replayed under the new name with the value it had. *)
Theorem C2_identity_stability :
  (forall uuid r files st0,
     let st := selectFiles uuid r files st0 in
     (forall s1 s2 fm1 fm2,
        In s1 (frontmatterLists st) -> In s2 (frontmatterLists st) ->
        In fm1 s1 -> In fm2 s2 ->
        key fm1 = key fm2 -> id fm1 = id fm2)
     /\ (forall s fm p,
           In s (frontmatterLists st) -> In fm s -> In p (propertyList st) ->
           key p = key fm -> id p = id fm)
     /\ map key (propertyList st) = firstSeen (map fst (allEntries files))
     /\ NoDup (map key (propertyList st))
     /\ (forall k, In k (map key (propertyList st))
                   <-> exists file v, In file files /\ In (k, v) (currentObject file)))
  /\ (forall idx name st e,
        nth_error (propertyList st) idx = Some e ->
        ~ In (key e) internalpropertyList ->
        name <> "" ->
        ~ In name (map key (propertyList st)) ->
        let st' := renameProperty idx name st in
        nth_error (propertyList st') idx
        = Some (mkProperty (id e) name (value e) (type e) (types e))
        /\ (forall j, j <> idx ->
                      nth_error (propertyList st') j = nth_error (propertyList st) j)
        /\ List.length (propertyList st') = List.length (propertyList st)
        /\ map id (propertyList st') = map id (propertyList st)
        /\ frontmatterLists st' = frontmatterLists st
        /\ (forall snap,
              In snap (frontmatterLists st) ->
              nth_error (map (emit snap) (propertyList st')) idx
              = Some (name, snd (emit snap e))
              /\ map snd (map (emit snap) (propertyList st'))
                 = map snd (map (emit snap) (propertyList st)))).
Proof.
  split.
  - intros uuid r files st0 st.
    destruct (selectFiles_spec uuid r files st0) as (m & Inv & E).
    subst st. rewrite E. simpl.
    assert (Hsnap : forall s fm,
              In s (map (fun f => snapshotOf m (currentObject f)) files) ->
              In fm s -> id fm = idIn m (key fm)).
    { intros s fm Hs Hfm. apply in_map_iff in Hs. destruct Hs as (f & <- & _).
      eapply snapshotOf_id; eassumption. }
    split; [|split; [|split; [|split]]].
    + intros s1 s2 fm1 fm2 H1 H2 F1 F2 Ek.
      rewrite (Hsnap _ _ H1 F1), (Hsnap _ _ H2 F2). now rewrite Ek.
    + intros s fm p Hs Hfm Hp Ek.
      rewrite (Hsnap _ _ Hs Hfm), (aggregated_id _ _ _ _ _ _ _ Inv Hp).
      now rewrite Ek.
    + apply (AggInv_keys _ _ _ _ _ _ Inv).
    + rewrite (AggInv_keys _ _ _ _ _ _ Inv). apply NoDup_firstSeen.
    + intros k. rewrite (AggInv_keys _ _ _ _ _ _ Inv), In_firstSeen.
      unfold allEntries. rewrite in_map_iff. split.
      * intros ([k' v] & <- & Hin). apply in_flat_map in Hin.
        destruct Hin as (file & Hf & He). exists file, v. auto.
      * intros (file & v & Hf & He). exists (k, v). split; [reflexivity|].
        apply in_flat_map. eauto.
  - intros idx name st e He Hint Hname Hfresh st'. subst st'.
    rewrite (renameProperty_valid _ _ _ _ He Hint Hname Hfresh). simpl.
    split; [|split; [|split; [|split; [|split]]]].
    + apply (setKeyAt_same _ _ _ _ He).
    + intros j Hj. now apply setKeyAt_other.
    + apply setKeyAt_length.
    + apply setKeyAt_ids.
    + reflexivity.
    + intros snap _. split; [|apply setKeyAt_values].
      rewrite nth_error_map, (setKeyAt_same _ _ _ _ He).
      unfold emit, found. simpl. now destruct (find _ snap).
Qed.

Lemma C2_identity_stability_witness :
  let st := selectFiles uuid_demo MainTs
              [mkTFile (Some [("Title", VStr "A"); ("Year", VNum 1999)]) "a";
               mkTFile (Some [("Year", VNum 2001)]) "b"] session0 in
  nth_error (propertyList (renameProperty 1 "Released" st)) 1
  = Some (mkProperty (uuid_demo 1) "Released" VNull "Number" None).
Proof.
  intros st.
  refine (proj1 (proj2 C2_identity_stability 1 "Released" st
                   (mkProperty (uuid_demo 1) "Year" VNull "Number" None) _ _ _ _)).
  - reflexivity.
  - simpl. intuition discriminate.
  - discriminate.
  - simpl. intuition discriminate.
Defined.

(** ** Replay *)

Lemma mapM_map {A B C} (f : B -> option C) (g : A -> B) (l : list A) :
  mapM f (map g l) = mapM (fun x => f (g x)) l.
Proof.
  induction l as [|x l IH]; simpl; [reflexivity|]. now rewrite IH.
Qed.

Lemma mapM_ext {A B} (f g : A -> option B) (l : list A) :
  (forall x, f x = g x) -> mapM f l = mapM g l.
Proof.
  intros H. induction l as [|x l IH]; simpl; [reflexivity|].
  now rewrite H, IH.
Qed.

Lemma rewriteFile_pairs dts props snap text :
  rewriteFile dts props (Some snap) text
  = option_map (fun renderList => (frontmatterText renderList ++ keptBody text)%string)
      (mapM (renderPair dts) (map (emit snap) props)).
Proof.
  unfold rewriteFile. rewrite mapM_map.
  rewrite (mapM_ext (renderLine dts (Some snap))
             (fun x => renderPair dts (emit snap x))).
  - destruct (mapM _ props); reflexivity.
  - intros p. reflexivity.
Qed.

(** The loop of [updateMarkdownFiles]: the files are rewritten in order,
    file [i + j] against [lists[i + j]], up to the first one that throws. *)
Lemma updateFrom_steps dts props lists : forall files i,
  updateFrom dts props lists i files
  = untilThrow
      (map (fun jf => rewriteFile dts props (nth_error lists (fst jf))
                        (content (snd jf)))
         (combine (seq i (List.length files)) files)).
Proof.
  induction files as [|file files IH]; intros i; simpl; [reflexivity|].
  destruct (rewriteFile dts props (nth_error lists i) (content file));
    [|reflexivity].
  now rewrite IH.
Qed.

Lemma updateFrom_spec dts props lists : forall files i written ok,
  updateFrom dts props lists i files = (written, ok) ->
  (forall j, j < List.length written ->
     exists file,
       nth_error files j = Some file
       /\ rewriteFile dts props (nth_error lists (i + j)) (content file)
          = nth_error written j)
  /\ (if ok then List.length written = List.length files
      else exists file,
          nth_error files (List.length written) = Some file
          /\ rewriteFile dts props (nth_error lists (i + List.length written))
               (content file) = None).
Proof.
  induction files as [|file files IH]; intros i written ok; simpl.
  - intros [= <- <-]. simpl. split; [intros j Hj; lia | reflexivity].
  - destruct (rewriteFile dts props (nth_error lists i) (content file))
      as [text|] eqn:R.
    + destruct (updateFrom dts props lists (S i) files) as [w o] eqn:U.
      intros [= <- <-]. destruct (IH _ _ _ U) as [Hw Hok]. split.
      * intros [|j] Hj; simpl.
        -- exists file. now rewrite Nat.add_0_r.
        -- simpl in Hj. destruct (Hw j) as (f & Hf & Hr); [lia|].
           exists f. split; [assumption|].
           now rewrite Nat.add_succ_r.
      * destruct o; simpl.
        -- now rewrite Hok.
        -- destruct Hok as (f & Hf & Hr). exists f. split; [assumption|].
           now rewrite Nat.add_succ_r.
    + intros [= <- <-]. simpl. split; [intros j Hj; lia|].
      exists file. now rewrite Nat.add_0_r.
Qed.

(** *** Identifiers of added properties are new *)

Lemma applyEdit_frontmatterLists uuid r e st :
  frontmatterLists (applyEdit uuid r e st) = frontmatterLists st.
Proof.
  destruct e as [name|idx|idx name|i d]; simpl.
  - unfold addNewProperty. simpl.
    now destruct (negb _ && negb _).
  - reflexivity.
  - unfold renameProperty.
    destruct (nth_error (propertyList st) idx); [|reflexivity].
    destruct (existsb _ internalpropertyList); [reflexivity|].
    now destruct (negb _ && negb _).
  - unfold onDrop. destruct (String.eqb i ""); [reflexivity|].
    destruct (negb _ && negb _ && negb _); [|reflexivity].
    now destruct (nth_error _ _).
Qed.

Lemma applyEdit_fileList uuid r e st :
  fileList (applyEdit uuid r e st) = fileList st.
Proof.
  destruct e as [name|idx|idx name|i d]; simpl.
  - unfold addNewProperty. simpl.
    now destruct (negb _ && negb _).
  - reflexivity.
  - unfold renameProperty.
    destruct (nth_error (propertyList st) idx); [|reflexivity].
    destruct (existsb _ internalpropertyList); [reflexivity|].
    now destruct (negb _ && negb _).
  - unfold onDrop. destruct (String.eqb i ""); [reflexivity|].
    destruct (negb _ && negb _ && negb _); [|reflexivity].
    now destruct (nth_error _ _).
Qed.

Lemma applyEdit_drawn uuid r e st : drawn st <= drawn (applyEdit uuid r e st).
Proof.
  destruct e as [name|idx|idx name|i d]; simpl.
  - unfold addNewProperty. simpl.
    destruct (negb _ && negb _); simpl; lia.
  - lia.
  - unfold renameProperty.
    destruct (nth_error (propertyList st) idx); [|lia].
    destruct (existsb _ internalpropertyList); [lia|].
    destruct (negb _ && negb _); simpl; lia.
  - unfold onDrop. destruct (String.eqb i ""); [lia|].
    destruct (negb _ && negb _ && negb _); [|lia].
    destruct (nth_error _ _); simpl; lia.
Qed.

Lemma applyEdits_frontmatterLists uuid r edits : forall st,
  frontmatterLists (applyEdits uuid r edits st) = frontmatterLists st.
Proof.
  unfold applyEdits. induction edits as [|e edits IH]; intros st; simpl;
    [reflexivity|].
  now rewrite IH, applyEdit_frontmatterLists.
Qed.

Lemma applyEdits_fileList uuid r edits : forall st,
  fileList (applyEdits uuid r edits st) = fileList st.
Proof.
  unfold applyEdits. induction edits as [|e edits IH]; intros st; simpl;
    [reflexivity|].
  now rewrite IH, applyEdit_fileList.
Qed.

Lemma applyEdits_drawn uuid r edits : forall st,
  drawn st <= drawn (applyEdits uuid r edits st).
Proof.
  unfold applyEdits. induction edits as [|e edits IH]; intros st; simpl; [lia|].
  specialize (IH (applyEdit uuid r e st)).
  pose proof (applyEdit_drawn uuid r e st). lia.
Qed.

Lemma DrawnIds_selectFiles uuid r files st0 :
  DrawnIds uuid (selectFiles uuid r files st0).
Proof.
  destruct (selectFiles_spec uuid r files st0) as (m & Inv & E).
  rewrite E. intros snap fm Hs Hfm. simpl in *.
  apply in_map_iff in Hs. destruct Hs as (file & <- & Hfile).
  unfold snapshotOf in Hfm. apply in_map_iff in Hfm.
  destruct Hfm as (e & <- & He).
  pose proof (AggInv_covers _ _ _ _ _ _ _ Inv Hfile e He) as Hhas.
  destruct (Map_has_get _ _ Hhas) as [p G].
  assert (Hid : idIn m (fst e) = id p) by (unfold idIn; now rewrite G).
  apply Map_get_In in G.
  assert (Hp : In (id p) (map (fun e => id (snd e)) m)).
  { apply in_map_iff. now exists (fst e, p). }
  rewrite (inv_ids Inv) in Hp. apply in_map_iff in Hp.
  destruct Hp as (j & Ej & Hj). apply in_seq in Hj.
  exists j. simpl. split; [lia | congruence].
Qed.

Lemma DrawnIds_applyEdits uuid r edits st :
  DrawnIds uuid st -> DrawnIds uuid (applyEdits uuid r edits st).
Proof.
  intros H snap fm Hs Hfm. rewrite applyEdits_frontmatterLists in Hs.
  destruct (H snap fm Hs Hfm) as (j & Hj & E).
  exists j. split; [|assumption].
  pose proof (applyEdits_drawn uuid r edits st). lia.
Qed.

Lemma found_absent snap prop :
  (forall fm, In fm snap -> id fm <> id prop) -> found snap prop = prop.
Proof.
  intros H. unfold found.
  destruct (find _ snap) as [fm|] eqn:F; [|reflexivity].
  apply find_some in F. destruct F as [Hin E].
  apply String.eqb_eq in E. exfalso. now apply (H fm).
Qed.

Lemma addNewProperty_valid uuid r name st :
  JS.trim name <> "" ->
  ~ In (JS.trim name) (map key (propertyList st)) ->
  applyEdit uuid r (Add name) st
  = mkSession (fileList st)
      (propertyList st
         ++ [mkProperty (uuid (drawn st)) (JS.trim name) (placeholder r)
               (addedType r) None])
      (frontmatterLists st) "" (S (drawn st)).
Proof.
  intros Hne Hfresh. simpl. unfold addNewProperty. simpl.
  apply String.eqb_neq in Hne. rewrite Hne. simpl.
  assert (X : existsb (fun p => String.eqb (key p) (JS.trim name)) (propertyList st)
              = false).
  { apply not_true_iff_false. rewrite existsb_exists.
    intros (p & Hp & E). apply String.eqb_eq in E. apply Hfresh.
    rewrite <- E. now apply in_map. }
  now rewrite X.
Qed.

Lemma uuid_demo_inj : forall a b, uuid_demo a = uuid_demo b -> a = b.
Proof.
  induction a as [|a IH]; intros [|b]; simpl; intros E; try reflexivity.
  - destruct b; discriminate.
  - destruct a; discriminate.
  - f_equal. apply IH. now injection E.
Qed.

(** ** Values [updateMarkdownFiles] can write *)

Lemma opensPlain_not_link s : opensPlain s -> JS.test_wikiLink s = false.
Proof.
  destruct s as [|c r]; simpl; [reflexivity|].
  intros E. unfold JS.test_wikiLink. simpl. now rewrite E.
Qed.

Lemma decimal_opensPlain x : opensPlain (JS.decimal x).
Proof.
  unfold JS.decimal. destruct (Z.to_int x) as [d|d]; destruct d; simpl; auto.
Qed.

Lemma printDouble_opensPlain x : opensPlain (JS.printDouble x).
Proof.
  unfold JS.printDouble. cbv zeta.
  destruct (_ <=? 21)%Z; [apply decimal_opensPlain|].
  pose proof (decimal_opensPlain
                (JS.stripZeros (Z.to_nat (JS.digitCount (JS.shortestFrom 17 1 x)))
                   (JS.shortestFrom 17 1 x))) as H.
  destruct (JS.decimal _); [reflexivity | exact H].
Qed.

Lemma number_not_link n : JS.test_wikiLink (JS.numberToString n) = false.
Proof.
  apply opensPlain_not_link. unfold JS.numberToString. cbv zeta.
  destruct (n <? 0)%Z.
  - reflexivity.
  - destruct (JS.nearestDouble n); [apply printDouble_opensPlain | reflexivity].
Qed.

Example toString_cases :
  map (toString (fun _ => "date"))
    [VNum 1999; VNum (-5); VNum (2 ^ 64); VNum (10 ^ 21); VNum (2 ^ 1024);
     VObj [("a", VNull)]; VObj [("toString", VStr "x")];
     VList [VNum 1; VNull; VList [VStr "a"; VStr "b"]; VUndefined];
     VList [VObj [("toString", VNull)]]]
  = [Some "1999"; Some "-5"; Some "18446744073709552000"; Some "1e+21";
     Some "Infinity"; Some "[object Object]"; None; Some "1,,a,b,"; None].
Proof. reflexivity. Qed.

(** An object with a property named [toString] can be written neither as
    a value nor as an element of an array. *)
Example unprintable_object :
  stringifyValue (fun _ => "") (VList [VObj [("toString", VStr "x")]]) = None
  /\ renderPair (fun _ => "") ("k", VObj [("toString", VStr "x")]) = None
  /\ renderPair (fun _ => "") ("k", VObj [("a", VStr "x")])
     = Some "k: [object Object]".
Proof. repeat split. Qed.

Lemma stringifyItem_plain dts v :
  plainItem v = true -> stringifyItem dts v = Some (itemEntry dts v).
Proof.
  destruct v as [| |b|n|s|items|t|fields]; intros H; try discriminate;
    unfold stringifyItem, itemEntry, textOf; cbn [toString].
  - reflexivity.
  - reflexivity.
  - now destruct b.
  - now rewrite number_not_link.
  - now destruct (JS.test_wikiLink s).
  - simpl in H. unfold printable in H. apply negb_true_iff in H. now rewrite H.
Qed.

Lemma mapM_total {A B} (f : A -> option B) (g : A -> B) (l : list A) :
  (forall x, In x l -> f x = Some (g x)) -> mapM f l = Some (map g l).
Proof.
  induction l as [|x l IH]; intros H; simpl; [reflexivity|].
  rewrite (H x) by now left. rewrite IH; [reflexivity|].
  intros y Hy. apply H. now right.
Qed.

Lemma stringifyValue_plain dts v :
  plainValue v = true -> stringifyValue dts v = Some (stringified dts v).
Proof.
  destruct v as [| |b|n|s|items|t|fields]; intros H; try reflexivity.
  simpl in H. unfold stringifyValue, stringified.
  rewrite (mapM_total (stringifyItem dts) (itemEntry dts)); [reflexivity|].
  intros x Hx. apply stringifyItem_plain.
  rewrite forallb_forall in H. now apply H.
Qed.

(** What [stringifyValue] returns for a plain value can be converted to a
    string. *)
Lemma toString_stringified dts v :
  plainValue v = true ->
  toString dts (stringified dts v) = Some (textOf dts (stringified dts v)).
Proof.
  destruct v as [| |b|n|s|items|t|fields]; intros H; unfold textOf;
    try reflexivity.
  - now destruct b.
  - simpl in H. unfold printable in H. apply negb_true_iff in H.
    simpl. now rewrite H.
Qed.

Lemma found_In snap prop : In (found snap prop) snap \/ found snap prop = prop.
Proof.
  unfold found. destruct (find _ snap) as [fm|] eqn:F; [left | now right].
  apply find_some in F. tauto.
Qed.

Lemma renderLine_plain dts snap prop :
  plainValue (value (found snap prop)) = true ->
  renderLine dts (Some snap) prop = Some (plainLine dts (emit snap prop)).
Proof.
  intros H. unfold renderLine, emitAt, emit, plainLine.
  rewrite (stringifyValue_plain dts _ H), (toString_stringified dts _ H).
  reflexivity.
Qed.

Lemma rewriteFile_plain dts props snap text :
  Forall (fun p => plainValue (value p) = true) props ->
  Forall (fun fm => plainValue (value fm) = true) snap ->
  rewriteFile dts props (Some snap) text
  = Some (frontmatterText (map (plainLine dts) (map (emit snap) props))
          ++ keptBody text)%string.
Proof.
  intros Hp Hs. unfold rewriteFile.
  rewrite (mapM_total (renderLine dts (Some snap))
             (fun prop => plainLine dts (emit snap prop))).
  - rewrite map_map. unfold frontmatterText, keptBody. reflexivity.
  - intros prop Hin. apply renderLine_plain.
    destruct (found_In snap prop) as [H|H].
    + rewrite Forall_forall in Hs. now apply Hs.
    + rewrite H. rewrite Forall_forall in Hp. now apply Hp.
Qed.

Lemma updateFrom_plain dts props :
  Forall (fun p => plainValue (value p) = true) props ->
  forall files snaps pre,
    List.length snaps = List.length files ->
    Forall (Forall (fun fm => plainValue (value fm) = true)) snaps ->
    updateFrom dts props (pre ++ snaps) (List.length pre) files
    = (map (fun fs =>
              (frontmatterText (map (plainLine dts) (map (emit (snd fs)) props))
               ++ keptBody (content (fst fs)))%string)
         (combine files snaps),
       true).
Proof.
  intros Hp. induction files as [|file files IH]; intros snaps pre Hlen Hs.
  - reflexivity.
  - destruct snaps as [|snap snaps]; [discriminate|].
    inversion Hs as [|? ? Hsnap Hrest]; subst.
    cbn [updateFrom]. rewrite nth_error_app2, Nat.sub_diag by lia. cbn [nth_error].
    rewrite (rewriteFile_plain dts props snap (content file) Hp Hsnap).
    specialize (IH snaps (pre ++ [snap])).
    rewrite <- app_assoc, length_app in IH. simpl in IH. rewrite Nat.add_1_r in IH.
    rewrite IH; [reflexivity | simpl in Hlen; lia | assumption].
Qed.

(** ** The emission rule *)

(** C1, as worded: an Add carries a default, and every document is replayed
    the added key with it, as in Add("Score", default="0").  The Add of the
    source takes a name only; the new entry holds the placeholder of the
    revision, and that is what every document is replayed. *)
Lemma C1_add_default_counterexample :
  updateMarkdownFiles (fun _ => "")
    (applyEdit uuid_demo Part001 (Add "Score")
       (selectFiles uuid_demo Part001 [plainNote; titledNote] session0))
  = ([("---" ++ JS.LF ++ "Title: " ++ JS.LF ++ "Score: " ++ JS.LF
         ++ "---" ++ JS.LF)%string;
      ("---" ++ JS.LF ++ "Title: A" ++ JS.LF ++ "Score: " ++ JS.LF
         ++ "---" ++ JS.LF ++ "Body")%string],
     true)
  /\ ~ AddEmitsDefault uuid_demo Part001 "Score" (VStr "0")
        (selectFiles uuid_demo Part001 [plainNote; titledNote] session0).
Proof.
  split; [reflexivity|]. intros H.
  specialize (H [] (or_introl eq_refl)). simpl in H.
  destruct H as [H|[H|[]]]; discriminate.
Qed.

(** C1, amended: for a document and its snapshot, replay computes one pair
    per entry of the working list, in the order of the list, under the
    entry's current key name and with the value of the snapshot entry that
    has the entry's identifier, or the entry's own value when there is
    none; no other key is emitted.  [updateMarkdownFiles] rewrites the
    files in their order, file [i] against snapshot [i], each to the text
    rendered from these pairs followed by the kept body, up to the first
    file with a value that cannot be written; with one snapshot per file
    and plain values it rewrites every file.  An entry created by Add
    holds the placeholder of the revision (Add takes a name and no
    default) and its identifier is in no snapshot, so every document is
    replayed the added key with the placeholder. *)
Theorem C1_replay_emission_rule :
  (forall snap props,
     List.length (map (emit snap) props) = List.length props
     /\ map fst (map (emit snap) props) = map key props
     /\ (forall j e,
           nth_error props j = Some e ->
           nth_error (map (emit snap) props) j
           = Some (key e,
                   match find (fun fm => String.eqb (id fm) (id e)) snap with
                   | Some fm => value fm
                   | None => value e
                   end)))
  /\ (forall snap e,
        (forall fm, In fm snap -> id fm <> id e) ->
        emit snap e = (key e, value e))
  /\ (forall dts props snap text,
        rewriteFile dts props (Some snap) text
        = option_map
            (fun renderList => (frontmatterText renderList ++ keptBody text)%string)
            (mapM (renderPair dts) (map (emit snap) props)))
  /\ (forall dts st,
        updateMarkdownFiles dts st
        = untilThrow
            (map (fun jf =>
                    rewriteFile dts (propertyList st)
                      (nth_error (frontmatterLists st) (fst jf))
                      (content (snd jf)))
               (indexed (fileList st))))
  /\ (forall dts st,
        List.length (frontmatterLists st) = List.length (fileList st) ->
        Forall (fun p => plainValue (value p) = true) (propertyList st) ->
        Forall (Forall (fun fm => plainValue (value fm) = true)) (frontmatterLists st) ->
        updateMarkdownFiles dts st
        = (map (fun fs =>
                  (frontmatterText
                     (map (plainLine dts) (map (emit (snd fs)) (propertyList st)))
                   ++ keptBody (content (fst fs)))%string)
             (combine (fileList st) (frontmatterLists st)),
           true))
  /\ (forall uuid,
        (forall a b, uuid a = uuid b -> a = b) ->
        forall r files st0 edits name,
          let st := applyEdits uuid r edits (selectFiles uuid r files st0) in
          JS.trim name <> "" ->
          ~ In (JS.trim name) (map key (propertyList st)) ->
          let st' := applyEdit uuid r (Add name) st in
          forall snap,
            In snap (frontmatterLists st') ->
            map (emit snap) (propertyList st')
            = map (emit snap) (propertyList st) ++ [(JS.trim name, placeholder r)]).
Proof.
  split; [|split; [|split; [|split; [|split]]]].
  - intros snap props. split; [apply length_map|]. split.
    + rewrite map_map. reflexivity.
    + intros j e He. rewrite nth_error_map, He. simpl.
      unfold emit, found. now destruct (find _ snap).
  - intros snap e H. unfold emit. now rewrite found_absent.
  - apply rewriteFile_pairs.
  - intros dts st. apply updateFrom_steps.
  - intros dts st Hlen Hp Hs. unfold updateMarkdownFiles.
    apply (updateFrom_plain dts _ Hp (fileList st) (frontmatterLists st) [] Hlen Hs).
  - intros uuid Hinj r files st0 edits name st Hne Hfresh st' snap Hs.
    subst st'. rewrite (addNewProperty_valid uuid r name st Hne Hfresh) in *.
    simpl in *. rewrite map_app. simpl. f_equal. f_equal.
    unfold emit. rewrite found_absent; [reflexivity|].
    intros fm Hfm. simpl.
    assert (D : DrawnIds uuid st).
    { apply DrawnIds_applyEdits, DrawnIds_selectFiles. }
    destruct (D snap fm Hs Hfm) as (j & Hj & ->).
    intros E. apply Hinj in E. lia.
Qed.

Lemma C1_replay_emission_rule_witness :
  updateMarkdownFiles (fun _ => "")
    (applyEdit uuid_demo Part001 (Add " Score ")
       (selectFiles uuid_demo Part001 [plainNote; titledNote] session0))
  = ([("---" ++ JS.LF ++ "Title: " ++ JS.LF ++ "Score: " ++ JS.LF
         ++ "---" ++ JS.LF)%string;
      ("---" ++ JS.LF ++ "Title: A" ++ JS.LF ++ "Score: " ++ JS.LF
         ++ "---" ++ JS.LF ++ "Body")%string],
     true).
Proof.
  refine (proj1 (proj2 (proj2 (proj2 (proj2 C1_replay_emission_rule))))
            (fun _ => ""%string)
            (applyEdit uuid_demo Part001 (Add " Score ")
               (selectFiles uuid_demo Part001 [plainNote; titledNote] session0))
            _ _ _).
  - reflexivity.
  - repeat constructor.
  - repeat constructor.
Defined.

(** ** Round trip *)

Lemma lookup_In k v d : lookup k d = Some v -> In (k, v) d.
Proof.
  unfold lookup. destruct (find _ d) as [[k' v']|] eqn:F; simpl; [|discriminate].
  intros [= <-]. apply find_some in F. destruct F as [Hin E].
  simpl in E. apply String.eqb_eq in E. now subst.
Qed.

Lemma In_lookup k v d : NoDup (map fst d) -> In (k, v) d -> lookup k d = Some v.
Proof.
  unfold lookup.
  induction d as [|[k' v'] d IH]; simpl; [intros _ []|].
  intros Hnd Hin. inversion Hnd as [|? ? Hn Hd]; subst.
  destruct Hin as [[= -> ->]|Hin].
  - now rewrite String.eqb_refl.
  - destruct (String.eqb_spec k' k) as [->|Hne].
    + exfalso. apply Hn. apply in_map_iff. now exists (k, v).
    + now apply IH.
Qed.

Lemma lookup_None k d : lookup k d = None <-> ~ In k (map fst d).
Proof.
  unfold lookup. induction d as [|[k' v'] d IH]; simpl; [tauto|].
  destruct (String.eqb_spec k' k) as [->|Hne]; simpl.
  - split; [discriminate | intros H; exfalso; auto].
  - rewrite IH. tauto.
Qed.

(** The session after aggregation, replayed by either revision: the pairs
    of each document, and the objects [batchWriteFrontmatter] writes. *)
Lemma replay_selectFiles uuid r files st0 :
  (forall a b, uuid a = uuid b -> a = b) ->
  let st := selectFiles uuid r files st0 in
  map (fun snap => map (emit snap) (propertyList st)) (frontmatterLists st)
  = map (fun file =>
           map (fun k => (k, resolved r k (currentObject file))) (unifiedKeys files))
      files
  /\ batchWriteFrontmatter st
     = (map (fun file =>
               ownProperties
                 (map (fun k => (k, resolved r k (currentObject file)))
                    (unifiedKeys files)))
          files, true).
Proof.
  intros Hinj st. subst st.
  destruct (selectFiles_spec uuid r files st0) as (m & Inv & E).
  rewrite E. unfold batchWriteFrontmatter. simpl.
  assert (P : map (fun snap => map (emit snap) (map (fun e => finish (snd e)) m))
                (map (fun f => snapshotOf m (currentObject f)) files)
              = map (fun file =>
                       map (fun k => (k, resolved r k (currentObject file)))
                         (unifiedKeys files)) files).
  { rewrite map_map. apply map_ext_in. intros file Hf.
    eapply replay_aggregated; eassumption. }
  split; [exact P|].
  pose proof (batchWriteFrom_aligned (map (fun e => finish (snd e)) m)) as B.
  specialize (B ltac:(rewrite (AggInv_keys _ _ _ _ _ _ Inv); apply NoDup_firstSeen)
                files (map (fun f => snapshotOf m (currentObject f)) files) []).
  simpl in B. rewrite B by apply length_map.
  rewrite <- (map_map (fun snap => map (emit snap) (map (fun e => finish (snd e)) m))
                ownProperties), P.
  now rewrite map_map.
Qed.

(** C3, as worded: with no edit, replay writes to each document exactly its
    own pairs.  A document lacking a key of the unified list is written
    that key as well. *)
Lemma C3_roundtrip_counterexample :
  batchWriteFrontmatter (selectFiles uuid_demo MainTs [fileA; fileB] session0)
  = ([[("a", VNum 1); ("b", VNull)]; [("a", VNull); ("b", VNum 2)]], true)
  /\ ~ ExactRoundTrip uuid_demo [fileA; fileB].
Proof.
  split; [reflexivity|]. intros H.
  specialize (H session0 0 fileA [("a", VNum 1); ("b", VNull)] eq_refl eq_refl).
  apply Permutation_length in H. discriminate.
Qed.

(** C3, amended: aggregating, editing nothing and replaying writes to each
    document the object that results from assigning, to an empty object
    and in unified first-seen order, one pair per key of the unified list:
    the document's own value, unaltered, for a key it has, the placeholder
    for a key it lacks.  The object has one property per key of the
    unified list other than [__proto__], which creates none; its
    array-index names come first, ascending, and its other names follow in
    unified first-seen order.  So every original pair not named
    [__proto__] is written, and every written pair is an original one or a
    placeholder for a key the document lacked; when no key is an array
    index or [__proto__], the written names are the unified list in its
    order. *)
Theorem C3_roundtrip_with_placeholders :
  forall uuid,
    (forall a b, uuid a = uuid b -> a = b) ->
    forall files st0,
      (forall file, In file files -> NoDup (map fst (currentObject file))) ->
      let st := selectFiles uuid MainTs files st0 in
      let assigned file :=
        map (fun k => (k, resolved MainTs k (currentObject file))) (unifiedKeys files) in
      batchWriteFrontmatter st = (map (fun file => ownProperties (assigned file)) files, true)
      /\ (forall i file,
            nth_error files i = Some file ->
            exists o,
              nth_error (fst (batchWriteFrontmatter st)) i = Some o
              /\ NoDup (map fst o)
              /\ (forall k, In k (map fst o)
                            <-> In k (unifiedKeys files) /\ k <> "__proto__")
              /\ (exists indices named,
                     o = indices ++ named
                     /\ IndexSorted indices
                     /\ map fst named
                        = filter (fun k => negb (isArrayIndex k)
                                           && negb (String.eqb k "__proto__"))
                            (unifiedKeys files))
              /\ (forall k v,
                    In (k, v) (currentObject file) -> k <> "__proto__" -> In (k, v) o)
              /\ (forall k v,
                    In (k, v) o ->
                    In (k, v) (currentObject file)
                    \/ (v = VNull /\ ~ In k (map fst (currentObject file)))))
      /\ ((forall k, In k (unifiedKeys files) ->
                     arrayIndex k = None /\ k <> "__proto__") ->
          batchWriteFrontmatter st = (map assigned files, true)).
Proof.
  intros uuid Hinj files st0 Hobj st assigned.
  destruct (replay_selectFiles uuid MainTs files st0 Hinj) as [_ B].
  fold st in B. fold assigned in B.
  assert (Hkeys : forall file, map fst (assigned file) = unifiedKeys files).
  { intros file. unfold assigned. rewrite map_map. apply map_id. }
  assert (Hin : forall file k v,
             In (k, v) (assigned file)
             <-> In k (unifiedKeys files) /\ v = resolved MainTs k (currentObject file)).
  { intros file k v. unfold assigned. rewrite in_map_iff. split.
    - intros (k' & [= -> <-] & H). now split.
    - intros [H ->]. now exists k. }
  split; [exact B|]. split.
  - intros i file Hi. rewrite B. simpl.
    exists (ownProperties (assigned file)).
    split; [now rewrite nth_error_map, Hi|].
    pose proof (nth_error_In _ _ Hi) as Hf.
    split; [|split; [|split; [|split]]].
    + apply NoDup_keys_ownProperties. rewrite Hkeys. apply NoDup_firstSeen.
    + intros k. rewrite in_map_iff. split.
      * intros ([k' v] & E & H). simpl in E. subst k'.
        apply In_ownProperties in H. simpl in H. destruct H as [H Hp].
        apply Hin in H. tauto.
      * intros [H Hp]. exists (k, resolved MainTs k (currentObject file)).
        split; [reflexivity|]. apply In_ownProperties. split; [|exact Hp].
        now apply Hin.
    + exists (indexPairs (filter assignable (assigned file))),
             (namedPairs (filter assignable (assigned file))).
      split; [reflexivity|].
      destruct (ownProperties_order (assigned file)) as [Hs Hn].
      split; [exact Hs|]. rewrite Hn. unfold assigned.
      generalize (unifiedKeys files). intros ks.
      induction ks as [|k ks IH]; simpl; [reflexivity|].
      unfold assignable at 1. simpl.
      destruct (negb (isArrayIndex k) && negb (String.eqb k "__proto__"));
        simpl; now rewrite IH.
    + intros k v Hkv Hp. apply In_ownProperties. split; [|exact Hp].
      apply Hin. split.
      * unfold unifiedKeys. apply In_firstSeen.
        apply (in_map fst) in Hkv. simpl in Hkv.
        unfold allEntries. rewrite in_map_iff in *.
        destruct Hkv as (e & Ee & He). exists e. split; [assumption|].
        apply in_flat_map. eauto.
      * unfold resolved. now rewrite (In_lookup _ _ _ (Hobj _ Hf) Hkv).
    + intros k v Hkv. apply In_ownProperties in Hkv. destruct Hkv as [Hkv _].
      apply Hin in Hkv. destruct Hkv as [_ ->].
      unfold resolved. destruct (lookup k (currentObject file)) as [v|] eqn:L.
      * left. now apply lookup_In.
      * right. split; [reflexivity | now apply lookup_None].
  - intros Hnamed. rewrite B. f_equal. apply map_ext. intros file.
    apply ownProperties_named. intros [k v] Hkv. simpl.
    apply Hnamed. now apply Hin in Hkv.
Qed.

Lemma C3_roundtrip_with_placeholders_witness :
  batchWriteFrontmatter (selectFiles uuid_demo MainTs [fileA; fileB] session0)
  = ([[("a", VNum 1); ("b", VNull)]; [("a", VNull); ("b", VNum 2)]], true).
Proof.
  refine (proj1 (C3_roundtrip_with_placeholders uuid_demo uuid_demo_inj
                   [fileA; fileB] session0 _)).
  intros file [<-|[<-|[]]]; simpl; repeat constructor; simpl; tauto.
Defined.

(** ** No leakage between documents *)

Lemma allEntries_keys files :
  map fst (allEntries files) = List.concat (keysPerFile files).
Proof.
  unfold allEntries, keysPerFile.
  induction files as [|f files IH]; simpl; [reflexivity|].
  now rewrite map_app, IH.
Qed.

Lemma unifiedKeys_same_keys files files' :
  keysPerFile files' = keysPerFile files -> unifiedKeys files' = unifiedKeys files.
Proof.
  intros H. unfold unifiedKeys. now rewrite !allEntries_keys, H.
Qed.

(** What replay gives document [i] after aggregation. *)
Lemma replay_document uuid r files st0 i file :
  (forall a b, uuid a = uuid b -> a = b) ->
  nth_error files i = Some file ->
  let st := selectFiles uuid r files st0 in
  exists snap,
    nth_error (frontmatterLists st) i = Some snap
    /\ map (emit snap) (propertyList st)
       = map (fun k => (k, resolved r k (currentObject file))) (unifiedKeys files).
Proof.
  intros Hinj Hi st.
  destruct (replay_selectFiles uuid r files st0 Hinj) as [P _]. fold st in P.
  apply (f_equal (fun l => nth_error l i)) in P.
  rewrite !nth_error_map, Hi in P. simpl in P.
  destruct (nth_error (frontmatterLists st) i) as [snap|]; [|discriminate].
  exists snap. split; [reflexivity|]. now injection P.
Qed.

(** C4, as worded: the value replayed for X into a document lacking X never
    equals another document's value for X.  It does when that other value
    is the placeholder itself. *)
Lemma C4_never_equal_counterexample :
  batchWriteFrontmatter (selectFiles uuid_demo MainTs [fileX; fileY] session0)
  = ([[("X", VNull); ("Y", VNull)]; [("X", VNull); ("Y", VNum 2)]], true)
  /\ ~ NeverAnothersValue uuid_demo [fileX; fileY].
Proof.
  split; [reflexivity|]. intros H.
  apply (H session0 0 1 fileX fileY "X" VNull [("X", VNull); ("Y", VNum 2)]);
    reflexivity.
Qed.

(** C4, amended: with no edit, a document that maps X to [v] is replayed X
    with [v], and a document that lacks X is replayed X with the
    placeholder; what a document is replayed depends on the other
    documents through their key names only, so changing another document's
    value for X changes nothing in it. *)
Theorem C4_no_cross_document_leakage :
  forall uuid,
    (forall a b, uuid a = uuid b -> a = b) ->
    forall r files st0 a b A B X v,
      nth_error files a = Some A ->
      nth_error files b = Some B ->
      lookup X (currentObject A) = Some v ->
      lookup X (currentObject B) = None ->
      let st := selectFiles uuid r files st0 in
      exists snapA snapB,
        nth_error (frontmatterLists st) a = Some snapA
        /\ nth_error (frontmatterLists st) b = Some snapB
        /\ In (X, v) (map (emit snapA) (propertyList st))
        /\ In (X, placeholder r) (map (emit snapB) (propertyList st))
        /\ (forall files' st0',
              keysPerFile files' = keysPerFile files ->
              nth_error files' b = Some B ->
              let st' := selectFiles uuid r files' st0' in
              exists snapB',
                nth_error (frontmatterLists st') b = Some snapB'
                /\ map (emit snapB') (propertyList st')
                   = map (emit snapB) (propertyList st)
                /\ (forall dts,
                      rewriteFile dts (propertyList st') (Some snapB') (content B)
                      = rewriteFile dts (propertyList st) (Some snapB) (content B))
                /\ (r = MainTs ->
                    nth_error (fst (batchWriteFrontmatter st')) b
                    = nth_error (fst (batchWriteFrontmatter st)) b)).
Proof.
  intros uuid Hinj r files st0 a b A B X v Ha Hb LA LB st.
  destruct (replay_document uuid r files st0 a A Hinj Ha) as (snapA & SA & PA).
  destruct (replay_document uuid r files st0 b B Hinj Hb) as (snapB & SB & PB).
  fold st in SA, SB, PA, PB.
  assert (HX : In X (unifiedKeys files)).
  { unfold unifiedKeys. apply In_firstSeen.
    apply lookup_In in LA. apply (in_map fst) in LA. simpl in LA.
    rewrite in_map_iff in *. destruct LA as (e & Ee & He).
    exists e. split; [assumption|].
    apply (In_allEntries e A files); [eapply nth_error_In; exact Ha | exact He]. }
  exists snapA, snapB. split; [assumption|]. split; [assumption|].
  split; [|split].
  - rewrite PA. apply in_map_iff. exists X. split; [|assumption].
    unfold resolved. now rewrite LA.
  - rewrite PB. apply in_map_iff. exists X. split; [|assumption].
    unfold resolved. now rewrite LB.
  - intros files' st0' Hkeys Hb' st'.
    destruct (replay_document uuid r files' st0' b B Hinj Hb') as (snapB' & SB' & PB').
    fold st' in SB', PB'.
    assert (E : map (emit snapB') (propertyList st')
                = map (emit snapB) (propertyList st)).
    { rewrite PB', PB. now rewrite (unifiedKeys_same_keys _ _ Hkeys). }
    exists snapB'. split; [assumption|]. split; [assumption|]. split.
    + intros dts. now rewrite !rewriteFile_pairs, E.
    + intros ->.
      destruct (replay_selectFiles uuid MainTs files st0 Hinj) as [_ W].
      destruct (replay_selectFiles uuid MainTs files' st0' Hinj) as [_ W'].
      fold st in W. fold st' in W'. rewrite W, W'. simpl.
      rewrite !nth_error_map, Hb, Hb'. simpl.
      now rewrite (unifiedKeys_same_keys _ _ Hkeys).
Qed.

Lemma C4_no_cross_document_leakage_witness :
  let files := [mkTFile (Some [("X", VNum 1)]) "A"; fileY] in
  let st := selectFiles uuid_demo MainTs files session0 in
  exists snapA snapB,
    nth_error (frontmatterLists st) 0 = Some snapA
    /\ nth_error (frontmatterLists st) 1 = Some snapB
    /\ In ("X", VNum 1) (map (emit snapA) (propertyList st))
    /\ In ("X", VNull) (map (emit snapB) (propertyList st)).
Proof.
  intros files st.
  destruct (C4_no_cross_document_leakage uuid_demo uuid_demo_inj MainTs files
              session0 0 1 (mkTFile (Some [("X", VNum 1)]) "A") fileY "X" (VNum 1)
              eq_refl eq_refl eq_refl eq_refl)
    as (snapA & snapB & HA & HB & IA & IB & _).
  exists snapA, snapB. auto.
Defined.

(** ** Edits keep key names distinct *)

Lemma existsb_key_In name (l : list Property) :
  existsb (fun p => String.eqb (key p) name) l = true <-> In name (map key l).
Proof.
  rewrite existsb_exists, in_map_iff. split.
  - intros (p & Hp & E). apply String.eqb_eq in E. eauto.
  - intros (p & E & Hp). exists p. split; [assumption | now apply String.eqb_eq].
Qed.

Lemma In_removeAt {A} (x : A) : forall l i, In x (removeAt i l) -> In x l.
Proof.
  unfold removeAt. intros l i H. apply in_app_or in H. destruct H as [H|H].
  - rewrite <- (firstn_skipn i l). apply in_or_app. now left.
  - rewrite <- (firstn_skipn (S i) l). apply in_or_app. now right.
Qed.

Lemma removeAt_cons {A} (x : A) l i : removeAt (S i) (x :: l) = x :: removeAt i l.
Proof. reflexivity. Qed.

Lemma map_removeAt {A B} (f : A -> B) l i : map f (removeAt i l) = removeAt i (map f l).
Proof.
  unfold removeAt. now rewrite map_app, firstn_map, skipn_map.
Qed.

Lemma NoDup_removeAt {A} : forall (l : list A) i, NoDup l -> NoDup (removeAt i l).
Proof.
  induction l as [|x l IH]; intros [|i] H.
  - constructor.
  - constructor.
  - unfold removeAt. simpl. now inversion H.
  - rewrite removeAt_cons. inversion H as [|? ? Hn Hd]; subst.
    constructor; [|now apply IH].
    intros Hin. apply Hn. now apply In_removeAt in Hin.
Qed.

Lemma In_setKeyAt_keys k : forall l idx name,
  In k (map key (setKeyAt idx name l)) -> k = name \/ In k (map key l).
Proof.
  induction l as [|p l IH]; intros idx name H.
  - destruct idx; simpl in H; contradiction.
  - destruct idx as [|idx]; simpl in H; destruct H as [H|H].
    + left. now symmetry.
    + right. now right.
    + right. now left.
    + destruct (IH _ _ H) as [E|E]; [now left | right; now right].
Qed.

Lemma NoDup_setKeyAt : forall l idx name,
  NoDup (map key l) -> ~ In name (map key l) -> NoDup (map key (setKeyAt idx name l)).
Proof.
  induction l as [|p l IH]; intros idx name Hnd Hfresh.
  - destruct idx; constructor.
  - simpl in Hnd, Hfresh. inversion Hnd as [|? ? Hn Hd]; subst.
    destruct idx as [|idx]; simpl; constructor.
    + intros Hin. apply Hfresh. now right.
    + assumption.
    + intros Hin. apply In_setKeyAt_keys in Hin.
      destruct Hin as [E|Hin]; [|contradiction].
      apply Hfresh. now left.
    + apply IH; [assumption|]. intros Hin. apply Hfresh. now right.
Qed.

(** *** Reordering *)

Lemma findIndex_found {A} (p : A -> bool) : forall l,
  existsb p l = true ->
  exists d item,
    findIndex p l = Z.of_nat d /\ nth_error l d = Some item /\ p item = true.
Proof.
  induction l as [|x l IH]; simpl; [discriminate|].
  destruct (p x) eqn:Px; simpl.
  - intros _. exists 0, x. auto.
  - intros H. destruct (IH H) as (d & item & E & Hn & Hp).
    exists (S d), item. rewrite E.
    replace (Z.of_nat d <? 0)%Z with false by (symmetry; apply Z.ltb_ge; lia).
    split; [lia | auto].
Qed.

Lemma insertAt_cons {A} (x item : A) l i :
  insertAt (S i) item (x :: l) = x :: insertAt i item l.
Proof. reflexivity. Qed.

Lemma nth_error_insertAt {A} : forall (l : list A) d item,
  nth_error l d = Some item -> l = insertAt d item (removeAt d l).
Proof.
  induction l as [|x l IH]; intros [|d] item H; simpl in H; try discriminate.
  - injection H as ->. reflexivity.
  - rewrite removeAt_cons, insertAt_cons. f_equal. now apply IH.
Qed.

Lemma insertAt_Permutation {A} (item : A) l i :
  Permutation (item :: l) (insertAt i item l).
Proof.
  unfold insertAt. rewrite <- (firstn_skipn i l) at 1.
  apply Permutation_middle.
Qed.

Lemma withPropertyList_same st : withPropertyList (propertyList st) st = st.
Proof. now destruct st. Qed.

Lemma onDrop_spec draggedId dropIndex st :
  In draggedId (map id (propertyList st)) ->
  exists item d p,
    id item = draggedId
    /\ nth_error (propertyList st) d = Some item
    /\ onDrop draggedId dropIndex st
       = withPropertyList (insertAt p item (removeAt d (propertyList st))) st.
Proof.
  intros Hin.
  assert (Hex : existsb (fun p => String.eqb (id p) draggedId) (propertyList st) = true).
  { apply existsb_exists. apply in_map_iff in Hin. destruct Hin as (q & E & Hq).
    exists q. split; [assumption | now apply String.eqb_eq]. }
  destruct (findIndex_found _ _ Hex) as (d & item & F & Hn & Hp).
  apply String.eqb_eq in Hp.
  assert (Keep : st = withPropertyList
                        (insertAt d item (removeAt d (propertyList st))) st).
  { rewrite <- (nth_error_insertAt _ _ _ Hn). symmetry. apply withPropertyList_same. }
  unfold onDrop. rewrite F.
  destruct (String.eqb draggedId "");
    [exists item, d, d; split; [|split]; assumption|].
  destruct (negb (Z.of_nat d =? -1)%Z && negb (dropIndex =? -1)%Z
            && negb (Z.of_nat d =? dropIndex)%Z);
    [|exists item, d, d; split; [|split]; assumption].
  assert (Hd : spliceStart (List.length (propertyList st)) (Z.of_nat d) = d).
  { unfold spliceStart.
    replace (Z.of_nat d <? 0)%Z with false by (symmetry; apply Z.ltb_ge; lia).
    rewrite Nat2Z.id. apply Nat.min_l.
    apply Nat.lt_le_incl, nth_error_Some. congruence. }
  rewrite Hd, Hn.
  exists item, d,
    (spliceStart (List.length (removeAt d (propertyList st))) dropIndex).
  split; [|split]; auto.
Qed.

Lemma onDrop_Permutation draggedId dropIndex st :
  In draggedId (map id (propertyList st)) ->
  Permutation (propertyList st) (propertyList (onDrop draggedId dropIndex st)).
Proof.
  intros Hin.
  destruct (onDrop_spec draggedId dropIndex st Hin) as (item & d & p & Hid & Hn & E).
  rewrite E. simpl. rewrite (nth_error_insertAt _ _ _ Hn) at 1.
  etransitivity; [symmetry; apply insertAt_Permutation | apply insertAt_Permutation].
Qed.

(** C7: a reorder of an identifier that is in the working list permutes the
    list -- the dragged entry is taken out and put back, whole, and the
    others keep their order -- touches no snapshot, and replay before and
    after gives every document the same pairs up to order. *)
Theorem C7_reorder_permutation :
  forall draggedId dropIndex st,
    In draggedId (map id (propertyList st)) ->
    let l := propertyList st in
    let l' := propertyList (onDrop draggedId dropIndex st) in
    Permutation l l'
    /\ (exists item rest d p,
          id item = draggedId
          /\ l = insertAt d item rest
          /\ l' = insertAt p item rest)
    /\ frontmatterLists (onDrop draggedId dropIndex st) = frontmatterLists st
    /\ (forall snap, Permutation (map (emit snap) l) (map (emit snap) l')).
Proof.
  intros draggedId dropIndex st Hin l l'.
  destruct (onDrop_spec draggedId dropIndex st Hin) as (item & d & p & Hid & Hn & E).
  assert (P : Permutation l l') by now apply onDrop_Permutation.
  split; [exact P|]. split; [|split].
  - exists item, (removeAt d l), d, p. split; [assumption|]. split.
    + apply (nth_error_insertAt _ _ _ Hn).
    + subst l'. now rewrite E.
  - now rewrite E.
  - intros snap. now apply Permutation_map.
Qed.

Lemma C7_reorder_permutation_witness :
  propertyList (onDrop "i0" 2 session3)
  = insertAt 2 (mkProperty "i0" "Title" VNull "Text" None)
      [mkProperty "i1" "Year" VNull "Number" None;
       mkProperty "i2" "Director" VNull "Text" None]
  /\ Permutation (propertyList session3) (propertyList (onDrop "i0" 2 session3)).
Proof.
  split; [reflexivity|].
  apply (C7_reorder_permutation "i0" 2 session3).
  simpl. auto.
Defined.

(** C6: on a working list with pairwise distinct key names, an Add whose
    trimmed name is empty or taken and a Rename whose new name is empty or
    another entry's leave the working list (and the snapshots) as they
    were, and every edit -- Add, Delete, Rename, Reorder -- yields a session,
    no error, whose key names are again pairwise distinct. *)
Theorem C6_invalid_edits_and_distinct_keys :
  forall uuid r e st,
    NoDup (map key (propertyList st)) ->
    (InvalidEdit e st ->
     propertyList (applyEdit uuid r e st) = propertyList st
     /\ frontmatterLists (applyEdit uuid r e st) = frontmatterLists st)
    /\ NoDup (map key (propertyList (applyEdit uuid r e st))).
Proof.
  intros uuid r e st Hnd. split.
  - intros Hinv. split; [|apply applyEdit_frontmatterLists].
    destruct e as [name|idx|idx name|i d]; simpl in *; try contradiction.
    + unfold addNewProperty. simpl. destruct Hinv as [E|Hin].
      * rewrite E. reflexivity.
      * apply existsb_key_In in Hin. rewrite Hin.
        now rewrite andb_false_r.
    + unfold renameProperty.
      destruct (nth_error (propertyList st) idx) as [prop|]; [|reflexivity].
      destruct (existsb _ internalpropertyList); [reflexivity|].
      destruct Hinv as [->|(j & p & Hj & Hp & Hk)]; [reflexivity|].
      assert (Hin : In name (map key (propertyList st))).
      { rewrite <- Hk. apply in_map. eapply nth_error_In; eassumption. }
      apply existsb_key_In in Hin. rewrite Hin. now rewrite andb_false_r.
  - destruct e as [name|idx|idx name|i d]; simpl.
    + unfold addNewProperty. simpl.
      destruct (negb (String.eqb (JS.trim name) "")); simpl; [|assumption].
      destruct (existsb _ (propertyList st)) eqn:Ex; simpl; [assumption|].
      rewrite map_app. simpl.
      apply NoDup_rev in Hnd. rewrite <- (rev_involutive (_ ++ _)).
      apply NoDup_rev. rewrite rev_app_distr. simpl. constructor; [|assumption].
      rewrite <- in_rev. rewrite <- existsb_key_In. now rewrite Ex.
    + rewrite map_removeAt. now apply NoDup_removeAt.
    + unfold renameProperty.
      destruct (nth_error (propertyList st) idx) as [prop|]; [|assumption].
      destruct (existsb _ internalpropertyList); [assumption|].
      destruct (negb (String.eqb name "")); simpl; [|assumption].
      destruct (existsb _ (propertyList st)) eqn:Ex; simpl; [assumption|].
      apply NoDup_setKeyAt; [assumption|].
      rewrite <- existsb_key_In. now rewrite Ex.
    + destruct (in_dec string_dec i (map id (propertyList st))) as [Hin|Hout].
      * eapply Permutation_NoDup; [|exact Hnd].
        apply Permutation_map. now apply onDrop_Permutation.
      * unfold onDrop. destruct (String.eqb i ""); [assumption|].
        replace (findIndex (fun p => String.eqb (id p) i) (propertyList st))
          with (-1)%Z; [assumption|].
        symmetry. clear Hnd. induction (propertyList st) as [|q l IH]; [reflexivity|].
        simpl in *. destruct (String.eqb_spec (id q) i) as [E|_]; [tauto|].
        rewrite IH by tauto. reflexivity.
Qed.

Lemma session3_distinct : NoDup (map key (propertyList session3)).
Proof. simpl. repeat constructor; simpl; intuition discriminate. Qed.

Lemma C6_invalid_edits_and_distinct_keys_witness :
  propertyList (applyEdit uuid_demo MainTs (Add " Title ") session3)
  = propertyList session3
  /\ NoDup (map key (propertyList (applyEdit uuid_demo MainTs (Rename 0 "Name") session3))).
Proof.
  split.
  - apply (proj1 (C6_invalid_edits_and_distinct_keys uuid_demo MainTs
                    (Add " Title ") session3 session3_distinct)).
    right. simpl. auto.
  - apply (proj2 (C6_invalid_edits_and_distinct_keys uuid_demo MainTs
                    (Rename 0 "Name") session3 session3_distinct)).
Defined.

(** ** Snapshots and documents stay aligned *)

Lemma snapshotOf_pairs m d :
  map (fun fm => (key fm, value fm)) (snapshotOf m d) = d.
Proof.
  unfold snapshotOf. rewrite map_map. simpl.
  rewrite <- (map_id d) at 2. apply map_ext. now intros [k v].
Qed.

(** C10: an aggregation pass leaves one snapshot per selected file, in the
    order of the files and whatever the store held before, the snapshot of
    a file holding the file's own pairs (none when it has no frontmatter);
    no edit changes the snapshots or the files; and replay reads, for file
    [i], snapshot [i]: either loop runs, over the files with their
    positions, the step that reads the snapshot at the file's position,
    up to the first step that throws, and with one snapshot per file and
    distinct keys [batchWriteFrontmatter] writes to every file the object
    obtained by assigning the pairs emitted from the file's own snapshot. *)
Theorem C10_snapshot_alignment :
  forall uuid r,
    (forall files st0,
       let st := selectFiles uuid r files st0 in
       fileList st = files
       /\ List.length (frontmatterLists st) = List.length (fileList st)
       /\ (forall i file,
             nth_error files i = Some file ->
             exists snap,
               nth_error (frontmatterLists st) i = Some snap
               /\ map (fun fm => (key fm, value fm)) snap = currentObject file)
       /\ (forall i file,
             nth_error files i = Some file -> frontmatter file = None ->
             nth_error (frontmatterLists st) i = Some [])
       /\ (forall st1,
             drawn st1 = drawn st0 ->
             frontmatterLists (selectFiles uuid r files st1) = frontmatterLists st))
    /\ (forall e st,
          frontmatterLists (applyEdit uuid r e st) = frontmatterLists st
          /\ fileList (applyEdit uuid r e st) = fileList st)
    /\ (forall edits files st0,
          let st := applyEdits uuid r edits (selectFiles uuid r files st0) in
          frontmatterLists st = frontmatterLists (selectFiles uuid r files st0)
          /\ List.length (frontmatterLists st) = List.length (fileList st))
    /\ (forall st,
          batchWriteFrontmatter st
          = untilThrow
              (map (fun jf =>
                      writeCallback (propertyList st)
                        (nth_error (frontmatterLists st) (fst jf))
                        (currentObject (snd jf)))
                 (indexed (fileList st)))
          /\ forall dts,
               updateMarkdownFiles dts st
               = untilThrow
                   (map (fun jf =>
                           rewriteFile dts (propertyList st)
                             (nth_error (frontmatterLists st) (fst jf))
                             (content (snd jf)))
                      (indexed (fileList st))))
    /\ (forall st,
          NoDup (map key (propertyList st)) ->
          List.length (frontmatterLists st) = List.length (fileList st) ->
          batchWriteFrontmatter st
          = (map (fun snap => ownProperties (map (emit snap) (propertyList st)))
               (frontmatterLists st),
             true)
          /\ forall i file,
               nth_error (fileList st) i = Some file ->
               exists snap,
                 nth_error (frontmatterLists st) i = Some snap
                 /\ nth_error (fst (batchWriteFrontmatter st)) i
                    = Some (ownProperties (map (emit snap) (propertyList st)))).
Proof.
  intros uuid r.
  assert (Sel : forall files st0,
             let st := selectFiles uuid r files st0 in
             fileList st = files
             /\ List.length (frontmatterLists st) = List.length (fileList st)).
  { intros files st0 st. subst st.
    destruct (selectFiles_spec uuid r files st0) as (m & Inv & E).
    rewrite E. simpl. split; [reflexivity | apply length_map]. }
  split; [|split; [|split; [|split]]].
  - intros files st0 st. destruct (Sel files st0) as [F L]. fold st in F, L.
    split; [exact F|]. split; [exact L|].
    assert (Reset : forall st1,
               drawn st1 = drawn st0 ->
               frontmatterLists (selectFiles uuid r files st1) = frontmatterLists st).
    { intros st1 Hd. subst st. unfold selectFiles, initializeView. simpl.
      rewrite Hd.
      now destruct (getProperties uuid r files [] (drawn st0)) as [[p l] n]. }
    split; [|split; [|exact Reset]]; clear Reset;
      destruct (selectFiles_spec uuid r files st0) as (m & Inv & E);
      subst st; rewrite E; simpl.
    + intros i file Hi. exists (snapshotOf m (currentObject file)).
      split; [now rewrite nth_error_map, Hi | apply snapshotOf_pairs].
    + intros i file Hi Hnone. rewrite nth_error_map, Hi. simpl.
      unfold currentObject. now rewrite Hnone.
  - intros e st. split; [apply applyEdit_frontmatterLists | apply applyEdit_fileList].
  - intros edits files st0 st. subst st.
    rewrite applyEdits_frontmatterLists, applyEdits_fileList.
    split; [reflexivity | apply Sel].
  - intros st. split; [apply batchWriteFrom_steps|].
    intros dts. apply updateFrom_steps.
  - intros st Hnd Hlen.
    assert (B : batchWriteFrontmatter st
                = (map (fun snap => ownProperties (map (emit snap) (propertyList st)))
                     (frontmatterLists st), true)).
    { unfold batchWriteFrontmatter.
      apply (batchWriteFrom_aligned _ Hnd (fileList st) (frontmatterLists st) [] Hlen). }
    split; [exact B|].
    intros i file Hi. rewrite B. simpl.
    destruct (nth_error (frontmatterLists st) i) as [snap|] eqn:E.
    + exists snap. split; [reflexivity|]. now rewrite nth_error_map, E.
    + apply nth_error_None in E.
      assert (i < List.length (fileList st)) by (apply nth_error_Some; congruence).
      lia.
Qed.

Lemma C10_snapshot_alignment_witness :
  let st := selectFiles uuid_demo MainTs [fileA; mkTFile None "plain"] session3 in
  exists snap,
    nth_error (frontmatterLists st) 0 = Some snap
    /\ map (fun fm => (key fm, value fm)) snap = currentObject fileA.
Proof.
  intros st.
  apply (proj1 (proj2 (proj2 (proj1 (C10_snapshot_alignment uuid_demo MainTs)
                                 [fileA; mkTFile None "plain"] session3)))
           0 fileA).
  reflexivity.
Defined.

(** ** Serialization and the rewritten text (revision [part_001]) *)

Lemma keptBody_few_pieces text :
  List.length (JS.split "---" text) <= 2 -> keptBody text = "".
Proof.
  intros H. unfold keptBody, JS.slice.
  rewrite skipn_all2 by exact H. reflexivity.
Qed.

(** C8, at a string outside a list: [stringifyValue] returns every value
    that is not an array as it is, so a string of the shape [[...]] is
    written without quotes, while the same string inside a list is quoted;
    a nested array that reads as such a string makes it throw. *)
Theorem C8_scalar_link_not_quoted :
  forall dts,
    JS.test_wikiLink "[[Note]]" = true
    /\ (forall s, stringifyValue dts (VStr s) = Some (VStr s))
    /\ renderPair dts ("link", VStr "[[Note]]") = Some "link: [[Note]]"
    /\ stringifyValue dts (VList [VStr "[[Note]]"; VStr "plain"])
       = Some (VStr (JS.LF ++ "  - " ++ JS.dquote ++ "[[Note]]" ++ JS.dquote
                     ++ JS.LF ++ "  - plain")%string)
    /\ stringifyValue dts (VList [VList [VStr "[[Note]]"]]) = None.
Proof.
  intros dts. repeat split.
Qed.

(** C9, at a file without frontmatter: [updateMarkdownFiles] keeps of the
    text only what follows the second "---", so the whole text of such a
    file is dropped; the body of a file with frontmatter is kept, trimmed. *)
Theorem C9_text_without_frontmatter_lost :
  forall dts,
    updateMarkdownFiles dts
      (selectFiles uuid_demo Part001 [plainNote; titledNote] session0)
    = ([("---" ++ JS.LF ++ "Title: " ++ JS.LF ++ "---" ++ JS.LF)%string;
        ("---" ++ JS.LF ++ "Title: A" ++ JS.LF ++ "---" ++ JS.LF ++ "Body")%string],
       true)
    /\ keptBody (content plainNote) = ""
    /\ keptBody (content titledNote) = "Body"
    /\ rewriteFile dts [] (Some []) "Just a note." = Some "".
Proof.
  intros dts. repeat split.
Qed.

(** ** The end-to-end scenario of the specification *)

Example end_to_end_scenario :
  let files :=
    [mkTFile (Some [("Title", VStr "A"); ("Year", VNum 1999)]) "";
     mkTFile (Some [("Title", VStr "B"); ("Year", VNum 2001); ("Director", VStr "D")]) "";
     mkTFile (Some [("Title", VStr "C"); ("Director", VStr "E")]) ""] in
  let st := selectFiles uuid_demo MainTs files session0 in
  let st' := applyEdits uuid_demo MainTs
               [Delete 1; Add "Score"; Reorder (uuid_demo 3) 1; Reorder (uuid_demo 3) 2] st in
  map key (propertyList st) = ["Title"; "Year"; "Director"]
  /\ map type (propertyList st) = ["Text"; "Number"; "Text"]
  /\ map key (propertyList st') = ["Title"; "Director"; "Score"]
  /\ batchWriteFrontmatter st'
     = ([[("Title", VStr "A"); ("Director", VNull); ("Score", VNull)];
         [("Title", VStr "B"); ("Director", VStr "D"); ("Score", VNull)];
         [("Title", VStr "C"); ("Director", VStr "E"); ("Score", VNull)]], true).
Proof. repeat split. Qed.

(** * Further properties of the code *)

(** ** Identifiers of the working list *)

Lemma onDrop_absent draggedId dropIndex st :
  ~ In draggedId (map id (propertyList st)) -> onDrop draggedId dropIndex st = st.
Proof.
  intros Hout. unfold onDrop. destruct (String.eqb draggedId ""); [reflexivity|].
  replace (findIndex (fun p => String.eqb (id p) draggedId) (propertyList st))
    with (-1)%Z; [reflexivity|].
  symmetry. induction (propertyList st) as [|q l IH]; [reflexivity|].
  simpl in *. destruct (String.eqb_spec (id q) draggedId) as [E|_]; [tauto|].
  rewrite IH by tauto. reflexivity.
Qed.

Lemma aggregated_ids uuid r n0 es m n :
  AggInv uuid r n0 es m n ->
  map id (map (fun e => finish (snd e)) m) = map uuid (seq n0 (List.length m)).
Proof.
  intros Inv. rewrite <- (inv_ids Inv), map_map. reflexivity.
Qed.

Lemma DistinctDrawnIds_selectFiles uuid r files st0 :
  (forall a b, uuid a = uuid b -> a = b) ->
  DistinctDrawnIds uuid (selectFiles uuid r files st0).
Proof.
  intros Hinj. destruct (selectFiles_spec uuid r files st0) as (m & Inv & E).
  rewrite E. unfold DistinctDrawnIds. simpl.
  rewrite (aggregated_ids _ _ _ _ _ _ Inv). split.
  - apply NoDup_map_injective; [exact Hinj | apply seq_NoDup].
  - intros p Hp. apply (in_map id) in Hp.
    rewrite (aggregated_ids _ _ _ _ _ _ Inv) in Hp.
    apply in_map_iff in Hp. destruct Hp as (j & Ej & Hj). apply in_seq in Hj.
    exists j. split; [lia | now symmetry].
Qed.

Lemma DistinctDrawnIds_applyEdit uuid r e st :
  (forall a b, uuid a = uuid b -> a = b) ->
  DistinctDrawnIds uuid st -> DistinctDrawnIds uuid (applyEdit uuid r e st).
Proof.
  intros Hinj [Hnd Hdr]. destruct e as [name|idx|idx name|i d]; simpl.
  - unfold addNewProperty. simpl.
    destruct (negb _ && negb _); [|split; assumption].
    unfold DistinctDrawnIds. simpl. split.
    + rewrite map_app. simpl.
      apply NoDup_rev in Hnd. rewrite <- (rev_involutive (_ ++ _)).
      apply NoDup_rev. rewrite rev_app_distr. simpl. constructor; [|assumption].
      rewrite <- in_rev. intros Hin. apply in_map_iff in Hin.
      destruct Hin as (p & Ep & Hp). destruct (Hdr p Hp) as (j & Hj & Ej).
      rewrite Ej in Ep. apply Hinj in Ep. lia.
    + intros p Hp. apply in_app_or in Hp. destruct Hp as [Hp|[<-|[]]].
      * destruct (Hdr p Hp) as (j & Hj & Ej). exists j. split; [lia | assumption].
      * exists (drawn st). split; [lia | reflexivity].
  - unfold DistinctDrawnIds. simpl. split.
    + rewrite map_removeAt. now apply NoDup_removeAt.
    + intros p Hp. apply In_removeAt in Hp. auto.
  - unfold renameProperty.
    destruct (nth_error (propertyList st) idx) as [prop|] eqn:Hn; [|split; assumption].
    destruct (existsb _ internalpropertyList); [split; assumption|].
    destruct (negb _ && negb _); [|split; assumption].
    unfold DistinctDrawnIds. simpl. rewrite setKeyAt_ids. split; [assumption|].
    intros p Hp. apply (in_map id) in Hp. rewrite setKeyAt_ids in Hp.
    apply in_map_iff in Hp. destruct Hp as (q & Eq & Hq).
    destruct (Hdr q Hq) as (j & Hj & Ej). exists j. split; [assumption | congruence].
  - destruct (in_dec string_dec i (map id (propertyList st))) as [Hin|Hout].
    + pose proof (onDrop_Permutation i d st Hin) as P.
      destruct (onDrop_spec i d st Hin) as (item & d' & p' & _ & _ & E).
      unfold DistinctDrawnIds. split.
      * eapply Permutation_NoDup; [apply Permutation_map; exact P | assumption].
      * intros p Hp. rewrite E. simpl. apply Hdr.
        eapply Permutation_in; [symmetry; exact P | exact Hp].
    + rewrite (onDrop_absent _ _ _ Hout). split; assumption.
Qed.

Lemma DistinctDrawnIds_reachable uuid r files st0 edits :
  (forall a b, uuid a = uuid b -> a = b) ->
  DistinctDrawnIds uuid (applyEdits uuid r edits (selectFiles uuid r files st0)).
Proof.
  intros Hinj.
  pose proof (DistinctDrawnIds_selectFiles uuid r files st0 Hinj) as H.
  revert H. generalize (selectFiles uuid r files st0).
  unfold applyEdits. induction edits as [|e edits IH]; intros st H; simpl;
    [assumption|].
  apply IH. now apply DistinctDrawnIds_applyEdit.
Qed.

(** X1: in every session reached from an aggregation by edits, no two
    entries of the working list share an identifier, and every identifier
    was drawn earlier in the session. *)
Theorem X1_identifiers_distinct :
  forall uuid,
    (forall a b, uuid a = uuid b -> a = b) ->
    forall r files st0 edits,
      DistinctDrawnIds uuid (applyEdits uuid r edits (selectFiles uuid r files st0)).
Proof.
  intros uuid Hinj r files st0 edits. now apply DistinctDrawnIds_reachable.
Qed.

Lemma X1_identifiers_distinct_witness :
  DistinctDrawnIds uuid_demo
    (applyEdits uuid_demo MainTs [Add "c"; Delete 0; Reorder (uuid_demo 2) 0]
       (selectFiles uuid_demo MainTs [fileA; fileB] session0)).
Proof.
  apply (X1_identifiers_distinct uuid_demo uuid_demo_inj MainTs
           [fileA; fileB] session0 [Add "c"; Delete 0; Reorder (uuid_demo 2) 0]).
Defined.

(** ** Deleting a property *)

Lemma nth_error_removeAt_keys (l : list Property) : forall idx e,
  NoDup (map key l) -> nth_error l idx = Some e ->
  ~ In (key e) (map key (removeAt idx l)).
Proof.
  induction l as [|p l IH]; intros [|idx] e Hnd He; simpl in He; try discriminate.
  - injection He as ->. unfold removeAt. simpl. now inversion Hnd.
  - rewrite removeAt_cons. simpl. inversion Hnd as [|? ? Hn Hd]; subst.
    intros [E|Hin].
    + apply Hn. rewrite E. apply in_map. eapply nth_error_In; eassumption.
    + now apply (IH idx e).
Qed.

Lemma removeAt_delete : forall (l : obj) idx k v,
  NoDup (map fst l) -> nth_error l idx = Some (k, v) -> removeAt idx l = obj_delete k l.
Proof.
  induction l as [|[k' v'] l IH]; intros [|idx] k v Hnd He; simpl in He;
    try discriminate; inversion Hnd as [|? ? Hn Hd]; subst.
  - injection He as -> ->. unfold removeAt, obj_delete. simpl.
    rewrite String.eqb_refl. simpl. symmetry.
    apply forallb_filter_id, forallb_forall. intros [k' v'] Hin. simpl.
    destruct (String.eqb_spec k' k) as [->|]; [|reflexivity].
    exfalso. apply Hn. apply in_map_iff. now exists (k, v').
  - rewrite removeAt_cons. unfold obj_delete. simpl.
    destruct (String.eqb_spec k' k) as [->|Hne]; simpl.
    + exfalso. apply Hn. apply in_map_iff. exists (k, v).
      split; [reflexivity | eapply nth_error_In; eassumption].
    + f_equal. now apply (IH idx k v).
Qed.

(** X2: deleting row [idx] takes the pair of that row, and nothing else, out
    of what replay gives each document; when the key names are pairwise
    distinct the deleted key is given to no document, whether or not its
    snapshot had it, and [batchWriteFrontmatter] writes to each file the
    object it would have written before the deletion with the property of
    the deleted key removed, so no written object has that key. *)
Theorem X2_delete_erases_for_all :
  forall idx st e,
    NoDup (map key (propertyList st)) ->
    nth_error (propertyList st) idx = Some e ->
    List.length (frontmatterLists st) = List.length (fileList st) ->
    (forall snap,
       map (emit snap) (propertyList (deleteProperty idx st))
       = removeAt idx (map (emit snap) (propertyList st))
       /\ ~ In (key e) (map fst (map (emit snap) (propertyList (deleteProperty idx st)))))
    /\ batchWriteFrontmatter (deleteProperty idx st)
       = (map (obj_delete (key e)) (fst (batchWriteFrontmatter st)), true)
    /\ (forall o, In o (fst (batchWriteFrontmatter (deleteProperty idx st))) ->
                  ~ In (key e) (map fst o)).
Proof.
  intros idx st e Hnd He Hlen.
  assert (Hnd' : NoDup (map key (removeAt idx (propertyList st)))).
  { rewrite map_removeAt. now apply NoDup_removeAt. }
  assert (Hout : forall snap,
             ~ In (key e) (map fst (map (emit snap) (removeAt idx (propertyList st))))).
  { intros snap. rewrite map_map. simpl.
    now apply nth_error_removeAt_keys. }
  assert (W : batchWriteFrontmatter (deleteProperty idx st)
              = (map (fun snap =>
                        ownProperties (map (emit snap) (removeAt idx (propertyList st))))
                   (frontmatterLists st), true)).
  { unfold batchWriteFrontmatter. simpl.
    apply (batchWriteFrom_aligned _ Hnd' (fileList st) (frontmatterLists st) [] Hlen). }
  split; [|split].
  - intros snap. simpl. split; [apply map_removeAt | apply Hout].
  - rewrite W. unfold batchWriteFrontmatter.
    pose proof (batchWriteFrom_aligned _ Hnd (fileList st) (frontmatterLists st) [] Hlen)
      as B.
    simpl in B. rewrite B. simpl. rewrite map_map. f_equal. apply map_ext.
    intros snap. rewrite <- ownProperties_delete. f_equal.
    rewrite map_removeAt.
    apply (removeAt_delete _ idx (key e) (value (found snap e))).
    + now rewrite keys_emit.
    + now rewrite nth_error_map, He.
  - intros o Ho. rewrite W in Ho. simpl in Ho. apply in_map_iff in Ho.
    destruct Ho as (snap & <- & _). intros Hin. apply keys_ownProperties in Hin.
    now apply (Hout snap).
Qed.

Lemma X2_delete_erases_for_all_witness :
  batchWriteFrontmatter
    (deleteProperty 0 (selectFiles uuid_demo MainTs [fileA; fileB] session0))
  = ([[("b", VNull)]; [("b", VNum 2)]], true).
Proof.
  refine (proj1 (proj2 (X2_delete_erases_for_all 0
            (selectFiles uuid_demo MainTs [fileA; fileB] session0)
            (mkProperty (uuid_demo 0) "a" VNull "Number" None) _ _ _))).
  - simpl. repeat constructor; simpl; intuition discriminate.
  - reflexivity.
  - reflexivity.
Defined.

Lemma removeAt_snoc {A} (l : list A) x : removeAt (List.length l) (l ++ [x]) = l.
Proof.
  induction l as [|y l IH]; [reflexivity|].
  cbn [List.length app]. rewrite removeAt_cons. now rewrite IH.
Qed.

Lemma removeAt_beyond {A} (l : list A) i : List.length l <= i -> removeAt i l = l.
Proof.
  intros H. unfold removeAt.
  rewrite firstn_all2 by exact H. rewrite skipn_all2 by lia. apply app_nil_r.
Qed.

(** X3: after an accepted Add (the trimmed name is not empty and is no
    key of the working list) the new entry is the last row, and deleting
    that row gives back the working list as it was; the snapshots are
    untouched throughout, and the one identifier drawn stays drawn. *)
Theorem X3_add_then_delete :
  forall uuid r name st,
    JS.trim name <> "" ->
    ~ In (JS.trim name) (map key (propertyList st)) ->
    let st1 := applyEdit uuid r (Add name) st in
    let st2 := applyEdit uuid r (Delete (List.length (propertyList st))) st1 in
    nth_error (propertyList st1) (List.length (propertyList st))
    = Some (mkProperty (uuid (drawn st)) (JS.trim name) (placeholder r)
              (addedType r) None)
    /\ List.length (propertyList st1) = S (List.length (propertyList st))
    /\ propertyList st2 = propertyList st
    /\ frontmatterLists st2 = frontmatterLists st
    /\ drawn st2 = S (drawn st).
Proof.
  intros uuid r name st Hne Hfresh st1 st2. subst st2 st1.
  rewrite (addNewProperty_valid uuid r name st Hne Hfresh). simpl.
  split; [|split; [|split; [|split]]].
  - rewrite nth_error_app2 by lia. now rewrite Nat.sub_diag.
  - rewrite length_app. simpl. lia.
  - apply removeAt_snoc.
  - reflexivity.
  - reflexivity.
Qed.

Lemma X3_add_then_delete_witness :
  propertyList
    (applyEdit uuid_demo MainTs (Delete 3)
       (applyEdit uuid_demo MainTs (Add " Score ") session3))
  = propertyList session3.
Proof.
  refine (proj1 (proj2 (proj2
            (X3_add_then_delete uuid_demo MainTs " Score " session3 _ _)))).
  - vm_compute. discriminate.
  - vm_compute. intuition discriminate.
Defined.

(** ** Reordering *)

Lemma nth_error_insertAt_at {A} : forall (l : list A) p x,
  p <= List.length l -> nth_error (insertAt p x l) p = Some x.
Proof.
  intros l p x H. unfold insertAt.
  rewrite nth_error_app2 by (rewrite firstn_length_le; lia).
  rewrite firstn_length_le by lia. now rewrite Nat.sub_diag.
Qed.

Lemma removeAt_insertAt {A} : forall (l : list A) p x,
  p <= List.length l -> removeAt p (insertAt p x l) = l.
Proof.
  induction l as [|y l IH]; intros [|p] x H; simpl in H; try lia.
  - reflexivity.
  - reflexivity.
  - rewrite insertAt_cons, removeAt_cons. f_equal. apply IH. lia.
Qed.

Lemma length_removeAt {A} : forall (l : list A) d,
  d < List.length l -> List.length (removeAt d l) = List.length l - 1.
Proof.
  intros l d H. unfold removeAt.
  rewrite length_app, firstn_length_le, length_skipn by lia. lia.
Qed.

Lemma length_insertAt {A} (l : list A) p x :
  List.length (insertAt p x l) = S (List.length l).
Proof.
  unfold insertAt. rewrite length_app. simpl.
  pose proof (f_equal (@List.length A) (firstn_skipn p l)) as E.
  rewrite length_app in E. lia.
Qed.

Lemma findIndex_first {A} (f : A -> bool) : forall l d x,
  nth_error l d = Some x -> f x = true ->
  (forall j y, j < d -> nth_error l j = Some y -> f y = false) ->
  findIndex f l = Z.of_nat d.
Proof.
  induction l as [|y l IH]; intros [|d] x Hn Hf Hb; simpl in Hn; try discriminate.
  - injection Hn as ->. simpl. now rewrite Hf.
  - simpl. rewrite (Hb 0 y) by (simpl; auto; lia).
    rewrite (IH d x Hn Hf).
    + replace (Z.of_nat d <? 0)%Z with false by (symmetry; apply Z.ltb_ge; lia).
      lia.
    + intros j z Hj Hz. apply (Hb (S j) z); [lia | exact Hz].
Qed.

Lemma findIndex_NoDup (l : list Property) d item :
  NoDup (map id l) -> nth_error l d = Some item ->
  findIndex (fun p => String.eqb (id p) (id item)) l = Z.of_nat d.
Proof.
  intros Hnd Hn. apply (findIndex_first _ l d item Hn); [apply String.eqb_refl|].
  intros j y Hj Hy. apply String.eqb_neq. intros E.
  assert (X : j = d); [|lia].
  apply (proj1 (NoDup_nth_error (map id l)) Hnd).
  - rewrite length_map. apply nth_error_Some. congruence.
  - rewrite !nth_error_map, Hy, Hn. simpl. now rewrite E.
Qed.

(** What [onDrop] does when it moves a row: the first row with the dragged
    identifier, at [d], is taken out and put in at the drop index. *)
Lemma onDrop_move draggedId dropIndex st d item :
  draggedId <> "" ->
  findIndex (fun p => String.eqb (id p) draggedId) (propertyList st) = Z.of_nat d ->
  nth_error (propertyList st) d = Some item ->
  (0 <= dropIndex < Z.of_nat (List.length (propertyList st)))%Z ->
  onDrop draggedId dropIndex st
  = withPropertyList
      (insertAt (Z.to_nat dropIndex) item (removeAt d (propertyList st))) st.
Proof.
  intros Hne F Hn Hrange. unfold onDrop.
  apply String.eqb_neq in Hne. rewrite Hne, F.
  assert (Hd : d < List.length (propertyList st)).
  { apply nth_error_Some. congruence. }
  replace (Z.of_nat d =? -1)%Z with false by (symmetry; apply Z.eqb_neq; lia).
  replace (dropIndex =? -1)%Z with false by (symmetry; apply Z.eqb_neq; lia).
  simpl. destruct (Z.eqb_spec (Z.of_nat d) dropIndex) as [E|Hneq]; simpl.
  - subst dropIndex. rewrite Nat2Z.id, <- (nth_error_insertAt _ _ _ Hn).
    symmetry. apply withPropertyList_same.
  - assert (S1 : spliceStart (List.length (propertyList st)) (Z.of_nat d) = d).
    { unfold spliceStart.
      replace (Z.of_nat d <? 0)%Z with false by (symmetry; apply Z.ltb_ge; lia).
      rewrite Nat2Z.id. apply Nat.min_l. lia. }
    rewrite S1, Hn. f_equal. f_equal.
    unfold spliceStart.
    replace (dropIndex <? 0)%Z with false by (symmetry; apply Z.ltb_ge; lia).
    apply Nat.min_l. rewrite length_removeAt by exact Hd. lia.
Qed.

(** X4: dropping the row with an identifier of the working list on row
    [dropIndex] leaves that row at position [dropIndex], and the list as
    long as it was. *)
Theorem X4_reorder_lands_on_target :
  forall draggedId dropIndex st,
    draggedId <> "" ->
    In draggedId (map id (propertyList st)) ->
    (0 <= dropIndex < Z.of_nat (List.length (propertyList st)))%Z ->
    let st' := onDrop draggedId dropIndex st in
    List.length (propertyList st') = List.length (propertyList st)
    /\ exists item,
         id item = draggedId
         /\ In item (propertyList st)
         /\ nth_error (propertyList st') (Z.to_nat dropIndex) = Some item.
Proof.
  intros draggedId dropIndex st Hne Hin Hrange st'.
  assert (Hex : existsb (fun p => String.eqb (id p) draggedId) (propertyList st) = true).
  { apply existsb_exists. apply in_map_iff in Hin. destruct Hin as (q & E & Hq).
    exists q. split; [assumption | now apply String.eqb_eq]. }
  destruct (findIndex_found _ _ Hex) as (d & item & F & Hn & Hp).
  apply String.eqb_eq in Hp.
  assert (Hd : d < List.length (propertyList st)).
  { apply nth_error_Some. congruence. }
  subst st'. rewrite (onDrop_move _ _ _ _ _ Hne F Hn Hrange). simpl. split.
  - rewrite length_insertAt, length_removeAt by exact Hd. lia.
  - exists item. split; [assumption|]. split; [eapply nth_error_In; eassumption|].
    apply nth_error_insertAt_at. rewrite length_removeAt by exact Hd. lia.
Qed.

Lemma X4_reorder_lands_on_target_witness :
  nth_error (propertyList (onDrop "i2" 0 session3)) 0
  = Some (mkProperty "i2" "Director" VNull "Text" None)
  /\ exists item,
       id item = "i2"
       /\ In item (propertyList session3)
       /\ nth_error (propertyList (onDrop "i2" 0 session3)) (Z.to_nat 0) = Some item.
Proof.
  split; [reflexivity|].
  apply (X4_reorder_lands_on_target "i2" 0 session3).
  - discriminate.
  - simpl. auto.
  - simpl. lia.
Defined.

(** X5: when the identifiers are pairwise distinct, dropping a row on
    another and then back on its old place restores the working list. *)
Theorem X5_reorder_there_and_back :
  forall st d item dropIndex,
    NoDup (map id (propertyList st)) ->
    nth_error (propertyList st) d = Some item ->
    id item <> "" ->
    (0 <= dropIndex < Z.of_nat (List.length (propertyList st)))%Z ->
    propertyList (onDrop (id item) (Z.of_nat d) (onDrop (id item) dropIndex st))
    = propertyList st.
Proof.
  intros st d item dropIndex Hnd Hn Hne Hrange.
  assert (Hd : d < List.length (propertyList st)).
  { apply nth_error_Some. congruence. }
  pose proof (findIndex_NoDup _ _ _ Hnd Hn) as F.
  rewrite (onDrop_move _ _ st d item Hne F Hn Hrange).
  set (l1 := insertAt (Z.to_nat dropIndex) item (removeAt d (propertyList st))).
  assert (Hp : Z.to_nat dropIndex <= List.length (removeAt d (propertyList st))).
  { rewrite length_removeAt by exact Hd. lia. }
  assert (Hn1 : nth_error l1 (Z.to_nat dropIndex) = Some item).
  { now apply nth_error_insertAt_at. }
  assert (Hnd1 : NoDup (map id l1)).
  { eapply Permutation_NoDup; [|exact Hnd]. apply Permutation_map.
    rewrite (nth_error_insertAt _ _ _ Hn) at 1.
    etransitivity; [symmetry; apply insertAt_Permutation | apply insertAt_Permutation]. }
  pose proof (findIndex_NoDup _ _ _ Hnd1 Hn1) as F1.
  rewrite (onDrop_move _ _ (withPropertyList l1 st) (Z.to_nat dropIndex) item Hne).
  - simpl. unfold l1. rewrite removeAt_insertAt by exact Hp.
    rewrite Nat2Z.id. symmetry. now apply nth_error_insertAt.
  - exact F1.
  - exact Hn1.
  - simpl. unfold l1. rewrite length_insertAt, length_removeAt by exact Hd. lia.
Qed.

Lemma X5_reorder_there_and_back_witness :
  propertyList (onDrop "i0" 0 (onDrop "i0" 2 session3)) = propertyList session3.
Proof.
  refine (X5_reorder_there_and_back session3 0
            (mkProperty "i0" "Title" VNull "Text" None) 2 _ _ _ _).
  - simpl. repeat constructor; simpl; intuition discriminate.
  - reflexivity.
  - discriminate.
  - simpl. lia.
Defined.

(** ** Renaming *)

Lemma setKeyAt_twice : forall l idx a b,
  setKeyAt idx a (setKeyAt idx b l) = setKeyAt idx a l.
Proof.
  induction l as [|p l IH]; intros [|idx] a b; simpl; try reflexivity.
  now rewrite IH.
Qed.

Lemma setKeyAt_own : forall l idx e,
  nth_error l idx = Some e -> setKeyAt idx (key e) l = l.
Proof.
  induction l as [|p l IH]; intros [|idx] e H; simpl in H; try discriminate.
  - injection H as ->. simpl. now destruct e.
  - simpl. now rewrite (IH _ _ H).
Qed.

Lemma In_setKeyAt_old : forall l idx e name,
  NoDup (map key l) -> nth_error l idx = Some e ->
  In (key e) (map key (setKeyAt idx name l)) -> key e = name.
Proof.
  induction l as [|p l IH]; intros [|idx] e name Hnd Hn Hin; simpl in Hn;
    try discriminate; simpl in Hnd; inversion Hnd as [|? ? Hout Hd]; subst.
  - injection Hn as ->. simpl in Hin. destruct Hin as [E|Hin]; [now symmetry|].
    contradiction.
  - simpl in Hin. destruct Hin as [E|Hin].
    + exfalso. apply Hout. rewrite E. apply in_map. eapply nth_error_In; eassumption.
    + now apply (IH idx e name).
Qed.

Lemma not_existsb_key name (l : list Property) :
  ~ In name (map key l) ->
  existsb (fun p => String.eqb (key p) name) l = false.
Proof.
  intros H. apply not_true_iff_false. now rewrite existsb_key_In.
Qed.

(** X6: with pairwise distinct key names, renaming a row whose key is
    neither empty nor an internal one to a name that is not empty, not an
    internal one and no key of the working list, and then renaming it back
    to the key it had, restores the session. *)
Theorem X6_rename_and_back :
  forall idx name st e,
    NoDup (map key (propertyList st)) ->
    nth_error (propertyList st) idx = Some e ->
    ~ In (key e) internalpropertyList -> ~ In name internalpropertyList ->
    key e <> "" -> name <> "" ->
    ~ In name (map key (propertyList st)) ->
    renameProperty idx (key e) (renameProperty idx name st) = st.
Proof.
  intros idx name st e Hnd He Hint Hint' Hne Hne' Hfresh.
  rewrite (renameProperty_valid _ _ _ _ He Hint Hne' Hfresh).
  assert (He' : nth_error (propertyList
                             (withPropertyList (setKeyAt idx name (propertyList st)) st))
                  idx = Some (renamed name e)).
  { simpl. now apply setKeyAt_same. }
  assert (Hback : ~ In (key e)
                    (map key (propertyList
                       (withPropertyList (setKeyAt idx name (propertyList st)) st)))).
  { simpl. intros Hin. apply (In_setKeyAt_old _ _ _ _ Hnd He) in Hin.
    apply Hfresh. rewrite <- Hin. apply in_map. eapply nth_error_In; eassumption. }
  rewrite (renameProperty_valid _ _ _ _ He' Hint' Hne Hback). simpl.
  unfold withPropertyList. simpl.
  rewrite setKeyAt_twice, (setKeyAt_own _ _ _ He). now destruct st.
Qed.

Lemma X6_rename_and_back_witness :
  renameProperty 1 "Year" (renameProperty 1 "Released" session3) = session3.
Proof.
  refine (X6_rename_and_back 1 "Released" session3
            (mkProperty "i1" "Year" VNull "Number" None) session3_distinct _ _ _ _ _ _).
  - reflexivity.
  - simpl. intuition discriminate.
  - simpl. intuition discriminate.
  - discriminate.
  - discriminate.
  - simpl. intuition discriminate.
Defined.

(** X7: a row whose key is one of tags, aliases, cssclasses cannot be
    renamed; yet another row can be renamed to such a name, and from then
    on it cannot be renamed either. *)
Theorem X7_rename_internal_is_final :
  (forall idx name st e,
     nth_error (propertyList st) idx = Some e ->
     In (key e) internalpropertyList ->
     renameProperty idx name st = st)
  /\ (forall idx name st e,
        nth_error (propertyList st) idx = Some e ->
        ~ In (key e) internalpropertyList ->
        In name internalpropertyList ->
        ~ In name (map key (propertyList st)) ->
        let st' := renameProperty idx name st in
        nth_error (propertyList st') idx = Some (renamed name e)
        /\ forall name', renameProperty idx name' st' = st').
Proof.
  assert (Locked : forall idx name st e,
             nth_error (propertyList st) idx = Some e ->
             In (key e) internalpropertyList ->
             renameProperty idx name st = st).
  { intros idx name st e He Hin. unfold renameProperty. rewrite He.
    apply existsb_eqb_In in Hin. now rewrite Hin. }
  split; [exact Locked|].
  intros idx name st e He Hint Hin Hfresh st'.
  assert (Hne : name <> "").
  { intros ->. simpl in Hin. intuition discriminate. }
  subst st'. rewrite (renameProperty_valid _ _ _ _ He Hint Hne Hfresh).
  assert (He' : nth_error (propertyList
                             (withPropertyList (setKeyAt idx name (propertyList st)) st))
                  idx = Some (renamed name e)).
  { simpl. now apply setKeyAt_same. }
  split; [exact He'|].
  intros name'. apply (Locked _ _ _ _ He'). exact Hin.
Qed.

Lemma X7_rename_internal_is_final_witness :
  nth_error (propertyList (renameProperty 2 "tags" session3)) 2
  = Some (mkProperty "i2" "tags" VNull "Text" None)
  /\ renameProperty 2 "Director" (renameProperty 2 "tags" session3)
     = renameProperty 2 "tags" session3.
Proof.
  destruct (proj2 X7_rename_internal_is_final 2 "tags" session3
              (mkProperty "i2" "Director" VNull "Text" None)) as [H1 H2].
  - reflexivity.
  - simpl. intuition discriminate.
  - simpl. auto.
  - simpl. intuition discriminate.
  - split; [exact H1 | apply H2].
Defined.

(** X8: the rename dialog opens for a row whose key is not internal, with
    no new name yet; confirming it without typing changes nothing, and so
    does typing the name the row already has. *)
Theorem X8_rename_dialog_unchanged :
  forall idx st m,
    openRenameModal idx st = Some m ->
    newName m = None
    /\ (exists e, nth_error (propertyList st) idx = Some e /\ oldName m = key e)
    /\ confirmRename idx m st = st
    /\ confirmRename idx (onChangeRename (oldName m) m) st = st.
Proof.
  intros idx st m. unfold openRenameModal.
  destruct (nth_error (propertyList st) idx) as [e|] eqn:He; [|discriminate].
  destruct (existsb _ internalpropertyList) eqn:Hint; [discriminate|].
  intros [= <-]. split; [reflexivity|]. split; [now exists e|].
  split; [reflexivity|].
  unfold confirmRename, onChangeRename. cbn [newName oldName].
  unfold renameProperty. rewrite He, Hint.
  assert (Hin : existsb (fun p => String.eqb (key p) (key e)) (propertyList st) = true).
  { apply existsb_key_In, in_map. eapply nth_error_In; eassumption. }
  rewrite Hin. now rewrite andb_false_r.
Qed.

Lemma X8_rename_dialog_unchanged_witness :
  confirmRename 0 (mkRenamePropertyModal "Title" None) session3 = session3
  /\ confirmRename 0 (onChangeRename "Title" (mkRenamePropertyModal "Title" None)) session3
     = session3.
Proof.
  destruct (X8_rename_dialog_unchanged 0 session3 (mkRenamePropertyModal "Title" None)
              eq_refl) as (_ & _ & H1 & H2).
  split; [exact H1 | exact H2].
Defined.

(** ** The save button *)

(** X9: after an aggregation the save section offers Save exactly when at
    least one file is selected, and edits do not change which button it
    is -- also when every property has been deleted. *)
Theorem X9_save_offered :
  forall uuid r files st0 edits,
    updateSaveSection (applyEdits uuid r edits (selectFiles uuid r files st0))
    = match files with [] => CloseButton | _ => SaveButton end.
Proof.
  intros uuid r files st0 edits. unfold updateSaveSection.
  rewrite applyEdits_frontmatterLists.
  destruct (selectFiles_spec uuid r files st0) as (m & _ & E).
  rewrite E. simpl. rewrite length_map. now destruct files.
Qed.

(** ** More on aggregation *)

Lemma AggInv_length uuid r n0 es m n :
  AggInv uuid r n0 es m n -> List.length m = List.length (firstSeen (map fst es)).
Proof.
  intros Inv. rewrite <- (inv_keys Inv). now rewrite length_map.
Qed.

(** X10: an aggregation draws one identifier for each distinct key name and
    none else, and gives them to the unified list in first-seen order. *)
Theorem X10_identifiers_in_order :
  forall uuid r files st0,
    let st := selectFiles uuid r files st0 in
    map id (propertyList st)
    = map uuid (seq (drawn st0) (List.length (unifiedKeys files)))
    /\ drawn st = drawn st0 + List.length (unifiedKeys files)
    /\ List.length (propertyList st) = List.length (unifiedKeys files).
Proof.
  intros uuid r files st0 st. subst st.
  destruct (selectFiles_spec uuid r files st0) as (m & Inv & E).
  rewrite E. simpl. unfold unifiedKeys.
  rewrite <- (AggInv_length _ _ _ _ _ _ Inv).
  split; [apply (aggregated_ids _ _ _ _ _ _ Inv)|].
  split; [reflexivity | apply length_map].
Qed.

(** X11: aggregating again starts afresh: the edits made so far are
    dropped, the unified keys are those of the files now selected, and no
    identifier of the new working list or of the new snapshots is one the
    working list had before. *)
Theorem X11_reaggregation_is_fresh :
  forall uuid,
    (forall a b, uuid a = uuid b -> a = b) ->
    forall r files st0 edits files',
      let st1 := applyEdits uuid r edits (selectFiles uuid r files st0) in
      let st2 := selectFiles uuid r files' st1 in
      map key (propertyList st2) = unifiedKeys files'
      /\ (forall p1 p2,
            In p1 (propertyList st1) -> In p2 (propertyList st2) -> id p1 <> id p2)
      /\ (forall p1 snap fm,
            In p1 (propertyList st1) -> In snap (frontmatterLists st2) -> In fm snap ->
            id p1 <> id fm).
Proof.
  intros uuid Hinj r files st0 edits files' st1 st2.
  pose proof (DistinctDrawnIds_reachable uuid r files st0 edits Hinj) as [_ Hdr].
  fold st1 in Hdr.
  destruct (selectFiles_spec uuid r files' st1) as (m & Inv & E).
  assert (New : forall p2, In p2 (propertyList st2) ->
                  exists j, drawn st1 <= j /\ id p2 = uuid j).
  { intros p2 Hp2. subst st2. rewrite E in Hp2. simpl in Hp2.
    apply (in_map id) in Hp2. rewrite (aggregated_ids _ _ _ _ _ _ Inv) in Hp2.
    apply in_map_iff in Hp2. destruct Hp2 as (j & Ej & Hj). apply in_seq in Hj.
    exists j. split; [lia | now symmetry]. }
  split; [|split].
  - subst st2. rewrite E. simpl. apply (AggInv_keys _ _ _ _ _ _ Inv).
  - intros p1 p2 H1 H2 Eid.
    destruct (Hdr p1 H1) as (j1 & Hj1 & E1). destruct (New p2 H2) as (j2 & Hj2 & E2).
    rewrite E1, E2 in Eid. apply Hinj in Eid. lia.
  - intros p1 snap fm H1 Hs Hfm Eid.
    destruct (Hdr p1 H1) as (j1 & Hj1 & E1).
    assert (exists p2, In p2 (propertyList st2) /\ id p2 = id fm) as (p2 & H2 & E2).
    { subst st2. rewrite E in *. simpl in *.
      apply in_map_iff in Hs. destruct Hs as (file & <- & Hfile).
      unfold snapshotOf in Hfm. apply in_map_iff in Hfm.
      destruct Hfm as (e & <- & He). simpl.
      pose proof (AggInv_covers _ _ _ _ _ _ _ Inv Hfile e He) as Hhas.
      destruct (Map_has_get _ _ Hhas) as [p G].
      exists (finish p). split.
      - apply in_map_iff. exists (fst e, p). split; [reflexivity|].
        now apply Map_get_In.
      - unfold idIn. now rewrite G. }
    destruct (New p2 H2) as (j2 & Hj2 & E3).
    rewrite E1, <- E2, E3 in Eid. apply Hinj in Eid. lia.
Qed.

Lemma X11_reaggregation_is_fresh_witness :
  map key (propertyList
             (selectFiles uuid_demo MainTs [fileB]
                (applyEdits uuid_demo MainTs [Add "c"]
                   (selectFiles uuid_demo MainTs [fileA; fileB] session0))))
  = unifiedKeys [fileB].
Proof.
  apply (proj1 (X11_reaggregation_is_fresh uuid_demo uuid_demo_inj MainTs
                  [fileA; fileB] session0 [Add "c"] [fileB])).
Defined.

(** ** Saving *)

Lemma updateFrom_no_properties dts lists : forall files i,
  updateFrom dts [] lists i files = (map (fun f => keptBody (content f)) files, true).
Proof.
  induction files as [|file files IH]; intros i; simpl; [reflexivity|].
  now rewrite IH.
Qed.

Lemma batchWriteFrom_no_properties lists : forall files i,
  batchWriteFrom [] lists i files = (map (fun _ => []) files, true).
Proof.
  induction files as [|file files IH]; intros i; simpl; [reflexivity|].
  unfold writeCallback. simpl. rewrite clear_own_keys. now rewrite IH.
Qed.

(** X12: saving an empty working list -- every property deleted, or none
    found -- never fails and removes the frontmatter of every selected file:
    [updateMarkdownFiles] writes the kept body alone, and
    [batchWriteFrontmatter] an object without keys. *)
Theorem X12_save_empty_working_list :
  forall dts st,
    propertyList st = [] ->
    updateMarkdownFiles dts st
    = (map (fun f => keptBody (content f)) (fileList st), true)
    /\ batchWriteFrontmatter st = (map (fun _ => []) (fileList st), true).
Proof.
  intros dts st H. unfold updateMarkdownFiles, batchWriteFrontmatter. rewrite H.
  split; [apply updateFrom_no_properties | apply batchWriteFrom_no_properties].
Qed.

Lemma X12_save_empty_working_list_witness :
  updateMarkdownFiles (fun _ => "")
    (applyEdits uuid_demo Part001 [Delete 0]
       (selectFiles uuid_demo Part001 [titledNote] session0))
  = (["Body"], true).
Proof.
  refine (proj1 (X12_save_empty_working_list (fun _ => "")
                   (applyEdits uuid_demo Part001 [Delete 0]
                      (selectFiles uuid_demo Part001 [titledNote] session0)) _)).
  reflexivity.
Defined.

Lemma allEntries_no_frontmatter files :
  Forall (fun f => frontmatter f = None) files -> allEntries files = [].
Proof.
  unfold allEntries. induction 1 as [|f files Hf _ IH]; simpl; [reflexivity|].
  unfold currentObject at 1. now rewrite Hf.
Qed.

(** X13: when none of the selected files has frontmatter, aggregation
    draws no identifier and gives an empty working list and one empty
    snapshot per file. *)
Theorem X13_no_frontmatter_selected :
  forall uuid r files st0,
    Forall (fun f => frontmatter f = None) files ->
    let st := selectFiles uuid r files st0 in
    propertyList st = []
    /\ frontmatterLists st = map (fun _ => []) files
    /\ drawn st = drawn st0.
Proof.
  intros uuid r files st0 Hnone st. subst st.
  destruct (selectFiles_spec uuid r files st0) as (m & Inv & E).
  assert (Hm : m = []).
  { pose proof (inv_keys Inv) as K.
    rewrite (allEntries_no_frontmatter _ Hnone) in K. simpl in K.
    now destruct m. }
  subst m. rewrite E. simpl. split; [reflexivity|]. split; [|lia].
  apply map_ext_in. intros f Hf.
  rewrite Forall_forall in Hnone. unfold currentObject.
  now rewrite (Hnone f Hf).
Qed.

Lemma X13_no_frontmatter_selected_witness :
  propertyList (selectFiles uuid_demo Part001 [plainNote; plainNote] session3) = []
  /\ frontmatterLists (selectFiles uuid_demo Part001 [plainNote; plainNote] session3)
     = [[]; []].
Proof.
  destruct (X13_no_frontmatter_selected uuid_demo Part001 [plainNote; plainNote] session3)
    as (H1 & H2 & _).
  - repeat constructor.
  - split; [exact H1 | exact H2].
Defined.

Lemma writeCallback_ignores_object props fl (fm fm' : obj) :
  writeCallback props fl fm = writeCallback props fl fm'.
Proof.
  unfold writeCallback. now rewrite !clear_own_keys.
Qed.

(** X14: what [batchWriteFrontmatter] writes into a file is determined by
    the working list and the file's snapshot alone: whatever frontmatter the
    file holds when it is saved is cleared first, so a change made to it
    since the aggregation is overwritten. *)
Theorem X14_save_overwrites_current_frontmatter :
  forall props lists files files' i,
    List.length files = List.length files' ->
    batchWriteFrom props lists i files = batchWriteFrom props lists i files'.
Proof.
  intros props lists files. induction files as [|f files IH];
    intros [|f' files'] i Hlen; simpl in Hlen; try discriminate; [reflexivity|].
  simpl. rewrite (writeCallback_ignores_object _ _ (currentObject f) (currentObject f')).
  destruct (writeCallback props (nth_error lists i) (currentObject f')); [|reflexivity].
  rewrite (IH files' (S i)) by lia. reflexivity.
Qed.

Lemma X14_save_overwrites_current_frontmatter_witness :
  batchWriteFrom threeProperties [[]] 0 [fileA] = batchWriteFrom threeProperties [[]] 0 [fileB].
Proof.
  apply (X14_save_overwrites_current_frontmatter threeProperties [[]] [fileA] [fileB] 0).
  reflexivity.
Defined.

(** ** The text rewritten by [updateMarkdownFiles] *)

Lemma prefix_append a : forall b,
  prefix a b = true -> exists r, b = (a ++ r)%string.
Proof.
  induction a as [|c a IH]; intros b H.
  - now exists b.
  - destruct b as [|d b]; simpl in H; [discriminate|].
    destruct (ascii_dec c d) as [E|Hne]; [|discriminate].
    subst d. destruct (IH b H) as [r ->]. now exists r.
Qed.

Lemma prefix_own a : forall s, prefix a (a ++ s)%string = true.
Proof.
  induction a as [|c a IH]; intros s; simpl; [now destruct s|].
  destruct (ascii_dec c c) as [_|Hne]; [apply IH | congruence].
Qed.

Lemma split_from_separator cur s :
  JS.split_from "---" 0 cur ("---" ++ s)%string = cur :: JS.split_from "---" 0 EmptyString s.
Proof.
  pose proof (prefix_own "---" s) as P.
  change ("---" ++ s)%string with (String "-" ("--" ++ s))%string in *.
  cbn [JS.split_from]. rewrite P. reflexivity.
Qed.

Lemma split_from_char cur c r :
  prefix "---" (String c r) = false ->
  JS.split_from "---" 0 cur (String c r)
  = JS.split_from "---" 0 (cur ++ String c EmptyString)%string r.
Proof.
  intros H. cbn [JS.split_from]. now rewrite H.
Qed.

Lemma string_app_assoc (a b c : string) : ((a ++ b) ++ c = a ++ (b ++ c))%string.
Proof. induction a; simpl; [reflexivity | now rewrite IHa]. Qed.

Lemma split_from_free : forall fm cur rest,
  separatorFree fm rest ->
  JS.split_from "---" 0 cur (fm ++ rest)%string
  = JS.split_from "---" 0 (cur ++ fm)%string rest.
Proof.
  induction fm as [|c fm IH]; intros cur rest H.
  - simpl. now rewrite append_nil_r.
  - destruct H as [Hp Hf]. change (String c fm ++ rest)%string with (String c (fm ++ rest)%string).
    rewrite split_from_char by exact Hp. rewrite (IH _ _ Hf).
    now rewrite string_app_assoc.
Qed.

Lemma split_from_nonempty sep : forall s k cur, JS.split_from sep k cur s <> [].
Proof.
  induction s as [|c s IH]; intros k cur; cbn [JS.split_from]; [discriminate|].
  destruct k; [|apply IH]. destruct (prefix sep (String c s)); [discriminate | apply IH].
Qed.

Lemma join_cons sep x l :
  l <> [] -> JS.join sep (x :: l) = (x ++ sep ++ JS.join sep l)%string.
Proof. unfold JS.join. destruct l; [contradiction | reflexivity]. Qed.

(** Splitting at "---" and joining with "---" gives the text back. *)
Lemma join_split_from : forall n s cur,
  String.length s <= n ->
  JS.join "---" (JS.split_from "---" 0 cur s) = (cur ++ s)%string.
Proof.
  induction n as [|n IH]; intros s cur Hlen.
  - destruct s; [|simpl in Hlen; lia]. simpl. now rewrite append_nil_r.
  - destruct s as [|c r]; [simpl; now rewrite append_nil_r|].
    destruct (prefix "---" (String c r)) eqn:Hp.
    + destruct (prefix_append _ _ Hp) as [r' E]. rewrite E.
      rewrite split_from_separator, join_cons by apply split_from_nonempty.
      rewrite IH; [reflexivity|].
      apply (f_equal String.length) in E. rewrite length_append_s in E.
      simpl in E, Hlen. lia.
    + rewrite split_from_char by exact Hp. rewrite IH by (simpl in Hlen; lia).
      now rewrite string_app_assoc.
Qed.

Lemma join_split s : JS.join "---" (JS.split "---" s) = s.
Proof. unfold JS.split. now rewrite (join_split_from (String.length s)). Qed.

Lemma keptBody_after_frontmatter fm body :
  separatorFree fm ("---" ++ body) ->
  keptBody ("---" ++ fm ++ "---" ++ body) = JS.trim body.
Proof.
  intros H. unfold keptBody, JS.split.
  rewrite split_from_separator, (split_from_free _ _ _ H), split_from_separator.
  unfold JS.slice. simpl skipn.
  now rewrite (join_split_from (String.length body)).
Qed.

(** X15: for a text that opens with a frontmatter block -- "---", a block
    in which no "---" starts, "---" -- [updateMarkdownFiles] replaces the
    block by the rendered working list and keeps the body, "---" inside the
    body included, with the white space at its two ends trimmed. *)
Theorem X15_body_after_frontmatter_kept :
  forall dts props snap fm body,
    separatorFree fm ("---" ++ body) ->
    keptBody ("---" ++ fm ++ "---" ++ body) = JS.trim body
    /\ rewriteFile dts props (Some snap) ("---" ++ fm ++ "---" ++ body)
       = option_map
           (fun renderList => (frontmatterText renderList ++ JS.trim body)%string)
           (mapM (renderPair dts) (map (emit snap) props)).
Proof.
  intros dts props snap fm body H.
  pose proof (keptBody_after_frontmatter fm body H) as K.
  split; [exact K|]. now rewrite rewriteFile_pairs, K.
Qed.

Lemma X15_body_after_frontmatter_kept_witness :
  keptBody ("---" ++ (JS.LF ++ "Title: A" ++ JS.LF) ++ "---"
              ++ (JS.LF ++ "Body --- more" ++ JS.LF))
  = "Body --- more".
Proof.
  refine (proj1 (X15_body_after_frontmatter_kept (fun _ => "") [] []
                   (JS.LF ++ "Title: A" ++ JS.LF)%string
                   (JS.LF ++ "Body --- more" ++ JS.LF)%string _)).
  simpl. repeat split.
Defined.

(** ** [stringifyValue] and the values it can write *)

Lemma itemEntry_prefix dts v :
  prefix (JS.LF ++ "  - ") (itemEntry dts v) = true.
Proof.
  unfold itemEntry.
  destruct v as [| |b|n|s|items|t|fields];
    try apply (prefix_own (JS.LF ++ "  - ")).
  destruct (JS.test_wikiLink s); apply (prefix_own (JS.LF ++ "  - ")).
Qed.

(** X16: [stringifyValue] does not throw on an array whose elements are
    neither arrays, nor native dates, nor objects with a property of their
    own named [toString]: it writes one entry per element, in order, each
    opening with a line break and "  - ", a string of the shape [[...]]
    between double quotes and any other element as its string; the empty
    array is written as the empty string. *)
Theorem X16_stringify_plain_list :
  forall dts items,
    forallb plainItem items = true ->
    stringifyValue dts (VList items)
    = Some (VStr (JS.join "" (map (itemEntry dts) items)))
    /\ List.length (map (itemEntry dts) items) = List.length items
    /\ Forall (fun entry => prefix (JS.LF ++ "  - ") entry = true)
         (map (itemEntry dts) items)
    /\ (forall s, In (VStr s) items -> JS.test_wikiLink s = false ->
                  In (JS.LF ++ "  - " ++ s)%string (map (itemEntry dts) items)).
Proof.
  intros dts items H. split; [|split; [|split]].
  - apply (stringifyValue_plain dts (VList items) H).
  - apply length_map.
  - apply Forall_forall. intros entry He. apply in_map_iff in He.
    destruct He as (v & <- & _). apply itemEntry_prefix.
  - intros s Hin Hno. apply in_map_iff. exists (VStr s). split; [|assumption].
    simpl. now rewrite Hno.
Qed.

Lemma X16_stringify_plain_list_witness :
  stringifyValue (fun _ => "") (VList [VStr "a"; VNum 3; VNull; VBool true])
  = Some (VStr (JS.LF ++ "  - a" ++ JS.LF ++ "  - 3" ++ JS.LF ++ "  - null"
                  ++ JS.LF ++ "  - true")%string).
Proof.
  refine (proj1 (X16_stringify_plain_list (fun _ => "")
                   [VStr "a"; VNum 3; VNull; VBool true] _)).
  reflexivity.
Defined.

(** ** [updateMarkdownFiles] runs to its end *)

(** X17: when the snapshots are as many as the files and no value, in the
    working list or in a snapshot, is an object with a property of its own
    named [toString], or an array holding an array, a native date or such
    an object, [updateMarkdownFiles] throws for no file: it rewrites every
    selected file. *)
Theorem X17_update_runs_to_end :
  forall dts st,
    List.length (frontmatterLists st) = List.length (fileList st) ->
    Forall (fun p => plainValue (value p) = true) (propertyList st) ->
    Forall (Forall (fun fm => plainValue (value fm) = true)) (frontmatterLists st) ->
    exists written,
      updateMarkdownFiles dts st = (written, true)
      /\ List.length written = List.length (fileList st).
Proof.
  intros dts st Hlen Hp Hs. unfold updateMarkdownFiles.
  pose proof (updateFrom_plain dts _ Hp (fileList st) (frontmatterLists st) []
                Hlen Hs) as E.
  simpl in E. rewrite E. eexists. split; [reflexivity|].
  rewrite length_map, length_combine. lia.
Qed.

Lemma X17_update_runs_to_end_witness :
  exists written,
    updateMarkdownFiles (fun _ => "")
      (selectFiles uuid_demo Part001 [plainNote; titledNote] session0)
    = (written, true)
    /\ List.length written = 2.
Proof.
  apply (X17_update_runs_to_end (fun _ => "")
           (selectFiles uuid_demo Part001 [plainNote; titledNote] session0)).
  - reflexivity.
  - repeat constructor.
  - repeat constructor.
Defined.

(** ** Tags offered and files selected *)

Lemma In_Set_add x y s : In x (Set_add y s) <-> x = y \/ In x s.
Proof.
  unfold Set_add. destruct (existsb (String.eqb y) s) eqn:E.
  - apply existsb_eqb_In in E. split; [now right|]. intros [->|H]; assumption.
  - rewrite in_app_iff. simpl. split; intros H; intuition (subst; auto).
Qed.

Lemma NoDup_Set_add y s : NoDup s -> NoDup (Set_add y s).
Proof.
  intros H. unfold Set_add. destruct (existsb (String.eqb y) s) eqn:E; [assumption|].
  apply existsb_eqb_notIn in E.
  apply NoDup_rev in H. rewrite <- (rev_involutive (s ++ [y])).
  apply NoDup_rev. rewrite rev_app_distr. simpl. constructor; [|assumption].
  now rewrite <- in_rev.
Qed.

Lemma In_addAll f x : forall ts s,
  In x (addAll f ts s) <-> In x s \/ exists t, In t ts /\ x = f t.
Proof.
  unfold addAll. induction ts as [|t ts IH]; intros s; simpl.
  - split; [now left | intros [H|(t & [] & _)]; assumption].
  - rewrite IH, In_Set_add. split.
    + intros [[->|H]|(t' & Ht & ->)]; eauto.
    + intros [H|(t' & [->|Ht] & ->)]; eauto.
Qed.

Lemma NoDup_addAll f : forall ts s, NoDup s -> NoDup (addAll f ts s).
Proof.
  unfold addAll. induction ts as [|t ts IH]; intros s H; simpl; [assumption|].
  apply IH. now apply NoDup_Set_add.
Qed.

Lemma filter_nonempty {A} (f : A -> bool) l :
  filter f l <> [] <-> exists x, In x l /\ f x = true.
Proof.
  split.
  - intros H. destruct (filter f l) as [|x r] eqn:E; [contradiction|].
    exists x. apply filter_In. rewrite E. now left.
  - intros (x & Hx & Hf) E.
    assert (Hin : In x (filter f l)) by (apply filter_In; auto).
    rewrite E in Hin. contradiction.
Qed.

Section MainVault.

Variable getFileCache : TFile -> option CachedMetadata.
Variable getAllTags : CachedMetadata -> option (list string).

Local Abbreviation carries := (carries getFileCache getAllTags).

Lemma Main_getItems_from : forall files tagSet t,
  In t (fold_left
          (fun tagSet file =>
             match getFileCache file with
             | Some cache =>
                 match getAllTags cache with
                 | Some ts => addAll (fun t => t) ts tagSet
                 | None => tagSet
                 end
             | None => tagSet
             end) files tagSet)
  <-> In t tagSet \/ exists file, In file files /\ carries file t.
Proof.
  induction files as [|file files IH]; intros tagSet t; simpl.
  - split; [now left | intros [H|(f & [] & _)]; assumption].
  - rewrite IH. unfold carries.
    destruct (getFileCache file) as [cache|] eqn:C;
      [destruct (getAllTags cache) as [ts|] eqn:T|].
    + rewrite In_addAll. split.
      * intros [[H|(t' & Ht & ->)]|(f & Hf & H)]; [now left | |right; eauto].
        right. exists file. split; [now left|]. now exists cache, ts.
      * intros [H|(f & [<-|Hf] & cache' & ts' & C' & T' & Hin)]; [now left; left | |].
        -- left. right. exists t. rewrite C in C'. injection C' as <-.
           rewrite T in T'. injection T' as <-. auto.
        -- right. exists f. split; [assumption|]. now exists cache', ts'.
    + split.
      * intros [H|(f & Hf & H)]; [now left | right; eauto].
      * intros [H|(f & [<-|Hf] & cache' & ts' & C' & T' & Hin)]; [now left | |].
        -- rewrite C in C'. injection C' as <-. congruence.
        -- right. exists f. split; [assumption|]. now exists cache', ts'.
    + split.
      * intros [H|(f & Hf & H)]; [now left | right; eauto].
      * intros [H|(f & [<-|Hf] & cache' & ts' & C' & T' & Hin)]; [now left | |].
        -- congruence.
        -- right. exists f. split; [assumption|]. now exists cache', ts'.
Qed.

Lemma Main_getItems_NoDup : forall files tagSet,
  NoDup tagSet ->
  NoDup (fold_left
           (fun tagSet file =>
              match getFileCache file with
              | Some cache =>
                  match getAllTags cache with
                  | Some ts => addAll (fun t => t) ts tagSet
                  | None => tagSet
                  end
              | None => tagSet
              end) files tagSet).
Proof.
  induction files as [|file files IH]; intros tagSet H; simpl; [assumption|].
  apply IH. destruct (getFileCache file) as [cache|]; [|assumption].
  destruct (getAllTags cache) as [ts|]; [|assumption].
  now apply NoDup_addAll.
Qed.

End MainVault.

(** X18: the tags [TagSuggestModal] offers are pairwise distinct and are
    exactly the tags for which [getFilesByTag] selects at least one file;
    and every file it selects for a tag carries that tag. *)
Theorem X18_offered_tags_select_files :
  forall getFileCache getAllTags files,
    NoDup (Main.getItems getFileCache getAllTags files)
    /\ (forall tag,
          In tag (Main.getItems getFileCache getAllTags files)
          <-> Main.getFilesByTag getFileCache getAllTags files tag <> [])
    /\ (forall tag file,
          In file (Main.getFilesByTag getFileCache getAllTags files tag) ->
          In file files /\ carries getFileCache getAllTags file tag).
Proof.
  intros getFileCache getAllTags files.
  assert (Sel : forall tag file,
             In file (Main.getFilesByTag getFileCache getAllTags files tag)
             <-> In file files /\ carries getFileCache getAllTags file tag).
  { intros tag file. unfold Main.getFilesByTag, carries. rewrite filter_In.
    split.
    - intros [Hf H]. split; [assumption|].
      destruct (getFileCache file) as [cache|] eqn:C; [|discriminate].
      destruct (getAllTags cache) as [ts|] eqn:T; [|discriminate].
      exists cache, ts. split; [reflexivity|]. split; [exact T|].
      apply existsb_exists in H. destruct H as (t & Ht & E).
      apply String.eqb_eq in E. now subst.
    - intros [Hf (cache & ts & -> & -> & Hin)]. split; [assumption|].
      apply existsb_exists. exists tag. split; [assumption | apply String.eqb_refl]. }
  split; [|split].
  - apply Main_getItems_NoDup. constructor.
  - intros tag. unfold Main.getItems. rewrite Main_getItems_from. split.
    + intros [[]|(file & Hf & Hc)] E.
      assert (Hin : In file (Main.getFilesByTag getFileCache getAllTags files tag))
        by (apply Sel; auto).
      rewrite E in Hin. contradiction.
    + intros H. right.
      destruct (Main.getFilesByTag getFileCache getAllTags files tag) as [|file l] eqn:E;
        [contradiction|].
      exists file. apply Sel. rewrite E. now left.
  - intros tag file. apply Sel.
Qed.

Lemma X18_offered_tags_select_files_witness :
  Main.getItems cache_demo tags [taggedNote; plainNote] = ["#movie"]
  /\ Main.getFilesByTag cache_demo tags [taggedNote; plainNote] "#movie" <> [].
Proof.
  split; [reflexivity|].
  apply (proj1 (proj2 (X18_offered_tags_select_files cache_demo tags
                         [taggedNote; plainNote]))).
  simpl. auto.
Defined.

Lemma stripHash_cases s : s = stripHash s \/ s = ("#" ++ stripHash s)%string.
Proof.
  destruct s as [|c r]; [now left|]. simpl.
  destruct (ascii_dec c "#") as [->|Hne]; [now right|].
  left. destruct c as [[] [] [] [] [] [] [] []]; try reflexivity. congruence.
Qed.

Lemma includes_In s items : In (VStr s) items -> includes s items = true.
Proof.
  intros H. unfold includes. apply existsb_exists. exists (VStr s).
  split; [assumption | apply String.eqb_refl].
Qed.

Lemma includes_stripped t items :
  In (VStr t) items ->
  includes (stripHash t) items || includes ("#" ++ stripHash t) items = true.
Proof.
  intros H. destruct (stripHash_cases t) as [E|E].
  - rewrite E in H. now rewrite (includes_In _ _ H).
  - rewrite E in H. rewrite (includes_In _ _ H). apply orb_true_r.
Qed.

(** The tags the fold over the elements of [frontmatter.tags] adds. *)
Lemma addItems_Some : forall items (all : list any) s s',
  (forall v, In v items -> In v all) ->
  fold_left
    (fun acc item =>
       match acc, item with
       | Some s, VStr t => Some (Set_add (stripHash t) s)
       | _, _ => None
       end) items (Some s) = Some s' ->
  (NoDup s -> NoDup s')
  /\ forall x, In x s' -> In x s \/ exists t, In (VStr t) all /\ x = stripHash t.
Proof.
  induction items as [|v items IH]; intros all s s' Hall H; simpl in H.
  - injection H as <-. split; auto.
  - destruct v as [| |b|n|t|l|d|f];
      try (exfalso; clear - H; induction items as [|w items IHi]; simpl in H;
           [discriminate | auto]).
    destruct (IH all _ _ (fun v Hv => Hall v (or_intror Hv)) H) as [Hnd Hin].
    split.
    + intros Hs. apply Hnd. now apply NoDup_Set_add.
    + intros x Hx. destruct (Hin x Hx) as [Hx'|Hx']; [|now right].
      apply In_Set_add in Hx'. destruct Hx' as [->|Hx']; [|now left].
      right. exists t. split; [apply Hall; now left | reflexivity].
Qed.

Lemma addItems_throws : forall items v acc,
  In v items -> (forall s, v <> VStr s) ->
  fold_left
    (fun acc item =>
       match acc, item with
       | Some s, VStr t => Some (Set_add (stripHash t) s)
       | _, _ => None
       end) items acc = None.
Proof.
  assert (Stuck : forall items,
             fold_left
               (fun acc item =>
                  match acc, item with
                  | Some s, VStr t => Some (Set_add (stripHash t) s)
                  | _, _ => None
                  end) items None = None).
  { induction items as [|w items IH]; simpl; auto. }
  induction items as [|w items IH]; intros v acc Hin Hv; [contradiction|].
  destruct Hin as [->|Hin].
  - simpl. destruct acc as [s|]; [|apply Stuck].
    destruct v; try apply Stuck. exfalso. now apply (Hv s0).
  - simpl. now apply (IH v).
Qed.

Lemma addTagsOf_Some cache tagSet tagSet' :
  (forall ts t, tags cache = Some ts -> In t ts -> exists r, t = ("#" ++ r)%string) ->
  Legacy.addTagsOf cache tagSet = Some tagSet' ->
  (NoDup tagSet -> NoDup tagSet')
  /\ forall x, In x tagSet' -> In x tagSet \/ Legacy.hasTag x cache = true.
Proof.
  intros Hhash. unfold Legacy.addTagsOf, Legacy.hasTag.
  set (tagSet1 := match tags cache with
                  | Some ts => addAll slice1 ts tagSet
                  | None => tagSet
                  end).
  assert (H1 : (NoDup tagSet -> NoDup tagSet1)
               /\ forall x, In x tagSet1 ->
                    In x tagSet
                    \/ match tags cache with
                       | Some ts =>
                           existsb (fun t => String.eqb t ("#" ++ x) || String.eqb t x) ts
                       | None => false
                       end = true).
  { subst tagSet1. destruct (tags cache) as [ts|] eqn:T; [|split; auto].
    split; [apply NoDup_addAll|].
    intros x Hx. apply In_addAll in Hx. destruct Hx as [Hx|(t & Ht & ->)]; [now left|].
    right. apply existsb_exists. exists t. split; [assumption|].
    destruct (Hhash ts t eq_refl Ht) as [r ->]. simpl.
    now rewrite String.eqb_refl. }
  destruct H1 as [Hnd1 Hin1].
  assert (Keep : forall x, In x tagSet1 ->
                   In x tagSet
                   \/ match tags cache with
                      | Some ts =>
                          existsb (fun t => String.eqb t ("#" ++ x) || String.eqb t x) ts
                      | None => false
                      end
                      || match cachedFrontmatter cache with
                         | Some fm =>
                             let frontmatterTags :=
                               orElse (property "tags" fm) (property "tag" fm) in
                             if truthy frontmatterTags then
                               match frontmatterTags with
                               | VList items =>
                                   includes x items || includes ("#" ++ x) items
                               | VStr s => String.eqb s x || String.eqb s ("#" ++ x)
                               | _ => false
                               end
                             else false
                         | None => false
                         end = true).
  { intros x Hx. destruct (Hin1 x Hx) as [H|H]; [now left|]. right. now rewrite H. }
  destruct (cachedFrontmatter cache) as [fm|];
    [|intros [= <-]; split; [exact Hnd1 | exact Keep]].
  cbv zeta. unfold orElse.
  destruct (truthy (property "tags" fm)) eqn:Tr;
    [|intros [= <-]; split; [exact Hnd1|]; intros x Hx;
      destruct (Hin1 x Hx) as [H|H]; [now left | right; now rewrite H]].
  rewrite Tr.
  destruct (property "tags" fm) as [| |b|n|s|items|d|f] eqn:P;
    try (intros [= <-]; split; [exact Hnd1|]; intros x Hx;
         destruct (Hin1 x Hx) as [H|H]; [now left | right; now rewrite H]).
  - intros [= <-]. split; [intros H; now apply NoDup_Set_add, Hnd1|].
    intros x Hx. apply In_Set_add in Hx. destruct Hx as [->|Hx].
    + right. apply orb_true_iff. right.
      destruct (stripHash_cases s) as [E|E].
      * rewrite <- E. now rewrite String.eqb_refl.
      * rewrite <- E. rewrite String.eqb_refl. apply orb_true_r.
    + destruct (Hin1 x Hx) as [H|H]; [now left | right; now rewrite H].
  - intros H.
    destruct (addItems_Some items items _ _ (fun v Hv => Hv) H) as [Hnd Hin].
    split; [intros Hs; now apply Hnd, Hnd1|].
    intros x Hx. destruct (Hin x Hx) as [Hx'|(t & Ht & ->)].
    + destruct (Hin1 x Hx') as [H'|H']; [now left | right; now rewrite H'].
    + right. apply orb_true_iff. right. now apply includes_stripped.
Qed.

(** X19: in revision [part_001], when the tags written in the texts all
    open with "#" and [TagSuggestModal] does not throw, the tags it offers
    are pairwise distinct and [getFilesByTag] selects at least one file
    for each of them. *)
Theorem X19_legacy_offered_tags_select_files :
  forall getFileCache files items,
    (forall file cache ts t,
       In file files -> getFileCache file = Some cache ->
       tags cache = Some ts -> In t ts -> exists r, t = ("#" ++ r)%string) ->
    Legacy.getItems getFileCache files = Some items ->
    NoDup items
    /\ forall tag, In tag items -> Legacy.getFilesByTag getFileCache files tag <> [].
Proof.
  intros getFileCache files items Hhash H.
  assert (Gen : forall part tagSet,
             (forall f, In f part -> In f files) ->
             fold_left
               (fun acc file =>
                  match acc with
                  | Some tagSet =>
                      match getFileCache file with
                      | Some cache => Legacy.addTagsOf cache tagSet
                      | None => Some tagSet
                      end
                  | None => None
                  end) part (Some tagSet) = Some items ->
             (NoDup tagSet -> NoDup items)
             /\ forall x, In x items ->
                  In x tagSet
                  \/ exists file cache,
                       In file files /\ getFileCache file = Some cache
                       /\ Legacy.hasTag x cache = true).
  { induction part as [|file part IH]; intros tagSet Hsub Hf; simpl in Hf.
    - injection Hf as <-. split; auto.
    - destruct (getFileCache file) as [cache|] eqn:C.
      + destruct (Legacy.addTagsOf cache tagSet) as [tagSet'|] eqn:A.
        * destruct (IH tagSet' (fun f Hin => Hsub f (or_intror Hin)) Hf) as [Hnd Hin].
          destruct (addTagsOf_Some cache tagSet tagSet'
                      (fun ts t => Hhash file cache ts t (Hsub file (or_introl eq_refl)) C) A)
            as [Hnd' Hin'].
          split; [auto|].
          intros x Hx. destruct (Hin x Hx) as [Hx'|Hx']; [|now right].
          destruct (Hin' x Hx') as [Hx''|Hx'']; [now left|].
          right. exists file, cache. split; [apply Hsub; now left | auto].
        * exfalso. clear - Hf. induction part as [|g part IHp]; simpl in Hf;
            [discriminate | auto].
      + apply (IH tagSet (fun f Hin => Hsub f (or_intror Hin)) Hf). }
  destruct (Gen files [] (fun f Hf => Hf) H) as [Hnd Hin].
  split; [apply Hnd; constructor|].
  intros tag Htag. destruct (Hin tag Htag) as [[]|(file & cache & Hf & C & Ht)].
  apply filter_nonempty. exists file. split; [assumption|]. now rewrite C.
Qed.

(** X20: in revision [part_001], [TagSuggestModal] throws as soon as one
    markdown file has a frontmatter [tags] list with an element that is not
    a string, a number for instance: no tag is offered at all. *)
Theorem X20_legacy_getItems_throws :
  forall getFileCache files file cache fm items v,
    In file files ->
    getFileCache file = Some cache ->
    cachedFrontmatter cache = Some fm ->
    lookup "tags" fm = Some (VList items) ->
    In v items -> (forall s, v <> VStr s) ->
    Legacy.getItems getFileCache files = None.
Proof.
  intros getFileCache files file cache fm items v Hf C F L Hv Hns.
  assert (Bad : forall tagSet, Legacy.addTagsOf cache tagSet = None).
  { intros tagSet. unfold Legacy.addTagsOf. rewrite F. unfold property. rewrite L.
    simpl. now apply (addItems_throws items v). }
  assert (Stuck : forall part,
             fold_left
               (fun acc file =>
                  match acc with
                  | Some tagSet =>
                      match getFileCache file with
                      | Some cache => Legacy.addTagsOf cache tagSet
                      | None => Some tagSet
                      end
                  | None => None
                  end) part None = None).
  { induction part as [|g part IH]; simpl; auto. }
  unfold Legacy.getItems. generalize (Some (@nil string)).
  induction files as [|g files IH]; intros acc; [contradiction|].
  simpl. destruct Hf as [->|Hf].
  - rewrite C. destruct acc as [tagSet|]; [rewrite Bad|]; apply Stuck.
  - now apply IH.
Qed.

Lemma X19_legacy_offered_tags_select_files_witness :
  Legacy.getItems cache_demo [taggedNote; plainNote] = Some ["movie"; "seen"; "classic"]
  /\ Legacy.getFilesByTag cache_demo [taggedNote; plainNote] "classic" <> [].
Proof.
  split; [reflexivity|].
  refine (proj2 (X19_legacy_offered_tags_select_files cache_demo [taggedNote; plainNote]
                   ["movie"; "seen"; "classic"] _ eq_refl) "classic" _).
  - intros file cache ts t _ [= <-] [= <-] [<-|[]]. now exists "movie".
  - simpl. auto.
Defined.

Lemma X20_legacy_getItems_throws_witness :
  Legacy.getItems cache_demo [taggedNote; yearTaggedNote] = None.
Proof.
  refine (X20_legacy_getItems_throws cache_demo [taggedNote; yearTaggedNote]
            yearTaggedNote (mkCachedMetadata (Some ["#movie"]) (frontmatter yearTaggedNote))
            [("tags", VList [VStr "seen"; VNum 2024])] [VStr "seen"; VNum 2024]
            (VNum 2024) _ eq_refl eq_refl eq_refl _ _).
  - simpl. auto.
  - simpl. auto.
  - discriminate.
Defined.

(** ** Adding a property *)

Lemma trimEnd_unfold c r :
  JS.trimEnd (String c r)
  = match JS.trimEnd r with
    | EmptyString => if JS.isWhiteSpace c then EmptyString else String c EmptyString
    | r' => String c r'
    end.
Proof. reflexivity. Qed.

Lemma trimEnd_idempotent s : JS.trimEnd (JS.trimEnd s) = JS.trimEnd s.
Proof.
  induction s as [|c r IH]; [reflexivity|].
  rewrite (trimEnd_unfold c r).
  destruct (JS.trimEnd r) as [|d r'] eqn:E.
  - destruct (JS.isWhiteSpace c) eqn:W; [reflexivity|].
    rewrite trimEnd_unfold. cbn [JS.trimEnd]. now rewrite W.
  - rewrite trimEnd_unfold, IH. reflexivity.
Qed.

Lemma trimStart_head s :
  JS.trimStart s = EmptyString
  \/ exists c r, JS.trimStart s = String c r /\ JS.isWhiteSpace c = false.
Proof.
  induction s as [|c r IH]; [now left|]. simpl.
  destruct (JS.isWhiteSpace c) eqn:W; [exact IH|]. right. eauto.
Qed.

Lemma trimEnd_head c r :
  JS.isWhiteSpace c = false -> exists r', JS.trimEnd (String c r) = String c r'.
Proof.
  intros W. rewrite trimEnd_unfold. destruct (JS.trimEnd r) as [|d r'].
  - rewrite W. eauto.
  - eauto.
Qed.

Lemma trim_idempotent s : JS.trim (JS.trim s) = JS.trim s.
Proof.
  unfold JS.trim. destruct (trimStart_head s) as [E|(c & r & E & W)]; rewrite E.
  - reflexivity.
  - destruct (trimEnd_head c r W) as [r' E']. rewrite E'.
    cbn [JS.trimStart]. rewrite W, <- E'. apply trimEnd_idempotent.
Qed.

(** X21: a key made by Add is never empty and has no white space at its
    ends, and adding the same name a second time changes nothing more: the
    second Add is rejected, whether or not the first one was accepted. *)
Theorem X21_add_trimmed_and_once :
  forall uuid r name st,
    let st1 := applyEdit uuid r (Add name) st in
    (forall p, In p (propertyList st1) -> ~ In p (propertyList st) ->
               key p = JS.trim name /\ key p <> "" /\ JS.trim (key p) = key p)
    /\ propertyList (applyEdit uuid r (Add name) st1) = propertyList st1
    /\ drawn (applyEdit uuid r (Add name) st1) = drawn st1.
Proof.
  intros uuid r name st st1. subst st1. simpl. unfold addNewProperty. simpl.
  destruct (String.eqb_spec (JS.trim name) "") as [E|Hne]; simpl.
  - rewrite E. simpl. split; [intros p Hp Hn; contradiction | auto].
  - destruct (existsb (fun p => String.eqb (key p) (JS.trim name)) (propertyList st))
      eqn:Ex; simpl.
    + destruct (String.eqb_spec (JS.trim name) ""); [contradiction|]. simpl.
      rewrite Ex. simpl. split; [intros p Hp Hn; contradiction | auto].
    + destruct (String.eqb_spec (JS.trim name) ""); [contradiction|]. simpl.
      rewrite existsb_app. simpl. rewrite String.eqb_refl, orb_true_r. simpl.
      split; [|auto].
      intros p Hp Hn. apply in_app_or in Hp. destruct Hp as [Hp|[<-|[]]];
        [contradiction|].
      simpl. split; [reflexivity|]. split; [assumption | apply trim_idempotent].
Qed.

(** ** Saving a session reached by edits (revision [main.ts]) *)

Lemma NoDup_keys_applyEdit uuid r e st :
  NoDup (map key (propertyList st)) ->
  NoDup (map key (propertyList (applyEdit uuid r e st))).
Proof.
  intros Hnd. destruct e as [name|idx|idx name|i d]; simpl.
  - unfold addNewProperty. simpl.
    destruct (negb (String.eqb (JS.trim name) "")); simpl; [|assumption].
    destruct (existsb _ (propertyList st)) eqn:Ex; simpl; [assumption|].
    rewrite map_app. simpl.
    apply NoDup_rev in Hnd. rewrite <- (rev_involutive (_ ++ _)).
    apply NoDup_rev. rewrite rev_app_distr. simpl. constructor; [|assumption].
    rewrite <- in_rev. rewrite <- existsb_key_In. now rewrite Ex.
  - rewrite map_removeAt. now apply NoDup_removeAt.
  - unfold renameProperty.
    destruct (nth_error (propertyList st) idx) as [prop|]; [|assumption].
    destruct (existsb _ internalpropertyList); [assumption|].
    destruct (negb (String.eqb name "")); simpl; [|assumption].
    destruct (existsb _ (propertyList st)) eqn:Ex; simpl; [assumption|].
    apply NoDup_setKeyAt; [assumption|].
    rewrite <- existsb_key_In. now rewrite Ex.
  - destruct (in_dec string_dec i (map id (propertyList st))) as [Hin|Hout].
    + eapply Permutation_NoDup; [|exact Hnd].
      apply Permutation_map. now apply onDrop_Permutation.
    + now rewrite (onDrop_absent _ _ _ Hout).
Qed.

Lemma NoDup_keys_reachable uuid r files st0 edits :
  NoDup (map key (propertyList (applyEdits uuid r edits (selectFiles uuid r files st0)))).
Proof.
  assert (H : NoDup (map key (propertyList (selectFiles uuid r files st0)))).
  { destruct (selectFiles_spec uuid r files st0) as (m & Inv & E).
    rewrite E. simpl. rewrite (AggInv_keys _ _ _ _ _ _ Inv). apply NoDup_firstSeen. }
  revert H. generalize (selectFiles uuid r files st0).
  unfold applyEdits. induction edits as [|e edits IH]; intros st H; simpl;
    [assumption|].
  apply IH. now apply NoDup_keys_applyEdit.
Qed.

(** X22: in every session reached from an aggregation by edits,
    [batchWriteFrontmatter] throws for no file: it writes into each selected
    file, in order, the object that results from assigning to an empty
    object one pair per entry of the working list, in the order of the
    list, resolved against that file's snapshot.  The object holds these
    pairs but for one named [__proto__]; its array-index names come first,
    ascending, the others in the order of the list; when no key is an
    array index or [__proto__] it lists exactly the pairs, in the order of
    the list. *)
Theorem X22_batch_write_reached_session :
  forall uuid r files st0 edits,
    let st := applyEdits uuid r edits (selectFiles uuid r files st0) in
    batchWriteFrontmatter st
    = (map (fun snap => ownProperties (map (emit snap) (propertyList st)))
         (frontmatterLists st), true)
    /\ List.length (fst (batchWriteFrontmatter st)) = List.length files
    /\ (forall i o,
          nth_error (fst (batchWriteFrontmatter st)) i = Some o ->
          exists snap,
            nth_error (frontmatterLists st) i = Some snap
            /\ (forall k v,
                  In (k, v) o
                  <-> In (k, v) (map (emit snap) (propertyList st))
                      /\ k <> "__proto__")
            /\ exists indices named,
                 o = indices ++ named
                 /\ IndexSorted indices
                 /\ named
                    = filter (fun kv => negb (isArrayIndex (fst kv)) && assignable kv)
                        (map (emit snap) (propertyList st)))
    /\ ((forall p, In p (propertyList st) ->
                   arrayIndex (key p) = None /\ key p <> "__proto__") ->
        batchWriteFrontmatter st
        = (map (fun snap => map (emit snap) (propertyList st)) (frontmatterLists st),
           true)).
Proof.
  intros uuid r files st0 edits st.
  assert (Hlen : List.length (frontmatterLists st) = List.length (fileList st)).
  { subst st. rewrite applyEdits_frontmatterLists, applyEdits_fileList.
    destruct (selectFiles_spec uuid r files st0) as (m & _ & E).
    rewrite E. simpl. apply length_map. }
  assert (W : batchWriteFrontmatter st
              = (map (fun snap => ownProperties (map (emit snap) (propertyList st)))
                   (frontmatterLists st), true)).
  { unfold batchWriteFrontmatter.
    apply (batchWriteFrom_aligned _ (NoDup_keys_reachable uuid r files st0 edits)
             (fileList st) (frontmatterLists st) [] Hlen). }
  split; [exact W|]. split; [|split].
  - rewrite W. simpl. rewrite length_map, Hlen.
    subst st. rewrite applyEdits_fileList.
    destruct (selectFiles_spec uuid r files st0) as (m & _ & E). now rewrite E.
  - intros i o. rewrite W. simpl. rewrite nth_error_map.
    destruct (nth_error (frontmatterLists st) i) as [snap|]; [|discriminate].
    intros [= <-]. exists snap. split; [reflexivity|]. split.
    + intros k v. apply (In_ownProperties _ (k, v)).
    + exists (indexPairs (filter assignable (map (emit snap) (propertyList st)))),
             (namedPairs (filter assignable (map (emit snap) (propertyList st)))).
      split; [reflexivity|]. apply ownProperties_order.
  - intros Hnamed. rewrite W. f_equal. apply map_ext. intros snap.
    apply ownProperties_named. intros kv Hkv. apply in_map_iff in Hkv.
    destruct Hkv as (p & <- & Hp). simpl. now apply Hnamed.
Qed.

Lemma X21_add_trimmed_and_once_witness :
  propertyList
    (applyEdit uuid_demo MainTs (Add " Score ")
       (applyEdit uuid_demo MainTs (Add " Score ") session3))
  = propertyList (applyEdit uuid_demo MainTs (Add " Score ") session3).
Proof.
  apply (proj1 (proj2 (X21_add_trimmed_and_once uuid_demo MainTs " Score " session3))).
Defined.
